(** * GROMACS GRO reader and writer of ParmEd: a shallow embedding

    The development follows [parmed/gromacs/gromacsgro.py]: the class
    [GromacsGroFile] with its three static methods [id_format], [parse]
    and [write].

    Python values are modelled as the code uses them:
    - a [str] is a list of characters (ASCII text; slicing, [strip],
      [split], [index] are written out below);
    - an [int] is a [Z];
    - a [float] is an IEEE 754 binary64 number, the kernel's primitive
      [float]; [float(s)] and ['%w.pf' % x] are computed exactly from the
      decimal digits, with round-to-nearest-even;
    - an exception is a value of [exn] carried by [result];
    - a file object is the list of its remaining lines; reading a line
      removes it from the list. *)

From Stdlib Require Import String Ascii.
From Stdlib Require Import Decimal DecimalFacts DecimalPos DecimalN DecimalZ.
From Stdlib Require Import Floats.
From Stdlib Require Import QArith Qpower Qabs Lqa.
From Stdlib Require Import ZArith List Bool Lia.
Import ListNotations.
Local Open Scope Z_scope.

(** ** The Python run time the module relies on *)

Module Py.

Definition str := list ascii.

(** A string literal of the source. *)
Definition py (s : string) : str := list_ascii_of_string s.

Inductive exn : Set :=
| ValueError
| IndexError
| TypeError
| UnboundLocalError
| GromacsError.

Inductive result (A : Type) : Type :=
| Ok (a : A)
| Raise (e : exn).
Arguments Ok {A} a.
Arguments Raise {A} e.

Definition bind {A B} (c : result A) (k : A -> result B) : result B :=
  match c with
  | Ok a => k a
  | Raise e => Raise e
  end.

Notation "x <- c ;; k" := (bind c (fun x => k))
  (at level 61, c at next level, right associativity).

Definition is_ok {A} (c : result A) : bool :=
  match c with Ok _ => true | Raise _ => false end.

Definition len (s : str) : Z := Z.of_nat (length s).

(** *** Slicing: [s[a:b]] with Python's treatment of negative and
    out-of-range bounds. *)

Definition clamp (n i : Z) : Z :=
  if i <? 0 then Z.max 0 (i + n) else Z.min i n.

Definition slice (s : str) (a b : Z) : str :=
  let a' := clamp (len s) a in
  let b' := clamp (len s) b in
  firstn (Z.to_nat (b' - a')) (skipn (Z.to_nat a') s).

(** *** Whitespace, [strip] and [split] *)

(** [str.isspace] on ASCII text, as Python 3 has it: tab, line feed,
    vertical tab, form feed, carriage return, the four separators
    0x1c-0x1f and the space. *)
Definition isspace (c : ascii) : bool :=
  let n := Z.of_nat (nat_of_ascii c) in
  ((9 <=? n) && (n <=? 13)) || ((28 <=? n) && (n <=? 32)).

(** The line feed. *)
Definition nl : ascii := "010"%char.

(** Strings of blanks only, and strings without any blank. *)
Definition blank (s : str) : Prop := Forall (fun c => isspace c = true) s.
Definition solid (s : str) : Prop := Forall (fun c => isspace c = false) s.

Fixpoint lstrip (s : str) : str :=
  match s with
  | [] => []
  | c :: s' => if isspace c then lstrip s' else s
  end.

Definition rstrip (s : str) : str := rev (lstrip (rev s)).

Definition strip (s : str) : str := rstrip (lstrip s).

(** [s.split()]: the maximal runs of non-blank characters.  [cur] holds
    the current run, reversed. *)
Definition flush (cur : str) (k : list str) : list str :=
  match cur with
  | [] => k
  | _ => rev cur :: k
  end.

Fixpoint split_run (cur : str) (s : str) : list str :=
  match s with
  | [] => flush cur []
  | c :: s' =>
      if isspace c then flush cur (split_run [] s')
      else split_run (c :: cur) s'
  end.

Definition split (s : str) : list str := split_run [] s.

(** The blanks [int] and [float] skip around a numeral in ASCII text: the
    six characters of C's [isspace], without the separators 0x1c-0x1f
    that [str.isspace] and [str.strip] count in. *)
Definition isspace_c (c : ascii) : bool :=
  let n := Z.of_nat (nat_of_ascii c) in
  ((9 <=? n) && (n <=? 13)) || (n =? 32).

Definition cblank (s : str) : Prop := Forall (fun c => isspace_c c = true) s.

Fixpoint lstrip_c (s : str) : str :=
  match s with
  | [] => []
  | c :: s' => if isspace_c c then lstrip_c s' else s
  end.

Definition strip_c (s : str) : str := rev (lstrip_c (rev (lstrip_c s))).

(** *** Searching *)

(** Strings in which the character [c] does not occur. *)
Definition no_char (c : ascii) (s : str) : Prop :=
  Forall (fun x => Ascii.eqb x c = false) s.

(** Position of the first [c] in [s], the head of [s] being position [i]. *)
Fixpoint find_from (c : ascii) (s : str) (i : Z) : option Z :=
  match s with
  | [] => None
  | x :: s' => if Ascii.eqb x c then Some i else find_from c s' (i + 1)
  end.

(** [s.index(c, start)] for a one-character [c]. *)
Definition index (s : str) (c : ascii) (start : Z) : result Z :=
  let a := clamp (len s) start in
  match find_from c (skipn (Z.to_nat a) s) a with
  | Some i => Ok i
  | None => Raise ValueError
  end.

(** [[i for i, x in enumerate(s) if x == c]], the head of [s] being
    position [i]. *)
Fixpoint positions (c : ascii) (s : str) (i : Z) : list Z :=
  match s with
  | [] => []
  | x :: s' =>
      if Ascii.eqb x c then i :: positions c s' (i + 1)
      else positions c s' (i + 1)
  end.

(** [l[i]] for a non-negative constant [i]. *)
Definition getitem {A} (l : list A) (i : nat) : result A :=
  match nth_error l i with
  | Some x => Ok x
  | None => Raise IndexError
  end.

(** *** Decimal digits *)

Fixpoint uint_chars (d : uint) : str :=
  match d with
  | Nil => []
  | D0 d => "0"%char :: uint_chars d
  | D1 d => "1"%char :: uint_chars d
  | D2 d => "2"%char :: uint_chars d
  | D3 d => "3"%char :: uint_chars d
  | D4 d => "4"%char :: uint_chars d
  | D5 d => "5"%char :: uint_chars d
  | D6 d => "6"%char :: uint_chars d
  | D7 d => "7"%char :: uint_chars d
  | D8 d => "8"%char :: uint_chars d
  | D9 d => "9"%char :: uint_chars d
  end.

Definition digit_of (c : ascii) : option (uint -> uint) :=
  match c with
  | "0"%char => Some D0
  | "1"%char => Some D1
  | "2"%char => Some D2
  | "3"%char => Some D3
  | "4"%char => Some D4
  | "5"%char => Some D5
  | "6"%char => Some D6
  | "7"%char => Some D7
  | "8"%char => Some D8
  | "9"%char => Some D9
  | _ => None
  end.

Definition isdigit (c : ascii) : bool :=
  match digit_of c with Some _ => true | None => false end.

Abbreviation all_digits s := (Forall (fun c => isdigit c = true) s).

(** The digits of a string made of digits only. *)
Fixpoint chars_uint (s : str) : option uint :=
  match s with
  | [] => Some Nil
  | c :: s' =>
      match digit_of c, chars_uint s' with
      | Some d, Some u => Some (d u)
      | _, _ => None
      end
  end.

(** A non-empty run of digits, as a number. *)
Definition digits_value (s : str) : option Z :=
  match s with
  | [] => None
  | _ =>
      match chars_uint s with
      | Some u => Some (Z.of_N (N.of_uint u))
      | None => None
      end
  end.

(** An optional sign in front of [s]. *)
Definition split_sign (s : str) : bool * str :=
  match s with
  | "-"%char :: r => (true, r)
  | "+"%char :: r => (false, r)
  | _ => (false, s)
  end.

(** The digit groups of a numeral (Python 3.6 and later): every
    underscore must follow a digit and precede a digit, and is then
    dropped; [None] when one is misplaced.  [prev] is the character
    before [s]. *)
Fixpoint ungroup (prev : ascii) (s : str) : option str :=
  match s with
  | [] => if Ascii.eqb prev "_"%char then None else Some []
  | c :: s' =>
      if Ascii.eqb c "_"%char then
        if isdigit prev then ungroup c s' else None
      else if Ascii.eqb prev "_"%char && negb (isdigit c) then None
      else option_map (cons c) (ungroup c s')
  end.

(** The character before the first one: none. *)
Definition nul : ascii := "000"%char.

(** *** [int(s)] on a string: C blanks around, an optional sign, digits
    in groups. *)

Definition pyint (s : str) : result Z :=
  let (neg, ds) := split_sign (strip_c s) in
  match ungroup nul ds with
  | Some ds' =>
      match digits_value ds' with
      | Some n => Ok (if neg then - n else n)
      | None => Raise ValueError
      end
  | None => Raise ValueError
  end.

(** *** Fixed-width formatting *)

Definition spaces (n : nat) : str := repeat " "%char n.

(** Right-justified in [w] columns, as [%ws] and [%wd] do. *)
Definition rjust (w : nat) (s : str) : str := spaces (w - length s) ++ s.

(** Left-justified in [w] columns, as [%-ws] does. *)
Definition ljust (w : nat) (s : str) : str := s ++ spaces (w - length s).

(** [str(n)] for an integer. *)
Definition str_of_int (n : Z) : str :=
  match Z.to_int n with
  | Pos d => uint_chars d
  | Neg d => "-"%char :: uint_chars d
  end.

(** ['%wd' % n] *)
Definition fmt_d (w : nat) (n : Z) : str := rjust w (str_of_int n).

(** *** Floating-point numbers: IEEE 754 binary64 *)

Definition lower (c : ascii) : ascii :=
  let n := nat_of_ascii c in
  if ((65 <=? n) && (n <=? 90))%nat then ascii_of_nat (n + 32) else c.

Fixpoint str_eqb (s t : str) : bool :=
  match s, t with
  | [], [] => true
  | c :: s', d :: t' => Ascii.eqb c d && str_eqb s' t'
  | _, _ => false
  end.

(** The leading digits of [s] and what follows them. *)
Fixpoint span_digits (s : str) : str * str :=
  match s with
  | [] => ([], [])
  | c :: s' =>
      if isdigit c then let (d, r) := span_digits s' in (c :: d, r)
      else ([], s)
  end.

(** The binary64 number nearest to [(-1)^neg * m * 10^e] (ties to even),
    computed on exact integers. *)
Definition float_of_decimal (neg : bool) (m e : Z) : float :=
  SF2Prim
    match m with
    | Zpos p =>
        if 0 <=? e then binary_round prec emax neg (Z.to_pos (m * 10 ^ e)) 0
        else SFdiv prec emax (S754_finite neg p 0)
                   (S754_finite false (Z.to_pos (10 ^ (- e))) 0)
    | _ => S754_zero neg
    end.

(** A decimal numeral: digits with an optional point and an optional
    exponent, at least one digit in the mantissa. *)
Definition float_of_numeral (neg : bool) (s : str) : result float :=
  let (ip, r1) := span_digits s in
  let (fp, r2) :=
    match r1 with
    | "."%char :: r => span_digits r
    | _ => ([], r1)
    end in
  match digits_value (ip ++ fp) with
  | None => Raise ValueError
  | Some m =>
      match r2 with
      | [] => Ok (float_of_decimal neg m (- len fp))
      | c :: r3 =>
          if Ascii.eqb (lower c) "e"%char then
            let (eneg, eds) := split_sign r3 in
            match digits_value eds with
            | Some ev =>
                Ok (float_of_decimal neg m
                      ((if eneg then - ev else ev) - len fp))
            | None => Raise ValueError
            end
          else Raise ValueError
      end
  end.

(** An optional sign, then [inf], [infinity], [nan] in any case, or a
    decimal numeral. *)
Definition float_of_text (t : str) : result float :=
  let (neg, body) := split_sign t in
  let lb := map lower body in
  if str_eqb lb (py "inf") || str_eqb lb (py "infinity") then
    Ok (if neg then neg_infinity else infinity)
  else if str_eqb lb (py "nan") then Ok nan
  else float_of_numeral neg body.

(** [float(s)] on a string: C blanks around, digit groups anywhere
    between two digits, then the text without them. *)
Definition pyfloat (s : str) : result float :=
  match ungroup nul (strip_c s) with
  | Some t => float_of_text t
  | None => Raise ValueError
  end.

(** [num / den] rounded to the nearest integer, ties to even. *)
Definition round_half_even (num den : Z) : Z :=
  let q := num / den in
  match 2 * (num mod den) ?= den with
  | Lt => q
  | Gt => q + 1
  | Eq => if Z.even q then q else q + 1
  end.

(** The decimal digits of a natural number. *)
Definition nat_chars (n : Z) : str := uint_chars (N.to_uint (Z.to_N n)).

Definition zfill (w : nat) (s : str) : str :=
  repeat "0"%char (w - length s) ++ s.

(** [n / 10^p] written with [p] decimals. *)
Definition fixed (p : nat) (n : Z) : str :=
  let q := 10 ^ Z.of_nat p in
  nat_chars (n / q) ++
  match p with
  | O => []
  | _ => "."%char :: zfill p (nat_chars (n mod q))
  end.

Definition sign_chars (neg : bool) : str :=
  if neg then ["-"%char] else [].

(** [|x| * 10^p] rounded to an integer, for [x = m * 2^e]. *)
Definition scaled (p : nat) (m : positive) (e : Z) : Z :=
  if 0 <=? e then Zpos m * 2 ^ e * 10 ^ Z.of_nat p
  else round_half_even (Zpos m * 10 ^ Z.of_nat p) (2 ^ (- e)).

(** ['%.pf' % x] *)
Definition str_f (p : nat) (x : float) : str :=
  match Prim2SF x with
  | S754_nan => py "nan"
  | S754_infinity s => sign_chars s ++ py "inf"
  | S754_zero s => sign_chars s ++ fixed p 0
  | S754_finite s m e => sign_chars s ++ fixed p (scaled p m e)
  end.

(** ['%w.pf' % x] *)
Definition fmt_f (w p : nat) (x : float) : str := rjust w (str_f p x).

(** What follows the first decimal point of [s], if there is one. *)
Fixpoint after_point (s : str) : str :=
  match s with
  | [] => []
  | c :: s' => if Ascii.eqb c "."%char then s' else after_point s'
  end.

(** [min(a, b)] and [max(a, b)] on floats: the first argument unless the
    second is strictly smaller (resp. larger). *)
Definition fmin (a b : float) : float := if (b <? a)%float then b else a.
Definition fmax (a b : float) : float := if (a <? b)%float then b else a.

(** What may follow the leading digits of a fixed-point numeral: nothing,
    or a point and digits. *)
Definition numeral_tail (t : str) : Prop :=
  t = [] \/ exists fp, t = "."%char :: fp /\ all_digits fp.

(** *** Binary64 numbers as rationals *)

Definition pow2 (e : Z) : Q := (2 ^ e)%Q.

(** The magnitude [m * 2^e] and the sign of a finite number, and the
    rational number it stands for; the magnitude of a zero is zero (and
    so is, by convention, that of an infinity and of NaN). *)
Definition SFmag (s : spec_float) : Q :=
  match s with
  | S754_finite _ m e => (inject_Z (Z.pos m) * pow2 e)%Q
  | _ => 0%Q
  end.

Definition SFsign (s : spec_float) : bool :=
  match s with
  | S754_zero s | S754_infinity s | S754_finite s _ _ => s
  | S754_nan => false
  end.

Definition SFvalue (s : spec_float) : Q :=
  if SFsign s then (- SFmag s)%Q else SFmag s.

Definition value (x : float) : Q := SFvalue (Prim2SF x).

(** A zero or a finite number of sign [sg]. *)
Definition zero_or_finite (sg : bool) (r : spec_float) : Prop :=
  r = S754_zero sg \/ exists m e, r = S754_finite sg m e.

(** The integer whose digits ['%.3f'] writes for a zero or a finite
    number: its magnitude in thousandths, rounded. *)
Definition thousandths (r : spec_float) : Z :=
  match r with
  | S754_finite _ m e => scaled 3 m e
  | _ => 0
  end.

End Py.

(** ** [parmed/gromacs/gromacsgro.py] *)

Module Gro.
Import Py.

Local Open Scope float_scope.
Local Open Scope Z_scope.

(** The integer constant [10] where a float operand takes it. *)
Definition ten : float := 10%float.

(** *** File objects *)

(** A file object open for reading: the lines not read yet, each with its
    line terminator. *)
Definition fileobj := list str.

(** [f.readline()]: the next line, or the empty string at end of file. *)
Definition readline (f : fileobj) : str * fileobj :=
  match f with
  | [] => ([], [])
  | l :: f' => (l, f')
  end.

(** The lines of a text, as iterating over the file that holds it yields
    them: each line keeps its line feed. *)
Fixpoint lines_from (cur : str) (text : str) : list str :=
  match text with
  | [] => flush cur []
  | c :: t =>
      if Ascii.eqb c nl then List.rev (c :: cur) :: lines_from [] t
      else lines_from (c :: cur) t
  end.

Definition lines (text : str) : fileobj := lines_from [] text.

(** *** The structure, as this module sees it *)

Definition vec3 : Set := float * float * float.

(** The attributes [parse] sets on the [Atom] it creates. *)
Record Atom : Set := mkAtom {
  name : str;
  number : Z;
  xx : float;
  xy : float;
  xz : float;
  velocity : option vec3      (* vx, vy, vz, when set *)
}.

(** One call [struct.add_atom(atom, resname, resnum)]. *)
Record Added : Set := mkAdded {
  atom : Atom;
  resname : str;
  resnum : Z
}.

(** [struct.box]: six numbers, lengths then angles. *)
Record box6 : Set := mkBox {
  box_a : float; box_b : float; box_c : float;
  box_alpha : float; box_beta : float; box_gamma : float
}.

(** What [parse] leaves in [struct.box]: [None], a list of six numbers, or
    [np.array] of either when numpy is importable. *)
Inductive BoxValue : Set :=
| BoxNone
| BoxList (b : box6)
| BoxArray (b : option box6).

(** The structure [parse] returns: the atoms added, in order, and the
    box. *)
Record Parsed : Set := mkParsed {
  added : list Added;
  pbox : BoxValue
}.

(** The attributes [write] reads of an atom of [struct.atoms]. *)
Record Residue : Set := mkResidue {
  res_idx : Z;
  res_name : str
}.

Record SAtom : Set := mkSAtom {
  residue : Residue;
  aname : str;
  idx : Z;
  axx : float;
  axy : float;
  axz : float;
  avel : option vec3          (* vx, vy, vz, when the atom has them *)
}.

Record Structure : Set := mkStructure {
  atoms : list SAtom;
  box : option box6
}.

(** *** [GromacsGroFile.id_format] *)

(** A field of the first atom line, for 1-based field number [i]. *)
Definition probe_field (line : str) (p0 ndeci i : Z) : str :=
  slice line ((p0 - 4) + (5 + ndeci) * (i - 1)) ((p0 - 4) + (5 + ndeci) * i).

(** The inner [try] block of [id_format]; [Ok b] is [return b]. *)
Definition probe_line (line : str) : result bool :=
  _ <- pyint (slice line 0 5) ;;
  match strip (slice line 5 10) with
  | [] => Ok false
  | _ =>
  match strip (slice line 10 15) with
  | [] => Ok false
  | _ =>
    _ <- pyint (slice line 15 20) ;;
    let pdeci := positions "."%char line 0 in
    p1 <- getitem pdeci 1 ;;
    p0 <- getitem pdeci 0 ;;
    let ndeci := p1 - p0 - 5 in
    _ <- pyfloat (probe_field line p0 ndeci 1) ;;
    _ <- pyfloat (probe_field line p0 ndeci 2) ;;
    _ <- pyfloat (probe_field line p0 ndeci 3) ;;
    match strip (probe_field line p0 ndeci 4) with
    | [] => Ok true
    | _ =>
        _ <- pyfloat (probe_field line p0 ndeci 4) ;;
        _ <- pyfloat (probe_field line p0 ndeci 5) ;;
        _ <- pyfloat (probe_field line p0 ndeci 6) ;;
        Ok true
    end
  end
  end.

(** [except ValueError: return False] *)
Definition false_on_ValueError (c : result bool) : result bool :=
  match c with
  | Raise ValueError => Ok false
  | _ => c
  end.

Definition id_format (f : fileobj) : result bool :=
  let (_, f1) := readline f in
  let (count, f2) := readline f1 in
  match pyint (strip count) with
  | Raise ValueError => Ok false
  | Raise e => Raise e
  | Ok _ =>
      let (line, _) := readline f2 in
      false_on_ValueError (probe_line line)
  end.

(** The fourth field group of a line, as [id_format] sees it: blank, or
    the first of three fields that [float] reads. *)
Definition velocities_readable (line : str) : bool :=
  match positions "."%char line 0 with
  | p0 :: p1 :: _ =>
      let ndeci := p1 - p0 - 5 in
      match strip (probe_field line p0 ndeci 4) with
      | [] => true
      | _ =>
          is_ok (pyfloat (probe_field line p0 ndeci 4)) &&
          is_ok (pyfloat (probe_field line p0 ndeci 5)) &&
          is_ok (pyfloat (probe_field line p0 ndeci 6))
      end
  | _ => false
  end.

(** *** [GromacsGroFile.parse] *)

(** The two columns found on the first atom line: [pdeci], the first
    decimal point at or after column 20, and [ndeci], the next one.  The
    source keeps them in the local variables of these names and their
    difference in [digits]. *)
Record Layout : Set := mkLayout {
  pdeci : Z;
  ndeci : Z
}.

Definition digits (l : Layout) : Z := ndeci l - pdeci l.

Definition find_layout (line : str) : result Layout :=
  p <- index line "."%char 20 ;;
  n <- index line "."%char (p + 1) ;;
  Ok (mkLayout p n).

(** [float(line[20+i*digits:20+(i+1)*digits])*10] *)
Definition coord_field (line : str) (l : Layout) (i : Z) : str :=
  slice line (20 + i * digits l) (20 + (i + 1) * digits l).

(** The slice tested before velocities are read ([i = 4]). *)
Definition velocity_probe (line : str) (l : Layout) : str :=
  slice line ((pdeci l - 4) + (5 + ndeci l) * (4 - 1))
             ((pdeci l - 4) + (5 + ndeci l) * 4).

(** [line[(pdeci-3)+(6+ndeci)*i:(pdeci-3)+(6+ndeci)*(i+1)]] *)
Definition velocity_field (line : str) (l : Layout) (i : Z) : str :=
  slice line ((pdeci l - 3) + (6 + ndeci l) * i)
             ((pdeci l - 3) + (6 + ndeci l) * (i + 1)).

Definition times10 (s : str) : result float :=
  x <- pyfloat s ;; Ok (x * ten)%float.

(** The body of the [try] block of the loop: one atom line. *)
Definition decode_atom (lay : option Layout) (line : str)
  : result (Added * Layout) :=
  rnum <- pyint (slice line 0 5) ;;
  let rname := strip (slice line 5 10) in
  let atomname := strip (slice line 10 15) in
  atnum <- pyint (slice line 15 20) ;;
  l <- match lay with
       | Some l => Ok l
       | None => find_layout line
       end ;;
  x <- times10 (coord_field line l 0) ;;
  y <- times10 (coord_field line l 1) ;;
  z <- times10 (coord_field line l 2) ;;
  v <- match strip (velocity_probe line l) with
       | [] => Ok None
       | _ =>
           vx <- times10 (velocity_field line l 3) ;;
           vy <- times10 (velocity_field line l 4) ;;
           vz <- times10 (velocity_field line l 5) ;;
           Ok (Some (vx, vy, vz))
       end ;;
  Ok (mkAdded (mkAtom atomname atnum x y z v) rname rnum, l).

(** [except (ValueError, IndexError): raise GromacsError(...)] *)
Definition as_GromacsError {A} (c : result A) : result A :=
  match c with
  | Raise ValueError | Raise IndexError => Raise GromacsError
  | _ => c
  end.

(** [for i, line in enumerate(fileobj): if i == natom: break ...] from
    index [i] on.  The result holds the atoms added and the last value
    bound to [line] (none if the body never ran); the second component is
    the file object as the loop leaves it. *)
Fixpoint atom_loop (natom i : Z) (lay : option Layout) (last : option str)
    (acc : list Added) (f : fileobj)
  : result (list Added * option str) * fileobj :=
  match f with
  | [] => (Ok (acc, last), [])
  | line :: f' =>
      if i =? natom then (Ok (acc, Some line), f')
      else
        match as_GromacsError (decode_atom lay line) with
        | Raise e => (Raise e, f')
        | Ok (a, l) =>
            atom_loop natom (i + 1) (Some l) (Some line) (acc ++ [a]) f'
        end
  end.

(** The atom records of a block of lines, each decoded in turn with the
    layout found on the first: a reference for what the loop does with the
    lines it takes as atom lines. *)
Fixpoint decode_lines (lay : option Layout) (ls : list str)
  : result (list Added) :=
  match ls with
  | [] => Ok []
  | line :: ls' =>
      match as_GromacsError (decode_atom lay line) with
      | Raise e => Raise e
      | Ok (a, l) => more <- decode_lines (Some l) ls' ;; Ok (a :: more)
      end
  end.

(** [[float(x) for x in tokens]] *)
Fixpoint float_all (tokens : list str) : result (list float) :=
  match tokens with
  | [] => Ok []
  | t :: ts => x <- pyfloat t ;; xs <- float_all ts ;; Ok (x :: xs)
  end.

(** The three vectors handed to [box_vectors_to_lengths_and_angles] for
    a box line of nine values. *)
Definition box9_vectors (b0 b1 b2 b3 b4 b5 b6 b7 b8 : float)
  : vec3 * vec3 * vec3 :=
  ((b0, b3, b4), (b5, b1, b6), (b7, b8, b2)).

(** The reading of the nine numbers that the specification words: the
    file order (v1x, v2x, v2y, v3x, v3y, v3z, v1y, v1z, v2z). *)
Definition claimed_box9_vectors (b0 b1 b2 b3 b4 b5 b6 b7 b8 : float)
  : vec3 * vec3 * vec3 :=
  ((b0, b6, b7), (b1, b2, b8), (b3, b4, b5)).

(** The nine numbers [write] prints for the vectors [a], [b], [c], before
    the division by 10. *)
Definition box9_components (a b c : vec3) : list float :=
  let '(a0, a1, a2) := a in
  let '(b0, b1, b2) := b in
  let '(c0, c1, c2) := c in
  [a0; b1; c2; a1; a2; b0; b2; c0; c1].

Definition ninety : float := 90%float.
Definition five : float := 5%float.

Inductive Dest : Set :=
| Path (filename : str)      (* a string: [genopen(dest, 'w')] *)
| FileLike                   (* an object with a [write] attribute *)
| NotWritable.               (* anything else *)

Section Collaborators.

(** What the module imports and this file does not contain: the geometry
    routines of [parmed.geometry], the constant [TINY] of
    [parmed.constants] and whether [numpy] could be imported.
    [box_vectors_to_lengths_and_angles] stands for the call together with
    its unit conversions: vectors in nanometres in, lengths in angstroms
    and angles in degrees out. *)
Variable box_vectors_to_lengths_and_angles : vec3 -> vec3 -> vec3 -> vec3 * vec3.
Variable box_lengths_and_angles_to_vectors : box6 -> vec3 * vec3 * vec3.
Variable reduce_box_vectors : vec3 -> vec3 -> vec3 -> vec3 * vec3 * vec3.
Variable TINY : float.
Variable numpy : bool.

(** [struct.box] after the [if len(box) == 3 ... elif len(box) == 9 ...]:
    [None] is the value it has had since [Structure()]. *)
Definition box_of_values (box : list float) : option box6 :=
  match box with
  | [b0; b1; b2] =>
      Some (mkBox (b0 * ten) (b1 * ten) (b2 * ten) ninety ninety ninety)
  | [b0; b1; b2; b3; b4; b5; b6; b7; b8] =>
      let '(v1, v2, v3) := box9_vectors b0 b1 b2 b3 b4 b5 b6 b7 b8 in
      let '((a, b, c), (alpha, beta, gamma)) :=
        box_vectors_to_lengths_and_angles v1 v2 v3 in
      Some (mkBox a b c alpha beta gamma)
  | _ => None
  end.

(** The block [if line.strip(): ...] after the loop. *)
Definition box_of_line (line : str) : result BoxValue :=
  match strip line with
  | [] => Ok BoxNone
  | _ =>
      match float_all (split line) with
      | Raise ValueError => Raise GromacsError
      | Raise e => Raise e
      | Ok box =>
          let b := box_of_values box in
          Ok (if numpy then BoxArray b
              else match b with Some v => BoxList v | None => BoxNone end)
      end
  end.

(** [parse] on a file object: the structure or the exception, and the
    file object as [parse] leaves it. *)
Definition parse (f : fileobj) : result Parsed * fileobj :=
  let (_, f1) := readline f in
  let (count, f2) := readline f1 in
  match pyint (strip count) with
  | Raise ValueError => (Raise GromacsError, f2)
  | Raise e => (Raise e, f2)
  | Ok natom =>
      match atom_loop natom 0 None None [] f2 with
      | (Raise e, f3) => (Raise e, f3)
      | (Ok (acc, None), f3) => (Raise UnboundLocalError, f3)
      | (Ok (acc, Some line), f3) =>
          (b <- box_of_line line ;; Ok (mkParsed acc b), f3)
      end
  end.

(** *** [GromacsGroFile.write] *)

(** [(fmt % x)[:varwidth]] for [fmt = '%<varwidth>.<decimals>f'] *)
Definition column (varwidth decimals : nat) (x : float) : str :=
  firstn varwidth (fmt_f varwidth decimals x).

(** The strings handed to [dest.write] for one atom, call by call: the
    four identification fields, the coordinates, the velocities when all
    atoms have them, the line feed. *)
Definition ident_text (a : SAtom) : str :=
  fmt_d 5 (res_idx (residue a) + 1) ++ ljust 5 (res_name (residue a)) ++
  rjust 5 (aname a) ++ fmt_d 5 (idx a + 1).

Definition coordinate_writes (precision : nat) (a : SAtom) : list str :=
  let varwidth := (5 + precision)%nat in
  [column varwidth precision (axx a / ten);
   column varwidth precision (axy a / ten);
   column varwidth precision (axz a / ten)].

Definition velocity_writes (precision : nat) (has_vels : bool) (a : SAtom)
  : list str :=
  let varwidth := (5 + precision)%nat in
  match has_vels, avel a with
  | true, Some (vx, vy, vz) =>
      [column varwidth (precision + 1) (vx / ten);
       column varwidth (precision + 1) (vy / ten);
       column varwidth (precision + 1) (vz / ten)]
  | _, _ => []
  end.

Definition atom_writes (precision : nat) (has_vels : bool) (a : SAtom)
  : list str :=
  ident_text a :: coordinate_writes precision a ++
  velocity_writes precision has_vels a ++ [[nl]].

(** The text written for one atom, line feed included. *)
Definition atom_text (precision : nat) (has_vels : bool) (a : SAtom) : str :=
  concat (atom_writes precision has_vels a).

(** What a column of width [w] written for the value [x] with [d]
    decimals holds: [w] characters, the rendering of [x / 10]
    right-justified when it fits and cut to [w] characters otherwise; the
    rendering of a finite number has [d] decimals. *)
Definition column_of (w d : nat) (x : float) (c : str) : Prop :=
  length c = w /\
  c = (if (length (str_f d (x / ten)) <=? w)%nat
       then rjust w (str_f d (x / ten))
       else firstn w (str_f d (x / ten))) /\
  (is_finite (x / ten) = true ->
   length (after_point (str_f d (x / ten))) = d).

Definition has_velocity (a : SAtom) : bool :=
  match avel a with Some _ => true | None => false end.

(** ['%10.5f'*n % values] *)
Definition box_fields (values : list float) : str :=
  concat (map (fmt_f 10 5) values).

(** One round of the loop over the atoms for one axis:
    [dim[0] = min(dim[0], v); dim[1] = max(dim[1], v)]. *)
Definition widen (dim : float * float) (v : float) : float * float :=
  (fmin (fst dim) v, fmax (snd dim) v).

(** [dim[1] - dim[0]] after the loop, for an axis seeded with the
    coordinates of atoms 0 and 1. *)
Definition extent (seed0 seed1 : float) (vs : list float) : float :=
  let dim := fold_left widen vs (seed0, seed1) in
  (snd dim - fst dim)%float.

Definition near90 (x : float) : bool := (abs (x - ninety) <? TINY)%float.

(** The numbers of the box line, if one is written. *)
Definition box_values (s : Structure) (nobox : bool)
  : result (option (list float)) :=
  match box s with
  | Some bx =>
      let '(v1, v2, v3) := box_lengths_and_angles_to_vectors bx in
      let '(a, b, c) := reduce_box_vectors v1 v2 v3 in
      if forallb near90 [box_alpha bx; box_beta bx; box_gamma bx] then
        Ok (Some [fst (fst a) / ten; snd (fst b) / ten; snd c / ten]%float)
      else Ok (Some (map (fun v => v / ten)%float (box9_components a b c)))
  | None =>
      match nobox, atoms s with
      | false, _ :: _ =>
          a0 <- getitem (atoms s) 0 ;;
          a1 <- getitem (atoms s) 1 ;;
          let side (get : SAtom -> float) :=
            ((extent (get a0) (get a1) (map get (atoms s)) + five) / ten)%float in
          Ok (Some [side axx; side axy; side axz])
      | _, _ => Ok None
      end
  end.

Definition box_text (s : Structure) (nobox : bool) : result str :=
  vs <- box_values s nobox ;;
  match vs with
  | Some values => Ok (box_fields values ++ [nl])
  | None => Ok []
  end.

(** The title line and the line of the atom count. *)
Definition header_text (s : Structure) : str :=
  py "GROningen MAchine for Chemical Simulation" ++ [nl] ++
  fmt_d 5 (Z.of_nat (length (atoms s))) ++ [nl].

(** [write]: how the call ends, and the text the calls of [dest.write]
    have produced by then.  [own_handle] is bound only when [dest] is a
    file name. *)
Definition write (s : Structure) (dest : Dest) (precision : nat)
    (nobox : bool) : result unit * str :=
  match dest with
  | NotWritable => (Raise TypeError, [])
  | _ =>
      let own_handle :=
        match dest with Path _ => Some true | _ => None end in
      let has_vels := forallb has_velocity (atoms s) in
      let body :=
        header_text s ++
        concat (map (atom_text precision has_vels) (atoms s)) in
      match box_text s nobox with
      | Raise e => (Raise e, body)
      | Ok bt =>
          match own_handle with
          | None => (Raise UnboundLocalError, body ++ bt)
          | Some _ => (Ok tt, body ++ bt)
          end
      end
  end.

End Collaborators.

(** *** What [write] must be given for [parse] to read its output *)

(** A name that fills at most five columns and holds no blank. *)
Definition short_name (s : str) : bool :=
  (length s <=? 5)%nat && forallb (fun c => negb (isspace c)) s.

(** An index [i] whose number [i + 1] fills at most five columns. *)
Definition short_index (i : Z) : bool := (0 <=? i) && (i <? 99999).

(** A coordinate whose value in nanometres is finite and is rendered, with
    [precision] decimals, in at most [5 + precision] characters. *)
Definition short_coordinate (precision : nat) (x : float) : bool :=
  is_finite (x / ten) &&
  (length (str_f precision (x / ten)) <=? 5 + precision)%nat.

Definition writable_atom (precision : nat) (a : SAtom) : bool :=
  short_index (res_idx (residue a)) && short_index (idx a) &&
  short_name (res_name (residue a)) && short_name (aname a) &&
  short_coordinate precision (axx a) &&
  short_coordinate precision (axy a) &&
  short_coordinate precision (axz a).

(** Numbers that each leave a blank in front of them in the ten columns
    of a box field. *)
Definition narrow (vs : list float) : bool :=
  forallb (fun v => (length (str_f 5 v) <=? 9)%nat) vs.

(** The numbers of a box line are kept apart: all but the first are
    narrow. *)
Definition separated (values : list float) : bool := narrow (tl values).

(** Half a unit of the third decimal of a nanometre, 0.005 angstrom,
    and 1e-9 angstrom for the binary roundings of the division by ten,
    of the decimal read and of the multiplication by ten. *)
Definition tolerance : Q := (5 # 1000) + (1 # 1000000000).

(** [x'] is a finite number within [tolerance] of [x]. *)
Definition near (x' x : float) : Prop :=
  is_finite x' = true /\ (Qabs (value x' - value x) <= tolerance)%Q.

(** An atom of [parse] and the atom of [struct.atoms] it was written
    from: same names, the numbers one more than the indices, each
    coordinate finite and within [tolerance] angstrom of the original. *)
Definition read_back (a : SAtom) (r : Added) : Prop :=
  name (atom r) = aname a /\
  resname r = res_name (residue a) /\
  number (atom r) = idx a + 1 /\
  resnum r = res_idx (residue a) + 1 /\
  near (xx (atom r)) (axx a) /\
  near (xy (atom r)) (axy a) /\
  near (xz (atom r)) (axz a).

(** A name [id_format] takes for a name and that holds no decimal point:
    not empty, no point. *)
Definition plain_name (s : str) : bool :=
  negb (length s =? 0)%nat &&
  forallb (fun c => negb (Ascii.eqb c "."%char)) s.

End Gro.

(** ** Sample files and structures *)

Module Samples.
Import Py Gro.

(** A line of a file: the text and its line feed. *)
Definition L (s : string) : str := py s ++ [nl].

(** Stand-ins for the geometry routines, for runs that read or write a
    box of three numbers at most and so never call them. *)
Definition any_lengths_and_angles (v1 v2 v3 : vec3) : vec3 * vec3 := (v1, v2).
Definition any_vectors (b : box6) : vec3 * vec3 * vec3 :=
  ((box_a b, box_b b, box_c b), (box_a b, box_b b, box_c b),
   (box_a b, box_b b, box_c b)).
Definition any_reduction (a b c : vec3) : vec3 * vec3 * vec3 := (a, b, c).

(** The end-to-end example: two atoms of one water, a cubic box. *)
Definition water_file : fileobj :=
  [L "Test";
   L "    2";
   L "    1SOL     OW    1   1.000   2.000   3.000";
   L "    1SOL    HW1    2   1.100   2.000   3.000";
   L "   3.00000   3.00000   3.00000"].

(** An atom line with velocities, as GROMACS and [write] lay it out:
    three coordinates of eight columns, three velocities of eight. *)
Definition velocity_line : str :=
  L "    1SOL     OW    1   1.000   2.000   3.000  0.1000  0.2000  0.3000".

(** A file that ends with its last atom line: no box line. *)
Definition boxless_file : fileobj :=
  [L "Test";
   L "    1";
   L "    1SOL     OW    1   1.000   2.000   3.000"].

(** A file whose first atom line holds a single decimal point. *)
Definition one_point_file : fileobj :=
  [L "Test";
   L "    1";
   L "    1SOL     OW    1   1.000"].

(** A file whose first atom line has a blank residue name. *)
Definition unnamed_residue_file : fileobj :=
  [L "Test";
   L "    1";
   L "    1        OW    1   1.000   2.000   3.000";
   L "   3.00000   3.00000   3.00000"].

(** More lines than the count announces. *)
Definition long_file : fileobj :=
  [L "Test";
   L "    1";
   L "    1SOL     OW    1   1.000   2.000   3.000";
   L "   3.00000   3.00000   3.00000";
   L "    1SOL    HW1    2   1.100   2.000   3.000";
   L "not read"].

Definition sol : Residue := mkResidue 0 (py "SOL").

(** Two atoms 10 angstroms apart along x, no box. *)
Definition pair : Structure :=
  mkStructure
    [mkSAtom sol (py "OW") 0 0 0 0 None;
     mkSAtom sol (py "HW1") 1 10 0 0 None]%float
    None.


(** An atom with a velocity of (1, 2, 3) angstroms per picosecond. *)
Definition moving : SAtom :=
  mkSAtom sol (py "OW") 0 10 20 30 (Some (1, 2, 3))%float.

(** An atom line with three numbers far to the right, in columns 135,
    173 and 211, where [parse] looks for velocities. *)
Definition far_velocity_line : str :=
  py "    1SOL     OW    1   1.000   2.000   3.000" ++ spaces 91 ++
  py "0.5" ++ spaces 35 ++ py "1.5" ++ spaces 35 ++ py "2.5" ++ [nl].

(** A trailing line of four numbers. *)
Definition four_numbers : str := L "1.0 2.0 3.0 4.0".

(** One atom with a velocity and no box. *)
Definition lone : Structure := mkStructure [moving] None.

End Samples.

(** * Properties *)

Import Py Gro Samples.

(** ** Facts about the Python run time *)

(** *** Decimal digits *)

Lemma length_uint_chars (d : uint) : length (uint_chars d) = nb_digits d.
Proof. induction d; simpl; congruence. Qed.

Lemma uint_chars_digits (d : uint) :
  Forall (fun c => isdigit c = true) (uint_chars d).
Proof. induction d; simpl; constructor; trivial. Qed.

Lemma chars_uint_chars (d : uint) : chars_uint (uint_chars d) = Some d.
Proof. induction d; simpl; try rewrite IHd; reflexivity. Qed.

Lemma of_uint_acc_lower (d : uint) :
  forall acc,
    Z.pos acc * 10 ^ Z.of_nat (nb_digits d) <= Z.pos (Pos.of_uint_acc d acc).
Proof.
  induction d; intros acc; cbn [Pos.of_uint_acc nb_digits];
    try (rewrite Nat2Z.inj_succ, Z.pow_succ_r by lia;
         etransitivity; [|apply IHd];
         assert (0 <= 10 ^ Z.of_nat (nb_digits d))
           by (apply Z.pow_nonneg; lia);
         nia).
  rewrite Z.pow_0_r. lia.
Qed.

Lemma to_uint_normal (q : positive) : unorm (Pos.to_uint q) = Pos.to_uint q.
Proof.
  rewrite <- DecimalPos.Unsigned.to_of, DecimalPos.Unsigned.of_to.
  reflexivity.
Qed.

Lemma nb_digits_to_uint (q : positive) (p : nat) :
  Z.pos q < 10 ^ Z.of_nat p -> (nb_digits (Pos.to_uint q) <= p)%nat.
Proof.
  intros Hq.
  pose proof (DecimalPos.Unsigned.of_to q) as Hof.
  pose proof (to_uint_normal q) as Hn.
  assert (Hlower : forall l acc, Pos.of_uint_acc l acc = q ->
            (S (nb_digits l) <= p)%nat).
  { intros l acc Hv.
    pose proof (of_uint_acc_lower l acc) as Hl. rewrite Hv in Hl.
    destruct (le_lt_dec (S (nb_digits l)) p) as [|Hlt]; trivial.
    exfalso.
    assert (10 ^ Z.of_nat p <= 10 ^ Z.of_nat (nb_digits l))
      by (apply Z.pow_le_mono_r; lia).
    assert (0 < 10 ^ Z.of_nat (nb_digits l)) by (apply Z.pow_pos_nonneg; lia).
    nia. }
  destruct (Pos.to_uint q) as [|l|l|l|l|l|l|l|l|l|l] eqn:Hd;
    try (simpl in Hof; injection Hof as Hof; simpl; eapply Hlower;
         exact Hof).
  - discriminate.
  - exfalso. unfold unorm in Hn. simpl nzhead in Hn.
    pose proof (DecimalFacts.nb_digits_nzhead l) as Hle.
    destruct (nzhead l) eqn:Hz;
      [injection Hn as <-; simpl in Hof; discriminate
      |rewrite Hn in Hle; simpl in Hle; lia ..].
Qed.

(** A natural number below [10^p] has at most [p] digits. *)
Lemma length_nat_chars (n : Z) (p : nat) :
  (0 < p)%nat -> n < 10 ^ Z.of_nat p -> (length (nat_chars n) <= p)%nat.
Proof.
  intros Hp Hn. unfold nat_chars. rewrite length_uint_chars.
  destruct (Z.to_N n) as [|q] eqn:Hq; simpl.
  - lia.
  - apply nb_digits_to_uint.
    assert (Z.of_N (Z.to_N n) = Z.pos q) by now rewrite Hq.
    lia.
Qed.

Lemma nat_chars_digits (n : Z) :
  Forall (fun c => isdigit c = true) (nat_chars n).
Proof. apply uint_chars_digits. Qed.

Lemma nat_chars_nonempty (n : Z) : nat_chars n <> [].
Proof.
  unfold nat_chars. destruct (Z.to_N n) as [|q]; simpl; [discriminate|].
  intros H. apply (DecimalPos.Unsigned.to_uint_nonnil q).
  destruct (Pos.to_uint q); simpl in H; try discriminate. reflexivity.
Qed.

(** *** Characters of numbers *)

Ltac ascii_cases c :=
  destruct c as [[] [] [] [] [] [] [] []]; try discriminate; try reflexivity.

Lemma digit_solid (c : ascii) : isdigit c = true -> isspace c = false.
Proof. ascii_cases c. Qed.

Lemma digit_not_point (c : ascii) :
  isdigit c = true -> Ascii.eqb c "."%char = false.
Proof. ascii_cases c. Qed.

Lemma digit_not_nl (c : ascii) : isdigit c = true -> Ascii.eqb c nl = false.
Proof. ascii_cases c. Qed.

Lemma split_sign_digit (c : ascii) (r : str) :
  isdigit c = true -> split_sign (c :: r) = (false, c :: r).
Proof. ascii_cases c. Qed.

Lemma digit_not_letter (c : ascii) :
  isdigit c = true ->
  Ascii.eqb (lower c) "i"%char = false /\ Ascii.eqb (lower c) "n"%char = false.
Proof. ascii_cases c; intros _; split; reflexivity. Qed.

Lemma digits_solid (s : str) :
  Forall (fun c => isdigit c = true) s -> solid s.
Proof. apply Forall_impl, digit_solid. Qed.

Lemma digits_no_point (s : str) :
  Forall (fun c => isdigit c = true) s -> no_char "."%char s.
Proof. apply Forall_impl, digit_not_point. Qed.

Lemma solid_no_nl (s : str) : solid s -> no_char nl s.
Proof.
  apply Forall_impl. intros c Hc.
  destruct (Ascii.eqb_spec c nl) as [->|]; [discriminate|reflexivity].
Qed.

Lemma chars_uint_digits (s : str) :
  Forall (fun c => isdigit c = true) s -> exists u, chars_uint s = Some u.
Proof.
  induction 1 as [|c s Hc _ [u IH]]; simpl; [eauto|].
  unfold isdigit in Hc. destruct (digit_of c); [|discriminate].
  rewrite IH. eauto.
Qed.

Lemma digits_value_digits (s : str) :
  Forall (fun c => isdigit c = true) s -> s <> [] ->
  exists n, digits_value s = Some n.
Proof.
  intros H Hne. destruct (chars_uint_digits s H) as [u Hu].
  destruct s; [now elim Hne|]. unfold digits_value. rewrite Hu. eauto.
Qed.

(** *** Justified fields *)

Lemma length_spaces (n : nat) : length (spaces n) = n.
Proof. apply repeat_length. Qed.

Lemma length_rjust (w : nat) (s : str) :
  length (rjust w s) = Nat.max w (length s).
Proof. unfold rjust. rewrite length_app, length_spaces. lia. Qed.

Lemma rjust_wide (w : nat) (s : str) : (w <= length s)%nat -> rjust w s = s.
Proof.
  intros H. unfold rjust. now replace (w - length s)%nat with O by lia.
Qed.

Lemma length_rjust_fits (w : nat) (s : str) :
  (length s <= w)%nat -> length (rjust w s) = w.
Proof. intros H. rewrite length_rjust. lia. Qed.

Lemma length_ljust (w : nat) (s : str) :
  (length s <= w)%nat -> length (ljust w s) = w.
Proof. intros H. unfold ljust. rewrite length_app, length_spaces. lia. Qed.

Lemma length_zfill (p : nat) (s : str) :
  (length s <= p)%nat -> length (zfill p s) = p.
Proof. intros H. unfold zfill. rewrite length_app, repeat_length. lia. Qed.

Lemma blank_spaces (n : nat) : blank (spaces n).
Proof. induction n; simpl; constructor; trivial. Qed.

Lemma no_char_spaces (n : nat) : no_char "."%char (spaces n).
Proof. induction n; simpl; constructor; trivial. Qed.

Lemma spaces_no_nl (n : nat) : no_char nl (spaces n).
Proof. induction n; simpl; constructor; trivial. Qed.

(** *** Blanks and [strip] *)

Lemma lstrip_blank (ws s : str) : blank ws -> lstrip (ws ++ s) = lstrip s.
Proof. induction 1 as [|c ws Hc _ IH]; simpl; [|rewrite Hc]; trivial. Qed.

Lemma lstrip_all_blank (ws : str) : blank ws -> lstrip ws = [].
Proof.
  intros H. rewrite <- (app_nil_r ws). now rewrite lstrip_blank.
Qed.

Lemma lstrip_solid (s t : str) : solid s -> s <> [] -> lstrip (s ++ t) = s ++ t.
Proof.
  intros Hs Hne. destruct Hs as [|c s Hc _]; [now elim Hne|].
  simpl. now rewrite Hc.
Qed.

(** [strip] removes the blanks around a run of non-blank characters. *)
Lemma strip_core (ws1 core ws2 : str) :
  blank ws1 -> solid core -> blank ws2 ->
  strip (ws1 ++ core ++ ws2) = core.
Proof.
  intros H1 Hc H2. unfold strip, rstrip.
  rewrite lstrip_blank by trivial.
  destruct core as [|c core].
  - cbn [app]. rewrite (lstrip_all_blank ws2) by trivial. reflexivity.
  - rewrite lstrip_solid; [|trivial|discriminate].
    rewrite rev_app_distr.
    rewrite lstrip_blank by now apply Forall_rev.
    assert (Hr : solid (List.rev (c :: core))) by now apply Forall_rev.
    rewrite <- (app_nil_r (List.rev (c :: core))).
    rewrite lstrip_solid.
    + now rewrite app_nil_r, rev_involutive.
    + trivial.
    + simpl. now destruct (List.rev core).
Qed.

Lemma strip_blank (ws : str) : blank ws -> strip ws = [].
Proof.
  intros H. unfold strip, rstrip. now rewrite (lstrip_all_blank ws).
Qed.

Lemma strip_ljust (w : nat) (s : str) : solid s -> strip (ljust w s) = s.
Proof.
  intros H. unfold ljust.
  change (s ++ spaces (w - length s)) with ([] ++ s ++ spaces (w - length s)).
  apply strip_core; trivial; [constructor|apply blank_spaces].
Qed.

Lemma strip_rjust (w : nat) (s : str) : solid s -> strip (rjust w s) = s.
Proof.
  intros H. unfold rjust.
  rewrite <- (app_nil_r s) at 2.
  apply strip_core; trivial; [apply blank_spaces|constructor].
Qed.

Lemma blank_skipn (n : nat) (s : str) : blank s -> blank (skipn n s).
Proof.
  intros H. revert n.
  induction H as [|x s Hx Hs IH]; intros [|n]; simpl.
  - constructor.
  - constructor.
  - now constructor.
  - apply IH.
Qed.

Lemma blank_firstn (n : nat) (s : str) : blank s -> blank (firstn n s).
Proof.
  intros H. revert n.
  induction H as [|x s Hx Hs IH]; intros [|n]; simpl.
  - constructor.
  - constructor.
  - constructor.
  - constructor; [trivial|apply IH].
Qed.

(** *** The blanks around a numeral *)

Lemma isspace_c_isspace (c : ascii) : isspace_c c = true -> isspace c = true.
Proof. ascii_cases c. Qed.

Lemma solid_c (s : str) : solid s -> Forall (fun c => isspace_c c = false) s.
Proof.
  apply Forall_impl. intros c Hc.
  destruct (isspace_c c) eqn:E; trivial.
  apply isspace_c_isspace in E. congruence.
Qed.

Lemma cblank_spaces (n : nat) : cblank (spaces n).
Proof. induction n; simpl; constructor; trivial. Qed.

Lemma lstrip_c_blank (ws s : str) :
  cblank ws -> lstrip_c (ws ++ s) = lstrip_c s.
Proof. induction 1 as [|c ws Hc _ IH]; simpl; [|rewrite Hc]; trivial. Qed.

Lemma lstrip_c_solid (s t : str) :
  solid s -> s <> [] -> lstrip_c (s ++ t) = s ++ t.
Proof.
  intros Hs Hne. apply solid_c in Hs.
  destruct Hs as [|c s Hc _]; [now elim Hne|].
  simpl. now rewrite Hc.
Qed.

(** [int] and [float] skip the C blanks around a run of non-blank
    characters. *)
Lemma strip_c_core (ws1 core ws2 : str) :
  cblank ws1 -> solid core -> cblank ws2 ->
  strip_c (ws1 ++ core ++ ws2) = core.
Proof.
  intros H1 Hc H2. unfold strip_c.
  rewrite lstrip_c_blank by trivial.
  destruct core as [|c core].
  - cbn [app]. rewrite <- (app_nil_r ws2), lstrip_c_blank by trivial.
    reflexivity.
  - rewrite lstrip_c_solid; [|trivial|discriminate].
    rewrite rev_app_distr.
    rewrite lstrip_c_blank by now apply Forall_rev.
    assert (Hr : solid (List.rev (c :: core))) by now apply Forall_rev.
    rewrite <- (app_nil_r (List.rev (c :: core))).
    rewrite lstrip_c_solid.
    + now rewrite app_nil_r, rev_involutive.
    + trivial.
    + simpl. now destruct (List.rev core).
Qed.

Lemma strip_c_solid (core : str) : solid core -> strip_c core = core.
Proof.
  intros H. pose proof (strip_c_core [] core []) as E.
  cbn [app] in E. rewrite app_nil_r in E. apply E; trivial; constructor.
Qed.

(** *** Digit groups *)

(** A text without underscore is left as it is. *)
Lemma ungroup_plain (s : str) :
  no_char "_"%char s ->
  forall prev, Ascii.eqb prev "_"%char = false -> ungroup prev s = Some s.
Proof.
  induction 1 as [|c s Hc _ IH]; intros prev Hp; cbn [ungroup].
  - now rewrite Hp.
  - rewrite Hc, Hp. cbn [andb]. now rewrite IH.
Qed.

Lemma digit_plain (c : ascii) :
  isdigit c = true -> Ascii.eqb c "_"%char = false.
Proof. ascii_cases c. Qed.

Lemma digits_plain (s : str) : all_digits s -> no_char "_"%char s.
Proof. apply Forall_impl, digit_plain. Qed.

(** *** Slices *)

Lemma len_app (s t : str) : len (s ++ t) = len s + len t.
Proof. unfold len. rewrite length_app. lia. Qed.

Lemma len_nonneg (s : str) : 0 <= len s.
Proof. unfold len. lia. Qed.

Lemma clamp_inside (n i : Z) : 0 <= i <= n -> clamp n i = i.
Proof.
  intros H. unfold clamp.
  destruct (Z.ltb_spec i 0); lia.
Qed.

Lemma clamp_nonneg (n i : Z) : 0 <= i -> clamp n i = Z.min i n.
Proof. intros H. unfold clamp. destruct (Z.ltb_spec i 0); lia. Qed.

(** The field [mid] of [pre ++ mid ++ post], by its columns. *)
Lemma slice_mid (pre mid post : str) (a b : Z) :
  a = len pre -> b = len pre + len mid ->
  slice (pre ++ mid ++ post) a b = mid.
Proof.
  intros -> ->. unfold slice.
  pose proof (len_nonneg pre). pose proof (len_nonneg mid).
  pose proof (len_nonneg post).
  rewrite !clamp_inside by (rewrite !len_app; lia).
  replace (len pre + len mid - len pre) with (len mid) by lia.
  unfold len. rewrite !Nat2Z.id.
  rewrite skipn_app, skipn_all, Nat.sub_diag. simpl.
  rewrite firstn_app, firstn_all, Nat.sub_diag. simpl.
  apply app_nil_r.
Qed.

(** A slice that starts at or past the end of the line is empty. *)
Lemma slice_beyond (s : str) (a b : Z) :
  len s <= a -> 0 <= b -> slice s a b = [].
Proof.
  intros Ha Hb. unfold slice, clamp. pose proof (len_nonneg s).
  destruct (Z.ltb_spec a 0); [lia|].
  destruct (Z.ltb_spec b 0); [lia|].
  replace (Z.to_nat (Z.min b (len s) - Z.min a (len s))) with O by lia.
  reflexivity.
Qed.

(** A slice taken inside a blank tail is blank. *)
Lemma slice_blank_tail (s : str) (t a b : Z) :
  0 <= t <= a -> blank (skipn (Z.to_nat t) s) -> blank (slice s a b).
Proof.
  intros Ht Hb. unfold slice. apply blank_firstn.
  rewrite (clamp_nonneg _ a) by lia.
  destruct (Z.le_gt_cases t (len s)) as [Hin|Hout].
  - replace (Z.to_nat (Z.min a (len s)))
      with ((Z.to_nat (Z.min a (len s)) - Z.to_nat t) + Z.to_nat t)%nat
      by lia.
    rewrite <- skipn_skipn. now apply blank_skipn.
  - rewrite skipn_all2 by (unfold len in *; lia). constructor.
Qed.

(** *** Searching for a character *)

Lemma find_from_split (c : ascii) (s : str) :
  forall i j,
    find_from c s i = Some j ->
    exists pre post,
      s = pre ++ c :: post /\ no_char c pre /\ j = i + len pre.
Proof.
  induction s as [|x s IH]; intros i j H; simpl in H; [discriminate|].
  destruct (Ascii.eqb_spec x c) as [->|Hx].
  - injection H as <-. exists [], s. repeat split.
    + constructor.
    + unfold len. simpl. lia.
  - destruct (IH _ _ H) as [pre [post [-> [Hpre ->]]]].
    exists (x :: pre), post. repeat split.
    + constructor; trivial. now apply Ascii.eqb_neq.
    + unfold len. simpl length. lia.
Qed.

Lemma find_from_app (c : ascii) (pre post : str) :
  no_char c pre ->
  forall i, find_from c (pre ++ c :: post) i = Some (i + len pre).
Proof.
  induction 1 as [|x pre Hx _ IH]; intros i; simpl.
  - rewrite Ascii.eqb_refl. unfold len. simpl. f_equal. lia.
  - rewrite Hx, IH. unfold len. simpl length. f_equal. lia.
Qed.

Lemma positions_app (c : ascii) (pre post : str) :
  no_char c pre ->
  forall i,
    positions c (pre ++ c :: post) i =
      (i + len pre) :: positions c post (i + len pre + 1).
Proof.
  induction 1 as [|x pre Hx _ IH]; intros i; simpl.
  - rewrite Ascii.eqb_refl. unfold len. simpl.
    now replace (i + 0) with i by lia.
  - rewrite Hx, IH. unfold len. simpl length.
    now replace (i + 1 + Z.of_nat (length pre)) with
      (i + Z.of_nat (S (length pre))) by lia.
Qed.

Lemma positions_head (c : ascii) (s : str) :
  forall i j,
    find_from c s i = Some j -> exists more, positions c s i = j :: more.
Proof.
  intros i j H.
  destruct (find_from_split c s i j H) as [pre [post [-> [Hpre ->]]]].
  rewrite positions_app by trivial. eauto.
Qed.

Lemma no_char_skipn (c : ascii) (n : nat) (s : str) :
  no_char c s -> no_char c (skipn n s).
Proof.
  intros H. revert n.
  induction H as [|x s Hx Hs IH]; intros [|n]; simpl.
  - constructor.
  - constructor.
  - now constructor.
  - apply IH.
Qed.

Lemma no_char_firstn (c : ascii) (n : nat) (s : str) :
  no_char c s -> no_char c (firstn n s).
Proof.
  intros H. revert n.
  induction H as [|x s Hx Hs IH]; intros [|n]; simpl.
  - constructor.
  - constructor.
  - constructor.
  - constructor; [trivial|apply IH].
Qed.

(** [s.index(c, start)] when the first [c] of [s] is at or after
    [start]. *)
Lemma index_app (c : ascii) (pre post : str) (start : Z) :
  no_char c pre -> 0 <= start <= len pre ->
  index (pre ++ c :: post) c start = Ok (len pre).
Proof.
  intros Hpre Hs. unfold index.
  assert (Hlen : len (pre ++ c :: post) = len pre + 1 + len post).
  { unfold len. rewrite length_app. simpl length. lia. }
  assert (0 <= len post) by (unfold len; lia).
  rewrite clamp_inside by lia.
  rewrite skipn_app.
  replace (Z.to_nat start - length pre)%nat with O by (unfold len in *; lia).
  simpl skipn.
  rewrite find_from_app by now apply no_char_skipn.
  f_equal. unfold len in *. rewrite length_skipn. lia.
Qed.

(** [s.index(c, start)] when [start] is just past a given [c]. *)
Lemma index_past (c : ascii) (pre post : str) (n : Z) :
  index (pre ++ c :: post) c (len pre + 1) = Ok n ->
  find_from c post (len pre + 1) = Some n.
Proof.
  unfold index.
  assert (Hlen : len (pre ++ c :: post) = len pre + 1 + len post).
  { unfold len. rewrite length_app. simpl length. lia. }
  assert (0 <= len post) by (unfold len; lia).
  assert (0 <= len pre) by (unfold len; lia).
  rewrite clamp_inside by lia.
  rewrite skipn_app.
  rewrite skipn_all2 by (unfold len; lia).
  replace (Z.to_nat (len pre + 1) - length pre)%nat with 1%nat
    by (unfold len; lia).
  simpl.
  destruct (find_from c post (len pre + 1)); [|discriminate].
  now intros [= ->].
Qed.

Lemma index_from (a b : str) (c : ascii) :
  index (a ++ b) c (len a) =
    match find_from c b (len a) with
    | Some i => Ok i
    | None => Raise ValueError
    end.
Proof.
  unfold index. pose proof (len_nonneg a). pose proof (len_nonneg b).
  rewrite clamp_inside by (rewrite len_app; lia).
  replace (Z.to_nat (len a)) with (length a) by (unfold len; lia).
  now rewrite skipn_app, skipn_all, Nat.sub_diag.
Qed.

Lemma index_bounds (s : str) (c : ascii) (start i : Z) :
  0 <= start -> index s c start = Ok i -> start <= i < len s.
Proof.
  intros Hs. unfold index, clamp.
  destruct (Z.ltb_spec start 0); [lia|].
  destruct (find_from c _ _) as [j|] eqn:Hf; [|discriminate].
  intros [= <-].
  destruct (find_from_split _ _ _ _ Hf) as [pre [post [Hsplit [_ ->]]]].
  apply (f_equal (@length ascii)) in Hsplit.
  rewrite length_skipn, length_app in Hsplit. simpl length in Hsplit.
  unfold len in *. lia.
Qed.

(** *** The tokens of [split] *)

Lemma split_run_solid (tok : str) :
  solid tok ->
  forall cur rest,
    split_run cur (tok ++ rest) = split_run (List.rev tok ++ cur) rest.
Proof.
  induction 1 as [|c tok Hc _ IH]; intros cur rest; [reflexivity|].
  cbn [app split_run]. rewrite Hc, IH. cbn [List.rev].
  now rewrite <- app_assoc.
Qed.

Lemma split_run_blank (ws : str) :
  blank ws -> forall rest, split_run [] (ws ++ rest) = split_run [] rest.
Proof.
  induction 1 as [|c ws Hc _ IH]; intros rest; [reflexivity|].
  cbn [app split_run]. rewrite Hc. cbn [flush]. apply IH.
Qed.

(** A token between blanks is the next element of [split]. *)
Lemma split_token (ws tok : str) (c : ascii) (r : str) :
  blank ws -> solid tok -> tok <> [] -> isspace c = true ->
  split_run [] (ws ++ tok ++ c :: r) = tok :: split_run [] (c :: r).
Proof.
  intros Hws Htok Hne Hc.
  rewrite split_run_blank, split_run_solid by trivial.
  rewrite app_nil_r. cbn [split_run]. rewrite Hc. cbn [flush].
  destruct (List.rev tok) as [|x t] eqn:Hrev.
  - apply (f_equal (@List.rev ascii)) in Hrev.
    rewrite rev_involutive in Hrev. now elim Hne.
  - unfold flush. now rewrite <- Hrev, rev_involutive.
Qed.

(** *** Integers, written and read *)

Lemma str_of_int_cases (n : Z) :
  (exists c r, str_of_int n = c :: r /\ isdigit c = true /\
               Forall (fun c => isdigit c = true) r /\
               digits_value (c :: r) = Some n) \/
  (exists c r, str_of_int n = "-"%char :: c :: r /\
               Forall (fun c => isdigit c = true) (c :: r) /\
               digits_value (c :: r) = Some (- n)).
Proof.
  assert (Hpos : forall q, exists c r,
             uint_chars (Pos.to_uint q) = c :: r /\
             Forall (fun c => isdigit c = true) (c :: r) /\
             digits_value (c :: r) = Some (Z.pos q)).
  { intros q.
    pose proof (uint_chars_digits (Pos.to_uint q)) as Hd.
    pose proof (chars_uint_chars (Pos.to_uint q)) as Hc.
    pose proof (DecimalPos.Unsigned.of_to q) as Hof.
    pose proof (DecimalPos.Unsigned.to_uint_nonnil q) as Hnn.
    destruct (uint_chars (Pos.to_uint q)) as [|c r] eqn:Hu.
    - simpl in Hc. injection Hc as Hc. now elim Hnn.
    - exists c, r. repeat split; trivial.
      unfold digits_value. rewrite Hc. unfold N.of_uint. now rewrite Hof. }
  destruct n as [|q|q]; unfold str_of_int; simpl Z.to_int.
  - left. exists "0"%char, []. repeat split. constructor.
  - left. destruct (Hpos q) as [c [r [-> [Hd Hv]]]].
    exists c, r. inversion Hd; subst. repeat split; trivial.
  - right. destruct (Hpos q) as [c [r [-> [Hd Hv]]]].
    exists c, r. repeat split; trivial.
Qed.

Lemma str_of_int_solid (n : Z) : solid (str_of_int n).
Proof.
  destruct (str_of_int_cases n) as [[c [r [-> [Hc [Hr _]]]]]|[c [r [-> [Hd _]]]]].
  - apply digits_solid. now constructor.
  - constructor; [reflexivity|]. now apply digits_solid.
Qed.

(** [int] reads back what [%d] wrote, whatever C blanks surround it. *)
Lemma pyint_str_of_int (ws1 ws2 : str) (n : Z) :
  cblank ws1 -> cblank ws2 -> pyint (ws1 ++ str_of_int n ++ ws2) = Ok n.
Proof.
  intros H1 H2. unfold pyint.
  rewrite strip_c_core by (trivial; apply str_of_int_solid).
  destruct (str_of_int_cases n) as [[c [r [-> [Hc [Hr Hv]]]]]|[c [r [-> [Hd Hv]]]]].
  - rewrite split_sign_digit by trivial.
    rewrite ungroup_plain by (trivial; apply digits_plain; now constructor).
    now rewrite Hv.
  - cbn [split_sign].
    rewrite ungroup_plain by (trivial; now apply digits_plain).
    rewrite Hv. f_equal. lia.
Qed.

Lemma pyint_fmt_d (w : nat) (n : Z) : pyint (fmt_d w n) = Ok n.
Proof.
  unfold fmt_d, rjust.
  rewrite <- (app_nil_r (str_of_int n)).
  apply pyint_str_of_int; [apply cblank_spaces|constructor].
Qed.

Lemma length_fmt_d5 (n : Z) : 0 < n <= 99999 -> length (fmt_d 5 n) = 5%nat.
Proof.
  intros Hn. unfold fmt_d. rewrite length_rjust.
  destruct n as [|q|q]; try lia.
  unfold str_of_int. cbn [Z.to_int]. rewrite length_uint_chars.
  pose proof (nb_digits_to_uint q 5) as Hq.
  assert (Z.pos q < 10 ^ Z.of_nat 5) by (change (10 ^ Z.of_nat 5) with 100000; lia).
  specialize (Hq H). lia.
Qed.

Lemma fmt_d_no_nl (w : nat) (n : Z) : no_char nl (fmt_d w n).
Proof.
  unfold fmt_d, rjust. apply Forall_app. split.
  - apply spaces_no_nl.
  - apply solid_no_nl, str_of_int_solid.
Qed.

(** *** Floats, written and read *)

(** [round_half_even] gives an integer nearest to the quotient. *)
Lemma round_half_even_nearest (num den : Z) :
  0 < den -> 2 * Z.abs (round_half_even num den * den - num) <= den.
Proof.
  intros Hden. unfold round_half_even.
  pose proof (Z.div_mod num den) as Hdm.
  pose proof (Z.mod_pos_bound num den Hden) as Hmod.
  destruct (Z.compare_spec (2 * (num mod den)) den);
    try destruct (Z.even (num / den)); nia.
Qed.

Lemma after_point_digits (ds frac : str) :
  Forall (fun c => isdigit c = true) ds ->
  after_point (ds ++ "."%char :: frac) = frac.
Proof.
  induction 1 as [|c ds Hc _ IH]; simpl; trivial.
  destruct (Ascii.eqb_spec c "."%char) as [->|_]; [discriminate|exact IH].
Qed.

Lemma after_point_no_point (ds : str) :
  Forall (fun c => isdigit c = true) ds -> after_point ds = [].
Proof.
  induction 1 as [|c ds Hc _ IH]; simpl; trivial.
  destruct (Ascii.eqb_spec c "."%char) as [->|_]; [discriminate|exact IH].
Qed.

Lemma after_point_sign (neg : bool) (s : str) :
  after_point (sign_chars neg ++ s) = after_point s.
Proof. now destruct neg. Qed.

Lemma zfill_digits (p : nat) (s : str) : all_digits s -> all_digits (zfill p s).
Proof.
  intros H. unfold zfill. apply Forall_app. split; trivial.
  induction (p - length s)%nat; simpl; constructor; trivial.
Qed.

(** The two shapes of a fixed-point rendering: digits alone when no
    decimals are asked for, digits, a point and [p] digits otherwise. *)
Lemma fixed_cases (p : nat) (n : Z) :
  exists c ip,
    all_digits (c :: ip) /\
    ((p = O /\ fixed p n = c :: ip) \/
     (exists fp, fixed p n = (c :: ip) ++ "."%char :: fp /\
                 all_digits fp /\ length fp = p /\ p <> O)).
Proof.
  pose proof (nat_chars_digits (n / 10 ^ Z.of_nat p)) as Hd.
  pose proof (nat_chars_nonempty (n / 10 ^ Z.of_nat p)) as Hne.
  unfold fixed.
  destruct (nat_chars (n / 10 ^ Z.of_nat p)) as [|c ip]; [now elim Hne|].
  exists c, ip. split; trivial.
  destruct p as [|p].
  - left. now rewrite app_nil_r.
  - right. exists (zfill (S p) (nat_chars (n mod 10 ^ Z.of_nat (S p)))).
    repeat split.
    + apply zfill_digits, nat_chars_digits.
    + apply length_zfill, length_nat_chars; [lia|].
      apply Z.mod_pos_bound, Z.pow_pos_nonneg; lia.
    + discriminate.
Qed.

(** [n / 10^p] is written with exactly [p] decimals. *)
Lemma fixed_decimals (p : nat) (n : Z) :
  length (after_point (fixed p n)) = p.
Proof.
  unfold fixed. destruct p as [|p].
  - rewrite app_nil_r, after_point_no_point; [reflexivity|].
    apply nat_chars_digits.
  - rewrite after_point_digits by apply nat_chars_digits.
    apply length_zfill, length_nat_chars; [lia|].
    apply Z.mod_pos_bound, Z.pow_pos_nonneg; lia.
Qed.

(** A finite number is a zero or [m * 2^e]. *)
Lemma finite_cases (x : float) :
  is_finite x = true ->
  (exists s, Prim2SF x = S754_zero s) \/
  (exists s m e, Prim2SF x = S754_finite s m e).
Proof.
  unfold is_finite, Prim2SF. intros H.
  destruct (is_nan x); [discriminate|].
  destruct (is_infinity x); [discriminate|].
  destruct (is_zero x); [left; eauto|].
  destruct (Z.frexp x) as [r ex].
  destruct (shr_fexp prec emax _ _ _) as [sh e'].
  destruct (shr_m sh); [left|right|left]; eauto.
Qed.

Lemma str_f_decimals (d : nat) (x : float) :
  is_finite x = true -> length (after_point (str_f d x)) = d.
Proof.
  intros H. unfold str_f.
  destruct (finite_cases x H) as [[s ->]|[s [m [e ->]]]];
    rewrite after_point_sign; apply fixed_decimals.
Qed.

Lemma fixed_solid (p : nat) (n : Z) : solid (fixed p n).
Proof.
  destruct (fixed_cases p n) as [c [ip [Hd [[_ ->]|[fp [-> [Hf _]]]]]]].
  - now apply digits_solid.
  - apply Forall_app. split; [now apply digits_solid|].
    constructor; [reflexivity|now apply digits_solid].
Qed.

Lemma sign_solid (neg : bool) (s : str) : solid s -> solid (sign_chars neg ++ s).
Proof. destruct neg; simpl; trivial. now constructor. Qed.

Lemma str_f_solid (d : nat) (x : float) : solid (str_f d x).
Proof.
  unfold str_f. destruct (Prim2SF x) as [s|s| |s m e].
  - apply sign_solid, fixed_solid.
  - apply sign_solid. repeat constructor.
  - repeat constructor.
  - apply sign_solid, fixed_solid.
Qed.

Lemma str_f_nonempty (d : nat) (x : float) : str_f d x <> [].
Proof.
  assert (Hfix : forall sg n, sign_chars sg ++ fixed d n <> []).
  { intros sg n. destruct (fixed_cases d n) as [c [ip [_ [[_ ->]|[fp [-> _]]]]]];
      destruct sg; discriminate. }
  unfold str_f. destruct (Prim2SF x) as [sg|sg| |sg m e]; trivial.
  - destruct sg; discriminate.
  - discriminate.
Qed.

Lemma fmt_f_no_nl (w d : nat) (x : float) : no_char nl (fmt_f w d x).
Proof.
  unfold fmt_f, rjust. apply Forall_app. split.
  - apply spaces_no_nl.
  - apply solid_no_nl, str_f_solid.
Qed.

Lemma span_digits_all (ds : str) : all_digits ds -> span_digits ds = (ds, []).
Proof.
  induction 1 as [|c ds Hc _ IH]; simpl; trivial. now rewrite Hc, IH.
Qed.

Lemma span_digits_point (ds r : str) :
  all_digits ds -> span_digits (ds ++ "."%char :: r) = (ds, "."%char :: r).
Proof.
  induction 1 as [|c ds Hc _ IH]; simpl; trivial. now rewrite Hc, IH.
Qed.

Lemma float_of_numeral_fixed (neg : bool) (p : nat) (n : Z) :
  exists y, float_of_numeral neg (fixed p n) = Ok y.
Proof.
  destruct (fixed_cases p n) as [c [ip [Hd [[_ ->]|[fp [-> [Hf _]]]]]]];
    unfold float_of_numeral.
  - rewrite span_digits_all by trivial. rewrite app_nil_r.
    destruct (digits_value_digits (c :: ip) Hd) as [m ->]; [discriminate|].
    eauto.
  - rewrite span_digits_point by trivial.
    rewrite span_digits_all by trivial.
    destruct (digits_value_digits ((c :: ip) ++ fp)) as [m ->].
    + now apply Forall_app.
    + discriminate.
    + eauto.
Qed.

Lemma pyfloat_signed_fixed (neg : bool) (p : nat) (n : Z) :
  exists y, float_of_text (sign_chars neg ++ fixed p n) = Ok y.
Proof.
  unfold float_of_text.
  assert (Hsplit : split_sign (sign_chars neg ++ fixed p n) = (neg, fixed p n)).
  { destruct (fixed_cases p n) as [c [ip [Hd [[_ ->]|[fp [-> _]]]]]];
      inversion Hd; subst; destruct neg; cbn [sign_chars app split_sign];
      trivial; now apply split_sign_digit. }
  rewrite Hsplit.
  assert (Hhead : exists c r, fixed p n = c :: r /\ isdigit c = true).
  { destruct (fixed_cases p n) as [c [ip [Hd [[_ ->]|[fp [-> _]]]]]];
      inversion Hd; subst; simpl; eauto. }
  destruct Hhead as [c [r [Hfix Hc]]].
  destruct (digit_not_letter c Hc) as [Hi Hn].
  cbv zeta.
  replace (str_eqb (map lower (fixed p n)) (py "inf")) with false
    by (rewrite Hfix; cbn [map py list_ascii_of_string str_eqb];
        now rewrite Hi).
  replace (str_eqb (map lower (fixed p n)) (py "infinity")) with false
    by (rewrite Hfix; cbn [map py list_ascii_of_string str_eqb];
        now rewrite Hi).
  replace (str_eqb (map lower (fixed p n)) (py "nan")) with false
    by (rewrite Hfix; cbn [map py list_ascii_of_string str_eqb];
        now rewrite Hn).
  cbn [orb]. apply float_of_numeral_fixed.
Qed.

(** [float] reads every rendering [%.pf] produces, whatever blanks
    surround it. *)
Lemma fixed_plain (p : nat) (n : Z) : no_char "_"%char (fixed p n).
Proof.
  destruct (fixed_cases p n) as [c [ip [Hd [[_ ->]|[fp [-> [Hf _]]]]]]].
  - now apply digits_plain.
  - apply Forall_app. split; [now apply digits_plain|].
    constructor; [reflexivity|now apply digits_plain].
Qed.

Lemma str_f_plain (d : nat) (x : float) : no_char "_"%char (str_f d x).
Proof.
  assert (Hs : forall sg t, no_char "_"%char t ->
                 no_char "_"%char (sign_chars sg ++ t)).
  { intros [|] t Ht; cbn [sign_chars app]; trivial. now constructor. }
  unfold str_f. destruct (Prim2SF x) as [s|s| |s m e].
  - apply Hs, fixed_plain.
  - apply Hs. repeat constructor.
  - repeat constructor.
  - apply Hs, fixed_plain.
Qed.

Lemma pyfloat_str_f (ws1 ws2 : str) (d : nat) (x : float) :
  cblank ws1 -> cblank ws2 ->
  exists y, pyfloat (ws1 ++ str_f d x ++ ws2) = Ok y.
Proof.
  intros H1 H2. unfold pyfloat.
  rewrite strip_c_core by (trivial; apply str_f_solid).
  rewrite ungroup_plain by (trivial; apply str_f_plain).
  unfold str_f. destruct (Prim2SF x) as [s|s| |s m e].
  - apply pyfloat_signed_fixed.
  - destruct s; vm_compute; eauto.
  - vm_compute; eauto.
  - apply pyfloat_signed_fixed.
Qed.

(** *** How the built-ins end *)

Lemma is_ok_inv {A} (c : result A) : is_ok c = true -> exists a, c = Ok a.
Proof. destruct c; [eauto|discriminate]. Qed.

Lemma pyint_raises (s : str) (e : exn) : pyint s = Raise e -> e = ValueError.
Proof.
  unfold pyint. destruct (split_sign (strip_c s)) as [neg ds].
  destruct (ungroup nul ds) as [ds'|]; [|now intros [= <-]].
  destruct (digits_value ds'); [discriminate|]. now intros [= <-].
Qed.

Lemma float_of_numeral_raises (neg : bool) (s : str) (e : exn) :
  float_of_numeral neg s = Raise e -> e = ValueError.
Proof.
  unfold float_of_numeral.
  destruct (span_digits s) as [ip r1].
  destruct (match r1 with
            | "."%char :: r => span_digits r
            | _ => ([], r1)
            end) as [fp r2].
  destruct (digits_value (ip ++ fp)); [|now intros [= <-]].
  destruct r2 as [|c r3]; [discriminate|].
  destruct (Ascii.eqb (lower c) "e"%char); [|now intros [= <-]].
  destruct (split_sign r3) as [eneg eds].
  destruct (digits_value eds); [discriminate|now intros [= <-]].
Qed.

Lemma pyfloat_raises (s : str) (e : exn) : pyfloat s = Raise e -> e = ValueError.
Proof.
  unfold pyfloat.
  destruct (ungroup nul (strip_c s)) as [t|]; [|now intros [= <-]].
  unfold float_of_text. destruct (split_sign t) as [neg body].
  destruct (_ || _); [discriminate|].
  destruct (str_eqb _ _); [discriminate|].
  apply float_of_numeral_raises.
Qed.

Lemma getitem_raises {A} (l : list A) (i : nat) (e : exn) :
  getitem l i = Raise e -> e = IndexError.
Proof. unfold getitem. destruct (nth_error l i); [discriminate|]. now intros [= <-]. Qed.

Ltac raises_step H :=
  match type of H with
  | bind ?c _ = Raise _ =>
      let E := fresh "E" in
      destruct c eqn:E; cbn [bind] in H;
      [|injection H as <-;
        first [ apply pyint_raises in E | apply pyfloat_raises in E
              | apply getitem_raises in E ];
        auto]
  end.

(** ** The sniffer *)

Lemma probe_line_raises (line : str) (e : exn) :
  probe_line line = Raise e -> e = ValueError \/ e = IndexError.
Proof.
  unfold probe_line. intros H.
  raises_step H.
  destruct (strip (slice line 5 10)); [discriminate|].
  destruct (strip (slice line 10 15)); [discriminate|].
  do 6 raises_step H.
  destruct (strip (probe_field line _ _ 4)); [discriminate|].
  do 3 raises_step H.
  discriminate.
Qed.

(** C8, at the failing input: on a file whose first atom line has valid
    identification fields and a single decimal point, [id_format] does
    not return: [pdeci[1]] raises [IndexError], which the handler for
    [ValueError] lets through. *)
Theorem id_format_one_point_raises :
  id_format one_point_file = Raise IndexError.
Proof. vm_compute. reflexivity. Qed.

(** [id_format] returns a boolean or raises [IndexError]; it raises
    nothing else. *)
Theorem id_format_outcomes :
  forall f, (exists b, id_format f = Ok b) \/ id_format f = Raise IndexError.
Proof.
  intros f. unfold id_format.
  destruct (readline f) as [t f1]. destruct (readline f1) as [count f2].
  destruct (pyint (strip count)) as [natom|e] eqn:Hc.
  - destruct (readline f2) as [line f3].
    destruct (probe_line line) as [b|e] eqn:Hp;
      [left; eexists; reflexivity|].
    destruct (probe_line_raises line e Hp) as [-> | ->];
      [left; eexists; reflexivity|now right].
  - apply pyint_raises in Hc. subst e. left. eexists. reflexivity.
Qed.

(** [id_format] returns [False] on a file of fewer than three lines and
    on a file whose second line is not an integer. *)
Theorem id_format_short_file :
  (forall f, (length f < 3)%nat -> id_format f = Ok false) /\
  (forall title count rest e,
      pyint (strip count) = Raise e ->
      id_format (title :: count :: rest) = Ok false).
Proof.
  assert (Hcount : forall title count rest e,
             pyint (strip count) = Raise e ->
             id_format (title :: count :: rest) = Ok false).
  { intros title count rest e H. unfold id_format. cbn [readline].
    rewrite H. apply pyint_raises in H. now subst e. }
  split; [|exact Hcount].
  intros [|t [|count [|line f]]] Hlen; try reflexivity.
  - unfold id_format. cbn [readline].
    destruct (pyint (strip count)) as [natom|e] eqn:Hc; [reflexivity|].
    apply pyint_raises in Hc. now subst e.
  - simpl in Hlen. lia.
Qed.

(** On a file of two lines, and on a file whose count line reads
    [two atoms]. *)
Lemma id_format_short_file_witness :
  id_format [L "Test"; L "    2"] = Ok false /\
  id_format [L "Test"; L "two atoms"; L "    1SOL     OW    1   1.000"] =
    Ok false.
Proof.
  destruct id_format_short_file as [Hshort Hcount]. split.
  - apply Hshort. simpl. lia.
  - apply (Hcount _ _ _ ValueError). vm_compute. reflexivity.
Defined.

(** *** When the sniffer raises *)

(** [id_format] raises [IndexError] exactly when the second line is an
    integer and the third line has integers in columns 0 to 5 and 15 to
    20, non-blank names in columns 5 to 10 and 10 to 15, and fewer than
    two decimal points. *)
Theorem id_format_IndexError_iff :
  forall f,
    id_format f = Raise IndexError <->
    is_ok (pyint (strip (nth 1 f []))) = true /\
    is_ok (pyint (slice (nth 2 f []) 0 5)) = true /\
    strip (slice (nth 2 f []) 5 10) <> [] /\
    strip (slice (nth 2 f []) 10 15) <> [] /\
    is_ok (pyint (slice (nth 2 f []) 15 20)) = true /\
    (length (positions "."%char (nth 2 f []) 0) < 2)%nat.
Proof.
  intros f.
  assert (Hcount : fst (readline (snd (readline f))) = nth 1 f []).
  { destruct f as [|t [|c f2]]; reflexivity. }
  assert (Hline : fst (readline (snd (readline (snd (readline f))))) =
                  nth 2 f []).
  { destruct f as [|t [|c [|l f3]]]; reflexivity. }
  unfold id_format.
  destruct (readline f) as [t f1]. cbn [snd] in Hcount, Hline.
  destruct (readline f1) as [count f2]. cbn [fst snd] in Hcount, Hline.
  destruct (readline f2) as [line f3]. cbn [fst] in Hline.
  subst count line. set (line := nth 2 f []).
  destruct (pyint (strip (nth 1 f []))) as [natom|e] eqn:Hc.
  2:{ apply pyint_raises in Hc. subst e.
      split; [discriminate|]. intros [H _]. discriminate. }
  unfold probe_line.
  destruct (pyint (slice line 0 5)) as [rnum|e] eqn:Hr; cbn [bind].
  2:{ apply pyint_raises in Hr. subst e.
      split; [discriminate|]. intros [_ [H _]]. discriminate. }
  destruct (strip (slice line 5 10)) as [|c1 r1].
  { split; [discriminate|]. intros [_ [_ [H _]]]. now elim H. }
  destruct (strip (slice line 10 15)) as [|c2 r2].
  { split; [discriminate|]. intros [_ [_ [_ [H _]]]]. now elim H. }
  destruct (pyint (slice line 15 20)) as [atnum|e] eqn:Ha; cbn [bind].
  2:{ apply pyint_raises in Ha. subst e.
      split; [discriminate|]. intros [_ [_ [_ [_ [H _]]]]]. discriminate. }
  destruct (positions "."%char line 0) as [|p0 [|p1 more]];
    cbn [getitem nth_error bind length].
  - split; [|reflexivity]. intros _. repeat split; try discriminate. lia.
  - split; [|reflexivity]. intros _. repeat split; try discriminate. lia.
  - split; [|intros [_ [_ [_ [_ [_ H]]]]]; lia].
    intros H. exfalso.
    assert (Hv : forall (s : str) (k : float -> result bool),
               (forall x e, k x = Raise e -> e = ValueError) ->
               forall e, bind (pyfloat s) k = Raise e -> e = ValueError).
    { intros s k Hk e E. destruct (pyfloat s) as [x|e'] eqn:Ec;
        cbn [bind] in E.
      - now apply Hk in E.
      - injection E as <-. now apply pyfloat_raises in Ec. }
    match type of H with
    | false_on_ValueError ?c = _ =>
        assert (Hraise : forall e, c = Raise e -> e = ValueError)
    end.
    { apply Hv. intros _. apply Hv. intros _. apply Hv. intros _ e.
      destruct (strip (probe_field line p0 (p1 - p0 - 5) 4));
        [discriminate|].
      revert e. apply Hv. intros _. apply Hv. intros _. apply Hv.
      intros _ e. discriminate. }
    match type of H with
    | false_on_ValueError ?c = _ => destruct c as [b|e] eqn:Ec
    end.
    + discriminate.
    + pose proof (Hraise e eq_refl) as ->. discriminate.
Qed.

(** On a file whose first atom line holds no decimal point. *)
Lemma id_format_IndexError_iff_witness :
  id_format [L "Test"; L "    1"; L "    1SOL     OW    1"] =
    Raise IndexError.
Proof.
  apply (id_format_IndexError_iff
           [L "Test"; L "    1"; L "    1SOL     OW    1"]).
  repeat split; try (vm_compute; reflexivity); try (vm_compute; discriminate).
  vm_compute. lia.
Defined.

(** ** Reading *)

(** *** One atom line *)

Lemma as_GromacsError_ok {A} (c : result A) (a : A) :
  as_GromacsError c = Ok a -> c = Ok a.
Proof. destruct c as [x|[]]; simpl; congruence. Qed.

Lemma times10_ok (s : str) (x : float) :
  times10 s = Ok x -> is_ok (pyfloat s) = true.
Proof. unfold times10. now destruct (pyfloat s). Qed.

Lemma decode_atom_inv (line : str) (a : Added) (l : Layout) :
  decode_atom None line = Ok (a, l) ->
  is_ok (pyint (slice line 0 5)) = true /\
  is_ok (pyint (slice line 15 20)) = true /\
  find_layout line = Ok l /\
  is_ok (pyfloat (coord_field line l 0)) = true /\
  is_ok (pyfloat (coord_field line l 1)) = true /\
  is_ok (pyfloat (coord_field line l 2)) = true /\
  resname a = strip (slice line 5 10) /\
  name (atom a) = strip (slice line 10 15).
Proof.
  unfold decode_atom. intros H.
  destruct (pyint (slice line 0 5)) as [rnum|]; [|discriminate].
  destruct (pyint (slice line 15 20)) as [atnum|]; [|discriminate].
  cbn [bind] in H.
  destruct (find_layout line) as [l'|]; [|discriminate].
  cbn [bind] in H.
  destruct (times10 (coord_field line l' 0)) as [x|] eqn:Hx; [|discriminate].
  destruct (times10 (coord_field line l' 1)) as [y|] eqn:Hy; [|discriminate].
  destruct (times10 (coord_field line l' 2)) as [z|] eqn:Hz; [|discriminate].
  cbn [bind] in H.
  match type of H with
  | bind ?v _ = _ => destruct v as [vel|]; [|discriminate]
  end.
  cbn [bind] in H. injection H as <- <-.
  apply times10_ok in Hx, Hy, Hz. repeat split; trivial.
Qed.

(** A blank slice where velocities are looked for leaves the atom without
    velocity. *)
Lemma decode_atom_blank_probe (lay : option Layout) (line : str)
    (a : Added) (l : Layout) :
  decode_atom lay line = Ok (a, l) ->
  strip (velocity_probe line l) = [] ->
  velocity (atom a) = None.
Proof.
  unfold decode_atom. intros H.
  destruct (pyint (slice line 0 5)) as [rnum|]; [|discriminate].
  destruct (pyint (slice line 15 20)) as [atnum|]; [|discriminate].
  cbn [bind] in H.
  destruct (match lay with Some l0 => Ok l0 | None => find_layout line end)
    as [l'|]; [|discriminate].
  cbn [bind] in H.
  destruct (times10 (coord_field line l' 0)) as [x|]; [|discriminate].
  destruct (times10 (coord_field line l' 1)) as [y|]; [|discriminate].
  destruct (times10 (coord_field line l' 2)) as [z|]; [|discriminate].
  cbn [bind] in H.
  destruct (strip (velocity_probe line l')) as [|c r] eqn:Hprobe.
  - cbn [bind] in H. now injection H as <- <-.
  - match type of H with
    | bind ?v _ = _ => destruct v as [vel|]; [|discriminate]
    end.
    cbn [bind] in H. injection H as <- <-. congruence.
Qed.

(** What [parse] does about velocities on a line it decodes.  The two
    columns [pdeci] and [ndeci] are those of the first decimal point at or
    after column 20 and of the next one on the first atom line, and stay
    as they are on the later lines.  The atom has no velocity when
    [line[(pdeci-4)+(5+ndeci)*3:(pdeci-4)+(5+ndeci)*4]] is blank;
    otherwise it has three components, each ten times the number [float]
    reads from [line[(pdeci-3)+(6+ndeci)*i:(pdeci-3)+(6+ndeci)*(i+1)]],
    [i] = 3, 4, 5. *)
Theorem decode_atom_velocity :
  forall lay line a l,
    decode_atom lay line = Ok (a, l) ->
    match lay with
    | None =>
        index line "."%char 20 = Ok (pdeci l) /\
        index line "."%char (pdeci l + 1) = Ok (ndeci l)
    | Some l0 => l = l0
    end /\
    match strip (slice line ((pdeci l - 4) + (5 + ndeci l) * 3)
                            ((pdeci l - 4) + (5 + ndeci l) * 4)) with
    | [] => velocity (atom a) = None
    | _ =>
        exists vx vy vz,
          pyfloat (slice line ((pdeci l - 3) + (6 + ndeci l) * 3)
                              ((pdeci l - 3) + (6 + ndeci l) * 4)) = Ok vx /\
          pyfloat (slice line ((pdeci l - 3) + (6 + ndeci l) * 4)
                              ((pdeci l - 3) + (6 + ndeci l) * 5)) = Ok vy /\
          pyfloat (slice line ((pdeci l - 3) + (6 + ndeci l) * 5)
                              ((pdeci l - 3) + (6 + ndeci l) * 6)) = Ok vz /\
          velocity (atom a) = Some (vx * ten, vy * ten, vz * ten)%float
    end.
Proof.
  intros lay line a l. unfold decode_atom. intros H.
  destruct (pyint (slice line 0 5)) as [rnum|]; [|discriminate].
  destruct (pyint (slice line 15 20)) as [atnum|]; [|discriminate].
  cbn [bind] in H.
  destruct (match lay with Some l0 => Ok l0 | None => find_layout line end)
    as [l'|] eqn:Hlay; [|discriminate].
  cbn [bind] in H.
  destruct (times10 (coord_field line l' 0)) as [x|]; [|discriminate].
  destruct (times10 (coord_field line l' 1)) as [y|]; [|discriminate].
  destruct (times10 (coord_field line l' 2)) as [z|]; [|discriminate].
  cbn [bind] in H.
  assert (Hl : (a, l) = (a, l') -> l = l') by congruence.
  unfold velocity_probe, velocity_field, times10 in H.
  change (4 - 1) with 3 in H. change (3 + 1) with 4 in H.
  change (4 + 1) with 5 in H. change (5 + 1) with 6 in H.
  assert (Hfound :
            match lay with
            | None =>
                index line "."%char 20 = Ok (pdeci l') /\
                index line "."%char (pdeci l' + 1) = Ok (ndeci l')
            | Some l0 => l' = l0
            end).
  { destruct lay as [l0|]; [congruence|].
    unfold find_layout in Hlay.
    destruct (index line "."%char 20) as [p|]; [|discriminate].
    cbn [bind] in Hlay.
    destruct (index line "."%char (p + 1)) as [n|] eqn:Hn; [|discriminate].
    cbn [bind] in Hlay. injection Hlay as <-. cbn [pdeci ndeci].
    now split. }
  destruct (strip (slice line ((pdeci l' - 4) + (5 + ndeci l') * 3)
                              ((pdeci l' - 4) + (5 + ndeci l') * 4)))
    as [|c r] eqn:Hprobe.
  - cbn [bind] in H. injection H as <- <-. rewrite Hprobe. now split.
  - destruct (pyfloat (slice line ((pdeci l' - 3) + (6 + ndeci l') * 3)
                                  ((pdeci l' - 3) + (6 + ndeci l') * 4)))
      as [vx|] eqn:H3; [|discriminate].
    destruct (pyfloat (slice line ((pdeci l' - 3) + (6 + ndeci l') * 4)
                                  ((pdeci l' - 3) + (6 + ndeci l') * 5)))
      as [vy|] eqn:H4; [|discriminate].
    destruct (pyfloat (slice line ((pdeci l' - 3) + (6 + ndeci l') * 5)
                                  ((pdeci l' - 3) + (6 + ndeci l') * 6)))
      as [vz|] eqn:H5; [|discriminate].
    cbn [bind] in H. injection H as <- <-. rewrite Hprobe.
    split; [trivial|]. now exists vx, vy, vz.
Qed.

(** On a line whose columns 131 to 168 are not blank: the numbers in
    columns 135, 173 and 211 become the velocity, times ten. *)
Lemma decode_atom_velocity_witness :
  velocity
    (atom (mkAdded (mkAtom (py "OW") 1 10 20 30 (Some (5, 15, 25)%float))
                   (py "SOL") 1)) =
    Some (0.5 * ten, 1.5 * ten, 2.5 * ten)%float.
Proof.
  destruct (decode_atom_velocity None far_velocity_line
              (mkAdded (mkAtom (py "OW") 1 10 20 30 (Some (5, 15, 25)%float))
                       (py "SOL") 1)
              (mkLayout 24 32)) as [_ H].
  - vm_compute. reflexivity.
  - cbn [pdeci ndeci] in H.
    replace (strip (slice far_velocity_line (24 - 4 + (5 + 32) * 3)
                          (24 - 4 + (5 + 32) * 4)))
      with (py "0.5") in H by (vm_compute; reflexivity).
    cbn [py list_ascii_of_string] in H.
    destruct H as [vx [vy [vz [H3 [H4 [H5 H]]]]]].
    replace vx with 0.5%float in H
      by (vm_compute in H3; now injection H3).
    replace vy with 1.5%float in H
      by (vm_compute in H4; now injection H4).
    replace vz with 2.5%float in H
      by (vm_compute in H5; now injection H5).
    exact H.
Defined.

(** C1, at the failing input: the fourth group of eight columns of a
    standard line with velocities is not blank, the line decodes, and the
    atom has no velocity.  The slice [parse] tests lies at columns 131 to
    168, far to the right of the line. *)
Theorem decode_atom_drops_velocity :
  strip (slice velocity_line 44 52) = py "0.1000" /\
  decode_atom None velocity_line =
    Ok (mkAdded (mkAtom (py "OW") 1 10 20 30 None) (py "SOL") 1,
        mkLayout 24 32) /\
  velocity_probe velocity_line (mkLayout 24 32) = [].
Proof. vm_compute. repeat split. Qed.

(** When everything after the third coordinate field of the first atom
    line is blank, the atom has no velocity. *)
Theorem blank_tail_no_velocity :
  forall line a l,
    decode_atom None line = Ok (a, l) ->
    blank (skipn (Z.to_nat (20 + 3 * digits l)) line) ->
    velocity (atom a) = None.
Proof.
  intros line a l Hdec Hblank.
  destruct (decode_atom_inv line a l Hdec) as [_ [_ [Hlay _]]].
  unfold find_layout in Hlay.
  destruct (index line "."%char 20) as [p|] eqn:Hp; [|discriminate].
  cbn [bind] in Hlay.
  destruct (index line "."%char (p + 1)) as [n|] eqn:Hn; [|discriminate].
  cbn [bind] in Hlay. injection Hlay as <-.
  apply index_bounds in Hp; [|lia].
  apply index_bounds in Hn; [|lia].
  unfold digits in Hblank. cbn [pdeci ndeci] in Hblank.
  apply (decode_atom_blank_probe None line a _ Hdec).
  apply strip_blank.
  unfold velocity_probe. cbn [pdeci ndeci].
  apply (slice_blank_tail line (20 + 3 * (n - p))); [lia|exact Hblank].
Qed.

(** On the first atom line of the sample file, which ends at column 44. *)
Lemma blank_tail_no_velocity_witness :
  skipn 44 (L "    1SOL     OW    1   1.000   2.000   3.000") = [nl] /\
  velocity (atom (mkAdded (mkAtom (py "OW") 1 10 20 30 None) (py "SOL") 1)) =
    None.
Proof.
  split; [vm_compute; reflexivity|].
  apply (blank_tail_no_velocity
           (L "    1SOL     OW    1   1.000   2.000   3.000") _
           (mkLayout 24 32)).
  - vm_compute. reflexivity.
  - vm_compute. repeat constructor.
Defined.

(** *** The loop over the atom lines *)

Lemma atom_loop_block :
  forall alines natom i lay last acc boxline rest adds,
    natom = i + Z.of_nat (length alines) ->
    decode_lines lay alines = Ok adds ->
    atom_loop natom i lay last acc (alines ++ boxline :: rest) =
      (Ok (acc ++ adds, Some boxline), rest).
Proof.
  induction alines as [|line alines IH];
    intros natom i lay last acc boxline rest adds Hn Hd; simpl in *.
  - replace (i =? natom) with true by (symmetry; apply Z.eqb_eq; lia).
    injection Hd as <-. now rewrite app_nil_r.
  - replace (i =? natom) with false by (symmetry; apply Z.eqb_neq; lia).
    destruct (as_GromacsError (decode_atom lay line)) as [[a l]|e];
      [|discriminate].
    destruct (decode_lines (Some l) alines) as [more|e] eqn:Hmore;
      [|discriminate].
    injection Hd as <-.
    rewrite (IH natom (i + 1) (Some l) (Some line) (acc ++ [a])
               boxline rest more) by (trivial; lia).
    now rewrite <- app_assoc.
Qed.

Lemma atom_loop_block_raises :
  forall alines natom i lay last acc boxline rest e,
    natom = i + Z.of_nat (length alines) ->
    decode_lines lay alines = Raise e ->
    fst (atom_loop natom i lay last acc (alines ++ boxline :: rest)) =
      Raise e.
Proof.
  induction alines as [|line alines IH];
    intros natom i lay last acc boxline rest e Hn Hd; simpl in *.
  - discriminate.
  - replace (i =? natom) with false by (symmetry; apply Z.eqb_neq; lia).
    destruct (as_GromacsError (decode_atom lay line)) as [[a l]|e'].
    + destruct (decode_lines (Some l) alines) as [more|e''] eqn:Hmore;
        [discriminate|].
      injection Hd as <-.
      apply (IH natom (i + 1)); trivial; lia.
    + now injection Hd as <-.
Qed.

(** The loop only appends to the atoms it has. *)
Lemma atom_loop_extends (natom : Z) (f : fileobj) :
  forall i lay last acc acc' last' f',
    atom_loop natom i lay last acc f = (Ok (acc', last'), f') ->
    exists more, acc' = acc ++ more.
Proof.
  induction f as [|line f IH]; intros i lay last acc acc' last' f' H;
    simpl in H.
  - injection H as <- _ _. exists []. now rewrite app_nil_r.
  - destruct (i =? natom).
    + injection H as <- _ _. exists []. now rewrite app_nil_r.
    + destruct (as_GromacsError (decode_atom lay line)) as [[a l]|e];
        [|discriminate].
      destruct (IH _ _ _ _ _ _ _ H) as [more ->].
      exists (a :: more). now rewrite <- app_assoc.
Qed.

(** C10: when the count line reads [N] and at least [N + 1] lines follow
    it, [parse] decodes the first [N] of them as atom records, takes the
    box from the next one alone, and leaves every later line in the file
    object, unread. *)
Theorem parse_reads_count_plus_one :
  forall la np title count alines boxline rest,
    pyint (strip count) = Ok (Z.of_nat (length alines)) ->
    let run := parse la np (title :: count :: alines ++ boxline :: rest) in
    fst run =
      (adds <- decode_lines None alines ;;
       b <- box_of_line la np boxline ;;
       Ok (mkParsed adds b)) /\
    (is_ok (decode_lines None alines) = true -> snd run = rest).
Proof.
  intros la np title count alines boxline rest Hcount run.
  subst run. unfold parse. cbn [readline]. rewrite Hcount.
  destruct (decode_lines None alines) as [adds|e] eqn:Hd.
  - rewrite (atom_loop_block alines _ 0 None None [] boxline rest adds)
      by (trivial; lia).
    simpl. split; [reflexivity|]. intros _.
    destruct (box_of_line la np boxline); reflexivity.
  - pose proof (atom_loop_block_raises alines _ 0 None None [] boxline rest e
                  eq_refl Hd) as Hr.
    destruct (atom_loop _ 0 None None [] (alines ++ boxline :: rest))
      as [[[acc [line|]]|e'] f3]; simpl in Hr; try discriminate.
    injection Hr as ->. split; [reflexivity|]. discriminate.
Qed.

(** On the sample file with two lines after the box line. *)
Lemma parse_reads_count_plus_one_witness :
  let run := parse any_lengths_and_angles false long_file in
  fst run =
    Ok (mkParsed [mkAdded (mkAtom (py "OW") 1 10 20 30 None) (py "SOL") 1]
                 (BoxList (mkBox 30 30 30 90 90 90))) /\
  snd run = [L "    1SOL    HW1    2   1.100   2.000   3.000"; L "not read"].
Proof.
  destruct (parse_reads_count_plus_one any_lengths_and_angles false
              (L "Test") (L "    1")
              [L "    1SOL     OW    1   1.000   2.000   3.000"]
              (L "   3.00000   3.00000   3.00000")
              [L "    1SOL    HW1    2   1.100   2.000   3.000";
               L "not read"]) as [H1 H2].
  - vm_compute. reflexivity.
  - split.
    + exact H1.
    + apply H2. vm_compute. reflexivity.
Defined.

(** *** The box line *)

(** C2, at the failing input: a file with a title, a count of one and one
    atom line, and no box line.  The loop ends with [line] bound to the
    atom line, which is then read as a box line: [parse] raises
    [GromacsError], whatever the collaborators. *)
Theorem parse_boxless_raises :
  forall la np, fst (parse la np boxless_file) = Raise GromacsError.
Proof. intros la np. vm_compute. reflexivity. Qed.

Lemma box_of_values_other la (xs : list float) :
  length xs <> 3%nat -> length xs <> 9%nat -> box_of_values la xs = None.
Proof.
  intros H3 H9.
  do 10 (destruct xs as [|? xs];
         [try reflexivity; simpl in H3, H9; lia|]).
  reflexivity.
Qed.

(** A trailing line of numbers whose count is neither 3 nor 9 is not an
    error and sets no box values ([struct.box] stays [None], or is
    [np.array(None)] when numpy is there). *)
Theorem box_other_count_ignored :
  forall la np line xs,
    float_all (split line) = Ok xs ->
    length xs <> 3%nat -> length xs <> 9%nat ->
    box_of_line la np line = Ok BoxNone \/
    box_of_line la np line = Ok (BoxArray None).
Proof.
  intros la np line xs Hxs H3 H9. unfold box_of_line.
  destruct (strip line); [now left|].
  rewrite Hxs, box_of_values_other by trivial.
  destruct np; [now right|now left].
Qed.

(** On a trailing line of four numbers. *)
Lemma box_other_count_ignored_witness :
  box_of_line any_lengths_and_angles false four_numbers = Ok BoxNone \/
  box_of_line any_lengths_and_angles false four_numbers = Ok (BoxArray None).
Proof.
  apply (box_other_count_ignored any_lengths_and_angles false four_numbers
           [1; 2; 3; 4]%float).
  - vm_compute. reflexivity.
  - simpl. lia.
  - simpl. lia.
Defined.

(** *** How [parse] ends *)

Lemma index_raises (s : str) (c : ascii) (start : Z) (e : exn) :
  index s c start = Raise e -> e = ValueError.
Proof.
  unfold index. destruct (find_from c _ _); [discriminate|]. now intros [= <-].
Qed.

Lemma times10_raises (s : str) (e : exn) :
  times10 s = Raise e -> e = ValueError.
Proof.
  unfold times10. destruct (pyfloat s) eqn:E; [discriminate|].
  cbn [bind]. intros [= <-]. now apply pyfloat_raises in E.
Qed.

Ltac raises_more H :=
  match type of H with
  | bind ?c _ = Raise _ =>
      let E := fresh "E" in
      destruct c eqn:E; cbn [bind] in H;
      [|injection H as <-;
        first [ apply pyint_raises in E | apply times10_raises in E
              | apply index_raises in E ];
        auto]
  end.

Lemma find_layout_raises (line : str) (e : exn) :
  find_layout line = Raise e -> e = ValueError.
Proof. unfold find_layout. intros H. do 2 raises_more H. discriminate. Qed.

(** The body of the loop raises nothing but [ValueError]. *)
Lemma decode_atom_raises (lay : option Layout) (line : str) (e : exn) :
  decode_atom lay line = Raise e -> e = ValueError.
Proof.
  unfold decode_atom. intros H. do 2 raises_more H.
  destruct (match lay with Some l => Ok l | None => find_layout line end)
    as [l|e'] eqn:Hl; cbn [bind] in H.
  - do 3 raises_more H.
    destruct (strip (velocity_probe line l)).
    + discriminate.
    + match type of H with
      | bind ?v _ = _ => destruct v as [vel|e'] eqn:Hv
      end; [discriminate|].
      cbn [bind] in H. injection H as <-.
      do 3 raises_more Hv. discriminate.
  - injection H as <-. destruct lay; [discriminate|].
    now apply find_layout_raises in Hl.
Qed.

Lemma decode_atom_GromacsError (lay : option Layout) (line : str) (e : exn) :
  as_GromacsError (decode_atom lay line) = Raise e -> e = GromacsError.
Proof.
  destruct (decode_atom lay line) as [r|e'] eqn:Hd; [discriminate|].
  apply decode_atom_raises in Hd. subst e'. now intros [= <-].
Qed.

Lemma atom_loop_raises (natom : Z) (f : fileobj) :
  forall i lay last acc e f',
    atom_loop natom i lay last acc f = (Raise e, f') -> e = GromacsError.
Proof.
  induction f as [|line f IH]; intros i lay last acc e f' H; simpl in H.
  - discriminate.
  - destruct (i =? natom); [discriminate|].
    destruct (as_GromacsError (decode_atom lay line)) as [[a l]|e'] eqn:Hd.
    + now apply IH in H.
    + injection H as <- _. now apply decode_atom_GromacsError in Hd.
Qed.

(** The loop leaves [line] unbound only when the file object yields no
    line at all. *)
Lemma atom_loop_unbound (natom : Z) (f : fileobj) :
  forall i lay last acc acc' f',
    atom_loop natom i lay last acc f = (Ok (acc', None), f') ->
    f = [] /\ last = None.
Proof.
  induction f as [|line f IH]; intros i lay last acc acc' f' H; simpl in H.
  - injection H as _ <- _. now split.
  - destruct (i =? natom); [discriminate|].
    destruct (as_GromacsError (decode_atom lay line)) as [[a l]|e'];
      [|discriminate].
    apply IH in H. destruct H as [_ H]. discriminate.
Qed.

Lemma float_all_raises (ts : list str) (e : exn) :
  float_all ts = Raise e -> e = ValueError.
Proof.
  induction ts as [|t ts IH]; simpl; [discriminate|].
  destruct (pyfloat t) eqn:Ht; cbn [bind].
  - destruct (float_all ts); cbn [bind]; [discriminate|].
    intros [= <-]. now apply IH.
  - intros [= <-]. now apply pyfloat_raises in Ht.
Qed.

Lemma box_of_line_raises la np (line : str) (e : exn) :
  box_of_line la np line = Raise e -> e = GromacsError.
Proof.
  unfold box_of_line. destruct (strip line); [discriminate|].
  destruct (float_all (split line)) as [xs|e'] eqn:Hx; [discriminate|].
  apply float_all_raises in Hx. subst e'. now intros [= <-].
Qed.

(** [parse] raises [UnboundLocalError] exactly when the second line is
    an integer and no line follows it: the loop body never runs and
    [line] is read unbound.  On a file none of whose lines holds nine
    numbers, so that the geometry routine, which may fail, is not
    called, [parse] returns a structure or raises [GromacsError] or
    [UnboundLocalError], nothing else. *)
Theorem parse_outcomes :
  forall la np f,
    (fst (parse la np f) = Raise UnboundLocalError <->
     is_ok (pyint (strip (nth 1 f []))) = true /\ (length f <= 2)%nat) /\
    (Forall (fun line =>
               forall xs, float_all (split line) = Ok xs ->
                          length xs <> 9%nat) f ->
     (exists st, fst (parse la np f) = Ok st) \/
     fst (parse la np f) = Raise GromacsError \/
     fst (parse la np f) = Raise UnboundLocalError).
Proof.
  intros la np f.
  assert (Hcount : fst (readline (snd (readline f))) = nth 1 f []).
  { destruct f as [|t [|c f2]]; reflexivity. }
  assert (Hrest : snd (readline (snd (readline f))) = skipn 2 f).
  { destruct f as [|t [|c f2]]; reflexivity. }
  unfold parse.
  destruct (readline f) as [t f1]. cbn [snd] in Hcount, Hrest.
  destruct (readline f1) as [count f2]. cbn [fst snd] in Hcount, Hrest.
  subst count f2.
  destruct (pyint (strip (nth 1 f []))) as [natom|e] eqn:Hc.
  - destruct (Nat.le_gt_cases (length f) 2) as [Hlen|Hlen].
    + rewrite skipn_all2 by trivial. cbn [atom_loop fst].
      split; [split; [now split|reflexivity]|]. intros _. right. now right.
    + destruct (atom_loop natom 0 None None [] (skipn 2 f))
        as [[[acc [line|]]|e] f3] eqn:Hloop; cbn [fst].
      * destruct (box_of_line la np line) as [b|e] eqn:Hb; cbn [bind].
        -- split; [split; [discriminate|lia]|]. intros _. left. eauto.
        -- apply box_of_line_raises in Hb. subst e.
           split; [split; [discriminate|lia]|]. intros _. right. now left.
      * apply atom_loop_unbound in Hloop. destruct Hloop as [Hskip _].
        apply (f_equal (@length str)) in Hskip.
        rewrite length_skipn in Hskip. simpl in Hskip. lia.
      * apply atom_loop_raises in Hloop. subst e.
        split; [split; [discriminate|lia]|]. intros _. right. now left.
  - apply pyint_raises in Hc. subst e. cbn [fst].
    split; [split; [discriminate|intros [H _]; discriminate]|].
    intros _. right. now left.
Qed.

(** On the sample file of two water atoms, whose box line holds three
    numbers. *)
Lemma parse_outcomes_witness :
  (exists st, fst (parse any_lengths_and_angles false water_file) = Ok st) \/
  fst (parse any_lengths_and_angles false water_file) = Raise GromacsError \/
  fst (parse any_lengths_and_angles false water_file) =
    Raise UnboundLocalError.
Proof.
  apply (parse_outcomes any_lengths_and_angles false water_file).
  repeat constructor; intros xs H; vm_compute in H; try discriminate;
    injection H as <-; cbn [length]; lia.
Defined.

(** When the second line of the file is not an integer, a missing line
    included, [parse] raises [GromacsError] and reads nothing beyond
    it. *)
Theorem parse_bad_count :
  forall la np f e,
    pyint (strip (nth 1 f [])) = Raise e ->
    parse la np f = (Raise GromacsError, skipn 2 f).
Proof.
  intros la np f e H.
  pose proof (pyint_raises _ _ H) as ->.
  destruct f as [|t [|c f2]]; unfold parse; cbn [readline nth skipn] in *;
    now rewrite H.
Qed.

(** On the empty file and on a file whose count line reads [two]. *)
Lemma parse_bad_count_witness :
  parse any_lengths_and_angles false [] = (Raise GromacsError, []) /\
  parse any_lengths_and_angles false
        [L "Test"; L "two";
         L "    1SOL     OW    1   1.000   2.000   3.000"] =
    (Raise GromacsError, [L "    1SOL     OW    1   1.000   2.000   3.000"]).
Proof.
  split.
  - apply (parse_bad_count any_lengths_and_angles false [] ValueError).
    vm_compute. reflexivity.
  - apply (parse_bad_count any_lengths_and_angles false
             [L "Test"; L "two";
              L "    1SOL     OW    1   1.000   2.000   3.000"] ValueError).
    vm_compute. reflexivity.
Defined.


(** *** Files that end early *)

(** When the loop meets no line of index [natom], it decodes every line
    it is given and leaves [line] bound to the last of them. *)
Lemma atom_loop_runs_out :
  forall alines natom i lay last acc,
    natom < i \/ i + Z.of_nat (length alines) <= natom ->
    fst (atom_loop natom i lay last acc alines) =
      (adds <- decode_lines lay alines ;;
       Ok (acc ++ adds,
           match alines with
           | [] => last
           | _ => Some (List.last alines [])
           end)).
Proof.
  induction alines as [|line alines IH]; intros natom i lay last acc Hn.
  - cbn. now rewrite app_nil_r.
  - cbn [atom_loop decode_lines].
    replace (i =? natom) with false
      by (symmetry; apply Z.eqb_neq; cbn [length] in Hn; lia).
    destruct (as_GromacsError (decode_atom lay line)) as [[a l]|e];
      [|reflexivity].
    rewrite IH by (cbn [length] in Hn; lia).
    destruct (decode_lines (Some l) alines) as [more|e]; [|reflexivity].
    cbn [bind]. rewrite <- app_assoc.
    destruct alines; reflexivity.
Qed.

(** When the count line reads [N] and at most [N] lines follow it, or
    when [N] is negative, [parse] decodes every line after the header as
    an atom record and then reads the box from the last of these atom
    lines. *)
Theorem parse_file_ends_early :
  forall la np title count natom alines,
    pyint (strip count) = Ok natom ->
    natom < 0 \/ Z.of_nat (length alines) <= natom ->
    alines <> [] ->
    fst (parse la np (title :: count :: alines)) =
      (adds <- decode_lines None alines ;;
       b <- box_of_line la np (List.last alines []) ;;
       Ok (mkParsed adds b)).
Proof.
  intros la np title count natom alines Hc Hn Hne.
  unfold parse. cbn [readline]. rewrite Hc.
  assert (Hi : natom < 0 \/ 0 + Z.of_nat (length alines) <= natom) by lia.
  pose proof (atom_loop_runs_out alines natom 0 None None [] Hi) as Hloop.
  destruct (atom_loop natom 0 None None [] alines) as [r f3].
  cbn [fst] in Hloop. subst r.
  destruct (decode_lines None alines) as [adds|e]; cbn [bind app].
  - destruct alines as [|l0 ls]; [now elim Hne|]. reflexivity.
  - reflexivity.
Qed.


(** On a file that announces two atoms and ends after the first: the
    atom line is decoded, then read as a box line, which fails. *)
Lemma parse_file_ends_early_witness :
  fst (parse any_lengths_and_angles false
         [L "Test"; L "    2";
          L "    1SOL     OW    1   1.000   2.000   3.000"]) =
    Raise GromacsError.
Proof.
  rewrite (parse_file_ends_early any_lengths_and_angles false
             (L "Test") (L "    2") 2
             [L "    1SOL     OW    1   1.000   2.000   3.000"]).
  - vm_compute. reflexivity.
  - vm_compute. reflexivity.
  - right. simpl. lia.
  - discriminate.
Defined.

(** When the line after the atom lines is blank, [parse] returns the
    structure with [struct.box] left at [None], with numpy or
    without. *)
Theorem parse_blank_last_line :
  forall la np title count alines boxline rest adds,
    pyint (strip count) = Ok (Z.of_nat (length alines)) ->
    decode_lines None alines = Ok adds ->
    blank boxline ->
    fst (parse la np (title :: count :: alines ++ boxline :: rest)) =
      Ok (mkParsed adds BoxNone).
Proof.
  intros la np title count alines boxline rest adds Hc Hd Hb.
  unfold parse. cbn [readline]. rewrite Hc.
  rewrite (atom_loop_block alines _ 0 None None [] boxline rest adds)
    by (trivial; lia).
  cbn [app fst]. unfold box_of_line. now rewrite strip_blank.
Qed.

(** On the sample file with its box line replaced by an empty line. *)
Lemma parse_blank_last_line_witness :
  fst (parse any_lengths_and_angles true
         [L "Test"; L "    1";
          L "    1SOL     OW    1   1.000   2.000   3.000"; L ""]) =
    Ok (mkParsed [mkAdded (mkAtom (py "OW") 1 10 20 30 None) (py "SOL") 1]
                 BoxNone).
Proof.
  apply (parse_blank_last_line any_lengths_and_angles true
           (L "Test") (L "    1")
           [L "    1SOL     OW    1   1.000   2.000   3.000"] (L "") []).
  - vm_compute. reflexivity.
  - vm_compute. reflexivity.
  - repeat constructor.
Defined.

(** *** How many atoms [parse] adds *)

Lemma atom_loop_count (natom : Z) (f : fileobj) :
  forall i lay last acc acc' last' f',
    atom_loop natom i lay last acc f = (Ok (acc', last'), f') ->
    Z.of_nat (length acc') =
      Z.of_nat (length acc) +
      (if natom <? i then Z.of_nat (length f)
       else Z.min (natom - i) (Z.of_nat (length f))).
Proof.
  induction f as [|line f IH]; intros i lay last acc acc' last' f' H;
    cbn [atom_loop] in H.
  - injection H as <- _ _. cbn [length]. destruct (Z.ltb_spec natom i); lia.
  - destruct (Z.eqb_spec i natom) as [->|Hne].
    + injection H as <- _ _. rewrite Z.ltb_irrefl. cbn [length]. lia.
    + destruct (as_GromacsError (decode_atom lay line)) as [[a l]|e];
        [|discriminate].
      apply IH in H. rewrite H, length_app. cbn [length].
      destruct (Z.ltb_spec natom (i + 1)), (Z.ltb_spec natom i); lia.
Qed.

(** The structure [parse] returns holds [N] atoms when the count line
    reads [N] and more than [N] lines follow it; it holds one atom for
    every line after the header when there are [N] of them at most, or
    when [N] is negative. *)
Theorem parse_atom_count :
  forall la np f st,
    fst (parse la np f) = Ok st ->
    exists natom,
      pyint (strip (nth 1 f [])) = Ok natom /\
      Z.of_nat (length (added st)) =
        (if natom <? 0 then Z.of_nat (length (skipn 2 f))
         else Z.min natom (Z.of_nat (length (skipn 2 f)))).
Proof.
  intros la np f st.
  assert (Hcount : fst (readline (snd (readline f))) = nth 1 f []).
  { destruct f as [|t [|c f2]]; reflexivity. }
  assert (Hrest : snd (readline (snd (readline f))) = skipn 2 f).
  { destruct f as [|t [|c f2]]; reflexivity. }
  unfold parse.
  destruct (readline f) as [t f1]. cbn [snd] in Hcount, Hrest.
  destruct (readline f1) as [count f2]. cbn [fst snd] in Hcount, Hrest.
  subst count f2.
  destruct (pyint (strip (nth 1 f []))) as [natom|[]]; try discriminate.
  destruct (atom_loop natom 0 None None [] (skipn 2 f))
    as [[[acc [line|]]|e] f3] eqn:Hloop; cbn [fst]; try discriminate.
  destruct (box_of_line la np line) as [b|e]; [|discriminate].
  cbn [bind]. intros [= <-]. exists natom. split; [reflexivity|].
  apply atom_loop_count in Hloop. cbn [added length] in *.
  rewrite Hloop. now rewrite Z.sub_0_r.
Qed.

(** On the sample file of two water atoms: a count of two, three lines
    after the header, two atoms. *)
Lemma parse_atom_count_witness :
  exists natom,
    pyint (strip (nth 1 water_file [])) = Ok natom /\
    2 = (if natom <? 0 then 3 else Z.min natom 3).
Proof.
  exact (parse_atom_count any_lengths_and_angles false water_file
           (mkParsed
              [mkAdded (mkAtom (py "OW") 1 10 20 30 None) (py "SOL") 1;
               mkAdded (mkAtom (py "HW1") 2 11 20 30 None) (py "SOL") 1]
              (BoxList (mkBox 30 30 30 90 90 90)))
           eq_refl).
Defined.


(** *** The numbers of the last line *)

Lemma blank_lstrip (s : str) : blank (lstrip s) -> blank s.
Proof.
  induction s as [|c s IH]; cbn [lstrip]; [now intros H|].
  destruct (isspace c) eqn:Hc; [|now intros H].
  intros H. constructor; [exact Hc|exact (IH H)].
Qed.

Lemma blank_rev (s : str) : blank (List.rev s) -> blank s.
Proof. intros H. rewrite <- (rev_involutive s). now apply Forall_rev. Qed.

(** Only a blank string is stripped to nothing. *)
Lemma strip_nil_blank (s : str) : strip s = [] -> blank s.
Proof.
  unfold strip, rstrip. intros H.
  apply (f_equal (@List.rev ascii)) in H. rewrite rev_involutive in H.
  cbn [List.rev] in H.
  apply blank_lstrip, blank_rev, blank_lstrip. rewrite H. constructor.
Qed.

Lemma split_blank (s : str) : blank s -> split s = [].
Proof.
  intros H. unfold split. rewrite <- (app_nil_r s).
  now rewrite split_run_blank.
Qed.

(** A last line of three numbers sets an orthorhombic box: ten times
    each number, in the order read, and three angles of 90 degrees; the
    geometry routines are not called. *)
Theorem box_line_three_numbers :
  forall la np line b0 b1 b2,
    float_all (split line) = Ok [b0; b1; b2] ->
    box_of_line la np line =
      Ok (let b := mkBox (b0 * ten) (b1 * ten) (b2 * ten)
                         ninety ninety ninety in
          if np then BoxArray (Some b) else BoxList b).
Proof.
  intros la np line b0 b1 b2 H. unfold box_of_line.
  destruct (strip line) as [|c r] eqn:Hs.
  - apply strip_nil_blank, split_blank in Hs. rewrite Hs in H. discriminate.
  - rewrite H. cbn [box_of_values]. now destruct np.
Qed.

(** On a box line of three lengths in nanometres. *)
Lemma box_line_three_numbers_witness :
  box_of_line any_lengths_and_angles false
              (L "   3.00000   4.00000   5.00000") =
    Ok (BoxList (mkBox 30 40 50 90 90 90)).
Proof.
  apply (box_line_three_numbers any_lengths_and_angles false
           (L "   3.00000   4.00000   5.00000") 3 4 5).
  vm_compute. reflexivity.
Defined.

(** [parse] rejects the last line exactly when one of its
    blank-separated tokens is not a number that [float] reads, and the
    exception is [GromacsError]. *)
Theorem box_line_rejected_iff :
  forall la np line,
    box_of_line la np line = Raise GromacsError <->
    is_ok (float_all (split line)) = false.
Proof.
  intros la np line. unfold box_of_line.
  destruct (strip line) as [|c r] eqn:Hs.
  - apply strip_nil_blank, split_blank in Hs. rewrite Hs.
    split; discriminate.
  - destruct (float_all (split line)) as [xs|e] eqn:Hx.
    + split; discriminate.
    + apply float_all_raises in Hx. subst e. now split.
Qed.

(** On a last line whose third token is a letter. *)
Lemma box_line_rejected_iff_witness :
  box_of_line any_lengths_and_angles false (L "3.0 3.0 x") =
    Raise GromacsError.
Proof.
  apply (box_line_rejected_iff any_lengths_and_angles false
           (L "3.0 3.0 x")).
  vm_compute. reflexivity.
Defined.

(** *** The layout, found once *)

(** Once the layout is known, a line is decoded with it and leaves it as
    it is. *)
Lemma decode_atom_keeps_layout (l : Layout) (line : str) (a : Added)
    (l' : Layout) :
  decode_atom (Some l) line = Ok (a, l') -> l' = l.
Proof.
  unfold decode_atom. intros H.
  destruct (pyint (slice line 0 5)) as [rnum|]; [|discriminate].
  destruct (pyint (slice line 15 20)) as [atnum|]; [|discriminate].
  cbn [bind] in H.
  destruct (times10 (coord_field line l 0)) as [x|]; [|discriminate].
  destruct (times10 (coord_field line l 1)) as [y|]; [|discriminate].
  destruct (times10 (coord_field line l 2)) as [z|]; [|discriminate].
  cbn [bind] in H.
  match type of H with
  | bind ?v _ = _ => destruct v as [vel|]; [|discriminate]
  end.
  cbn [bind] in H. now injection H as _ <-.
Qed.

Lemma decode_lines_layout (l : Layout) (ls : list str) :
  forall adds,
    decode_lines (Some l) ls = Ok adds ->
    Forall2 (fun line r => decode_atom (Some l) line = Ok (r, l)) ls adds.
Proof.
  induction ls as [|line ls IH]; intros adds H; cbn [decode_lines] in H.
  - injection H as <-. constructor.
  - destruct (as_GromacsError (decode_atom (Some l) line)) as [[a l']|e] eqn:Hd;
      [|discriminate].
    apply as_GromacsError_ok in Hd.
    pose proof (decode_atom_keeps_layout _ _ _ _ Hd) as ->.
    destruct (decode_lines (Some l) ls) as [more|e] eqn:Hm; [|discriminate].
    cbn [bind] in H. injection H as <-.
    constructor; [exact Hd|now apply IH].
Qed.

(** [parse] looks for the decimal points on the first atom line only:
    whenever it returns a structure for a count of at least one, the
    columns found on that line are the ones every later atom line is cut
    at, wherever the decimal points of the later lines are. *)
Theorem parse_layout_from_first_line :
  forall la np title count line ls boxline rest st,
    pyint (strip count) = Ok (Z.of_nat (S (length ls))) ->
    fst (parse la np (title :: count :: line :: ls ++ boxline :: rest)) =
      Ok st ->
    exists a lay more,
      find_layout line = Ok lay /\
      decode_atom None line = Ok (a, lay) /\
      added st = a :: more /\
      Forall2 (fun l r => decode_atom (Some lay) l = Ok (r, lay)) ls more.
Proof.
  intros la np title count line ls boxline rest st Hc H.
  unfold parse in H. cbn [readline] in H. rewrite Hc in H.
  destruct (decode_lines None (line :: ls)) as [adds|e] eqn:Hd.
  - rewrite (atom_loop_block (line :: ls) _ 0 None None [] boxline rest adds)
      in H by (trivial; cbn [length]; lia).
    cbn [app fst] in H.
    destruct (box_of_line la np boxline) as [b|]; [|discriminate].
    cbn [bind] in H. injection H as <-. cbn [added].
    cbn [decode_lines] in Hd.
    destruct (as_GromacsError (decode_atom None line)) as [[a lay]|e] eqn:Ha;
      [|discriminate].
    apply as_GromacsError_ok in Ha.
    destruct (decode_lines (Some lay) ls) as [more|e] eqn:Hm; [|discriminate].
    cbn [bind] in Hd. injection Hd as <-.
    exists a, lay, more. repeat split; trivial.
    + now destruct (decode_atom_inv _ _ _ Ha) as [_ [_ [Hl _]]].
    + now apply decode_lines_layout.
  - pose proof (atom_loop_block_raises (line :: ls) _ 0 None None [] boxline
                  rest e eq_refl Hd) as Hr.
    change ((line :: ls) ++ boxline :: rest)
      with (line :: ls ++ boxline :: rest) in Hr.
    destruct (atom_loop _ 0 None None [] (line :: ls ++ boxline :: rest))
      as [[[acc [l0|]]|e'] f3]; cbn [fst] in Hr, H; discriminate.
Qed.

(** On the sample file of two water atoms. *)
Lemma parse_layout_from_first_line_witness :
  exists a lay more,
    find_layout (L "    1SOL     OW    1   1.000   2.000   3.000") = Ok lay /\
    decode_atom None (L "    1SOL     OW    1   1.000   2.000   3.000") =
      Ok (a, lay) /\
    [mkAdded (mkAtom (py "OW") 1 10 20 30 None) (py "SOL") 1;
     mkAdded (mkAtom (py "HW1") 2 11 20 30 None) (py "SOL") 1] = a :: more /\
    Forall2 (fun l r => decode_atom (Some lay) l = Ok (r, lay))
            [L "    1SOL    HW1    2   1.100   2.000   3.000"] more.
Proof.
  apply (parse_layout_from_first_line any_lengths_and_angles false
           (L "Test") (L "    2")
           (L "    1SOL     OW    1   1.000   2.000   3.000")
           [L "    1SOL    HW1    2   1.100   2.000   3.000"]
           (L "   3.00000   3.00000   3.00000") []
           (mkParsed
              [mkAdded (mkAtom (py "OW") 1 10 20 30 None) (py "SOL") 1;
               mkAdded (mkAtom (py "HW1") 2 11 20 30 None) (py "SOL") 1]
              (BoxList (mkBox 30 30 30 90 90 90)))).
  - vm_compute. reflexivity.
  - vm_compute. reflexivity.
Defined.

(** *** The sniffer on files that [parse] reads *)

(** A successful [parse] that added an atom read the count and decoded
    the third line of the file. *)
Lemma parse_first_atom la np title count line rest st :
  fst (parse la np (title :: count :: line :: rest)) = Ok st ->
  added st <> [] ->
  is_ok (pyint (strip count)) = true /\
  exists a l, decode_atom None line = Ok (a, l).
Proof.
  unfold parse. cbn [readline]. intros H Hne.
  destruct (pyint (strip count)) as [natom|[]]; try discriminate.
  split; [reflexivity|].
  cbn [atom_loop] in H.
  destruct (0 =? natom).
  - cbn in H. destruct (box_of_line la np line); [|discriminate].
    cbn in H. injection H as <-. now elim Hne.
  - destruct (as_GromacsError (decode_atom None line)) as [[a l]|e] eqn:Hd;
      [|discriminate].
    apply as_GromacsError_ok in Hd. eauto.
Qed.

Lemma probe_field_coord (line : str) (n k : Z) :
  probe_field line 24 (n - 24 - 5) (k + 1) =
    coord_field line (mkLayout 24 n) k.
Proof.
  unfold probe_field, coord_field, digits. cbn [pdeci ndeci].
  f_equal; ring.
Qed.

(** C9, as stated, fails: [parse] converts a file whose first atom line
    has a blank residue name, and [id_format] returns [False] on it. *)
Lemma id_format_rejects_parsed_counterexample :
  fst (parse any_lengths_and_angles false unnamed_residue_file) =
    Ok (mkParsed [mkAdded (mkAtom (py "OW") 1 10 20 30 None) [] 1]
                 (BoxList (mkBox 30 30 30 90 90 90))) /\
  id_format unnamed_residue_file = Ok false.
Proof. vm_compute. split; reflexivity. Qed.

(** C9, amended: [id_format] returns [True] on every file that [parse]
    converts into a structure with at least one atom, provided the first
    atom line has non-blank residue-name and atom-name fields, its first
    decimal point in column 24, and a fourth field group that is blank or
    begins three fields [float] reads. *)
Theorem id_format_accepts_parsed :
  forall la np title count line rest st,
    fst (parse la np (title :: count :: line :: rest)) = Ok st ->
    added st <> [] ->
    strip (slice line 5 10) <> [] ->
    strip (slice line 10 15) <> [] ->
    find_from "."%char line 0 = Some 24 ->
    velocities_readable line = true ->
    id_format (title :: count :: line :: rest) = Ok true.
Proof.
  intros la np title count line rest st Hparse Hne Hres Hname Hpoint Hvel.
  destruct (parse_first_atom _ _ _ _ _ _ _ Hparse Hne)
    as [Hcount [a [l Hdec]]].
  destruct (decode_atom_inv _ _ _ Hdec)
    as [Hrnum [Hatnum [Hlay [Hx [Hy [Hz _]]]]]].
  destruct (find_from_split _ _ _ _ Hpoint) as [pre [post [Hline [Hpre H24]]]].
  assert (Hlen : len pre = 24) by lia.
  (* the layout [parse] found *)
  unfold find_layout in Hlay. rewrite Hline in Hlay.
  rewrite (index_app _ pre post 20 Hpre) in Hlay by lia.
  cbn [bind] in Hlay.
  destruct (index (pre ++ "."%char :: post) "."%char (len pre + 1))
    as [n|] eqn:Hn; [|discriminate].
  cbn [bind] in Hlay. injection Hlay as <-.
  apply index_past in Hn.
  destruct (positions_head _ _ _ _ Hn) as [more Hmore].
  assert (Hpos : positions "."%char line 0 = 24 :: n :: more).
  { rewrite Hline, positions_app by trivial.
    replace (0 + len pre) with (len pre) by lia.
    now rewrite Hmore, Hlen. }
  rewrite Hlen in Hx, Hy, Hz.
  (* the sniffer, step by step *)
  unfold id_format. cbn [readline].
  destruct (is_ok_inv _ Hcount) as [natom ->].
  unfold probe_line.
  destruct (is_ok_inv _ Hrnum) as [rnum ->]. cbn [bind].
  destruct (strip (slice line 5 10)) as [|c1 r1]; [now elim Hres|].
  destruct (strip (slice line 10 15)) as [|c2 r2]; [now elim Hname|].
  destruct (is_ok_inv _ Hatnum) as [atnum ->]. cbn [bind].
  rewrite Hpos. cbn [getitem nth_error bind].
  change 1 with (0 + 1) at 1. rewrite probe_field_coord.
  destruct (is_ok_inv _ Hx) as [x ->]. cbn [bind].
  change 2 with (1 + 1) at 1. rewrite probe_field_coord.
  destruct (is_ok_inv _ Hy) as [y ->]. cbn [bind].
  change 3 with (2 + 1) at 1. rewrite probe_field_coord.
  destruct (is_ok_inv _ Hz) as [z ->]. cbn [bind].
  unfold velocities_readable in Hvel. rewrite Hpos in Hvel.
  destruct (strip (probe_field line 24 (n - 24 - 5) 4)); [reflexivity|].
  apply andb_prop in Hvel. destruct Hvel as [Hvel H6].
  apply andb_prop in Hvel. destruct Hvel as [H4 H5].
  destruct (is_ok_inv _ H4) as [v4 ->].
  destruct (is_ok_inv _ H5) as [v5 ->].
  destruct (is_ok_inv _ H6) as [v6 ->].
  reflexivity.
Qed.

(** On the sample file of two water atoms. *)
Lemma id_format_accepts_parsed_witness :
  id_format water_file = Ok true.
Proof.
  apply (id_format_accepts_parsed any_lengths_and_angles false
           (L "Test") (L "    2")
           (L "    1SOL     OW    1   1.000   2.000   3.000")
           [L "    1SOL    HW1    2   1.100   2.000   3.000";
            L "   3.00000   3.00000   3.00000"]
           (mkParsed
              [mkAdded (mkAtom (py "OW") 1 10 20 30 None) (py "SOL") 1;
               mkAdded (mkAtom (py "HW1") 2 11 20 30 None) (py "SOL") 1]
              (BoxList (mkBox 30 30 30 90 90 90)))).
  - vm_compute. reflexivity.
  - discriminate.
  - vm_compute. discriminate.
  - vm_compute. discriminate.
  - vm_compute. reflexivity.
  - vm_compute. reflexivity.
Defined.

(** ** Writing *)

(** *** The columns of an atom line *)

Lemma length_column (w d : nat) (x : float) : length (column w d x) = w.
Proof.
  unfold column, fmt_f. rewrite length_firstn, length_rjust. lia.
Qed.

(** A column holds the whole rendering, right-justified, when it fits,
    and its first [w] characters otherwise. *)
Lemma column_cases (w d : nat) (x : float) :
  column w d x =
    if (length (str_f d x) <=? w)%nat then rjust w (str_f d x)
    else firstn w (str_f d x).
Proof.
  unfold column, fmt_f.
  destruct (Nat.leb_spec (length (str_f d x)) w) as [Hle|Hlt].
  - apply firstn_all2. rewrite length_rjust. lia.
  - now rewrite rjust_wide by lia.
Qed.

Lemma column_no_nl (w d : nat) (x : float) : no_char nl (column w d x).
Proof. apply no_char_firstn, fmt_f_no_nl. Qed.

Lemma column_is_column_of (w d : nat) (x : float) :
  column_of w d x (column w d (x / ten)).
Proof.
  repeat split.
  - apply length_column.
  - apply column_cases.
  - apply str_f_decimals.
Qed.

(** C6, as stated, fails: with [precision = 3] the velocity fields of an
    atom are 8 characters wide, not 9. *)
Lemma velocity_width_counterexample :
  ~ Forall (fun c => length c = (5 + 3 + 1)%nat)
      (velocity_writes 3 true moving).
Proof.
  intros H. inversion H as [|c l Hc _]. vm_compute in Hc. discriminate.
Qed.

(** C6, amended: every coordinate field written for an atom is exactly
    [5 + precision] characters wide and every velocity field is exactly
    [5 + precision] characters wide too; a field holds the value divided
    by 10, rendered with [precision] decimals (coordinates) or
    [precision + 1] decimals (velocities) and right-justified, when that
    fits the width, and the first [5 + precision] characters of the
    rendering otherwise; no case raises. *)
Theorem write_column_widths :
  forall precision has_vels a,
    let w := (5 + precision)%nat in
    Forall2 (column_of w precision) [axx a; axy a; axz a]
            (coordinate_writes precision a) /\
    match has_vels, avel a with
    | true, Some (vx, vy, vz) =>
        Forall2 (column_of w (precision + 1)) [vx; vy; vz]
                (velocity_writes precision has_vels a)
    | _, _ => velocity_writes precision has_vels a = []
    end.
Proof.
  intros precision has_vels a w. split.
  - unfold coordinate_writes.
    repeat (apply Forall2_cons; [apply column_is_column_of|]).
    apply Forall2_nil.
  - unfold velocity_writes.
    destruct has_vels; [|reflexivity].
    destruct (avel a) as [[[vx vy] vz]|]; [|reflexivity].
    repeat (apply Forall2_cons; [apply column_is_column_of|]).
    apply Forall2_nil.
Qed.

(** On the sample atom with a velocity, for [precision = 3]. *)
Lemma write_column_widths_witness :
  map (@length ascii) (coordinate_writes 3 moving) = [8; 8; 8]%nat /\
  map (@length ascii) (velocity_writes 3 true moving) = [8; 8; 8]%nat /\
  length (after_point (str_f 4 (1 / ten)%float)) = 4%nat.
Proof.
  destruct (write_column_widths 3 true moving) as [Hc Hv].
  cbv zeta in Hc. simpl avel in Hv. cbv zeta iota beta in Hv.
  split; [vm_compute; reflexivity|].
  split; [vm_compute; reflexivity|].
  inversion Hv as [|vx cx lv lc Hcol _]; subst.
  destruct Hcol as [_ [_ Hdec]]. apply Hdec. vm_compute. reflexivity.
Defined.

(** *** The box line *)

(** C5, at the failing input: two atoms 10 angstroms apart along x and no
    box.  The box line is [1.5 0.5 0.5] nm: the extent plus 5 angstroms
    in all, not plus 5 angstroms on each side (which would give
    [2.0 1.0 1.0]). *)
Theorem write_pair_box :
  forall lv red tiny,
    box_values lv red tiny pair false = Ok (Some [1.5; 0.5; 0.5]%float) /\
    box_text lv red tiny pair false =
      Ok (L "   1.50000   0.50000   0.50000").
Proof. intros lv red tiny. vm_compute. split; reflexivity. Qed.

(** C4, as stated, fails: the reading of nine numbers in the order the
    specification words differs from the one of [parse]. *)
Lemma box9_claimed_order_counterexample :
  box9_vectors 1 2 3 4 5 6 7 8 9 <> claimed_box9_vectors 1 2 3 4 5 6 7 8 9.
Proof.
  intros H.
  apply (f_equal (fun t => PrimFloat.eqb (snd (fst (fst (fst t)))) 4)) in H.
  vm_compute in H. discriminate.
Qed.

(** C4, amended: [parse] reads a box line of nine numbers in the order
    (v1x, v2y, v3z, v1y, v1z, v2x, v2z, v3x, v3y) before the vectors go to
    the geometry routine, and [write] prints the components of the reduced
    vectors in the same order, each divided by 10 (the first three only
    when the three angles are within [TINY] of 90). *)
Theorem box9_order :
  (forall la v1x v1y v1z v2x v2y v2z v3x v3y v3z,
      box_of_values la [v1x; v2y; v3z; v1y; v1z; v2x; v2z; v3x; v3y] =
        (let '((a, b, c), (alpha, beta, gamma)) :=
           la (v1x, v1y, v1z) (v2x, v2y, v2z) (v3x, v3y, v3z) in
         Some (mkBox a b c alpha beta gamma))) /\
  (forall lv red tiny ats bx nobox,
      box_values lv red tiny (mkStructure ats (Some bx)) nobox =
        (let '(v1, v2, v3) := lv bx in
         let '((v1x, v1y, v1z), (v2x, v2y, v2z), (v3x, v3y, v3z)) :=
           red v1 v2 v3 in
         if forallb (near90 tiny) [box_alpha bx; box_beta bx; box_gamma bx]
         then Ok (Some [v1x / ten; v2y / ten; v3z / ten]%float)
         else Ok (Some [v1x / ten; v2y / ten; v3z / ten; v1y / ten;
                        v1z / ten; v2x / ten; v2z / ten; v3x / ten;
                        v3y / ten]%float))).
Proof.
  split.
  - intros. reflexivity.
  - intros lv red tiny ats bx nobox. unfold box_values. cbn [box].
    destruct (lv bx) as [[v1 v2] v3].
    destruct (red v1 v2 v3) as [[[[v1x v1y] v1z] [[v2x v2y] v2z]]
                                  [[v3x v3y] v3z]].
    reflexivity.
Qed.

(** *** How [write] ends *)

Lemma box_values_raises lv red tiny (s : Structure) (nobox : bool) (e : exn) :
  box_values lv red tiny s nobox = Raise e -> e = IndexError.
Proof.
  unfold box_values. destruct (box s) as [bx|].
  - destruct (lv bx) as [[v1 v2] v3]. destruct (red v1 v2 v3) as [[a b] c].
    destruct (forallb _ _); discriminate.
  - destruct nobox; [discriminate|].
    destruct (atoms s) as [|a0 ats] eqn:Hats; [discriminate|].
    intros H. do 2 raises_step H. discriminate.
Qed.

(** C7: whatever the structure, [write] on a file-like destination ends
    with an exception, since [own_handle] is bound only for a file name;
    on the sample pair everything is written before [UnboundLocalError]
    is raised. *)
Theorem write_filelike_raises :
  (forall lv red tiny s precision nobox,
      is_ok (fst (write lv red tiny s FileLike precision nobox)) = false) /\
  (forall lv red tiny,
      write lv red tiny pair FileLike 3 false =
        (Raise UnboundLocalError,
         L "GROningen MAchine for Chemical Simulation" ++ L "    2" ++
         L "    1SOL     OW    1   0.000   0.000   0.000" ++
         L "    1SOL    HW1    2   1.000   0.000   0.000" ++
         L "   1.50000   0.50000   0.50000")).
Proof.
  split.
  - intros lv red tiny s precision nobox. unfold write.
    destruct (box_text lv red tiny s nobox); reflexivity.
  - intros lv red tiny. vm_compute. reflexivity.
Qed.

(** [write] raises [TypeError] exactly when the destination is neither a
    file name nor an object with a [write] attribute, and then it has
    written nothing. *)
Theorem write_TypeError_iff :
  forall lv red tiny s dest precision nobox,
    (fst (write lv red tiny s dest precision nobox) = Raise TypeError <->
     dest = NotWritable) /\
    (dest = NotWritable ->
     snd (write lv red tiny s dest precision nobox) = []).
Proof.
  intros lv red tiny s dest precision nobox. split; [split|].
  - destruct dest; [| |reflexivity]; unfold write, box_text;
      destruct (box_values lv red tiny s nobox) as [[vs|]|e] eqn:Hb;
      cbn; try discriminate;
      apply box_values_raises in Hb; subst e; discriminate.
  - now intros ->.
  - now intros ->.
Qed.

(** On the sample pair and a destination that cannot be written to. *)
Lemma write_TypeError_iff_witness :
  write any_vectors any_reduction 0 pair NotWritable 3 false =
    (Raise TypeError, []).
Proof.
  destruct (write_TypeError_iff any_vectors any_reduction 0%float pair
              NotWritable 3 false) as [[_ H1] H2].
  specialize (H1 eq_refl). specialize (H2 eq_refl).
  destruct (write any_vectors any_reduction 0 pair NotWritable 3 false)
    as [r t]. simpl in H1, H2. now subst.
Defined.

(** *** A single atom without a box *)

Lemma box_values_IndexError_iff lv red tiny (s : Structure) (nobox : bool) :
  box_values lv red tiny s nobox = Raise IndexError <->
  box s = None /\ nobox = false /\ length (atoms s) = 1%nat.
Proof.
  unfold box_values. destruct (box s) as [bx|].
  - destruct (lv bx) as [[v1 v2] v3]. destruct (red v1 v2 v3) as [[a b] c].
    split; [destruct (forallb _ _); discriminate|].
    intros [H _]. discriminate.
  - destruct nobox.
    + split; [discriminate|]. intros [_ [H _]]. discriminate.
    + destruct (atoms s) as [|a0 [|a1 ats]]; cbn.
      * split; [discriminate|]. intros [_ [_ H]]. discriminate.
      * now split.
      * split; [discriminate|]. intros [_ [_ H]]. discriminate.
Qed.

(** [write] raises [IndexError] exactly when the destination can be
    written to, the structure has no box, [nobox] is false and there is
    exactly one atom: [struct.atoms[1]] does not exist.  The header and
    the atom line have been written by then, and no box line. *)
Theorem write_IndexError_iff :
  forall lv red tiny s dest precision nobox,
    (fst (write lv red tiny s dest precision nobox) = Raise IndexError <->
     dest <> NotWritable /\ box s = None /\ nobox = false /\
     length (atoms s) = 1%nat) /\
    (fst (write lv red tiny s dest precision nobox) = Raise IndexError ->
     snd (write lv red tiny s dest precision nobox) =
       header_text s ++
       concat (map (atom_text precision (forallb has_velocity (atoms s)))
                   (atoms s))).
Proof.
  intros lv red tiny s dest precision nobox.
  pose proof (box_values_IndexError_iff lv red tiny s nobox) as Hiff.
  destruct dest as [filename| |].
  - unfold write, box_text.
    destruct (box_values lv red tiny s nobox) as [[vs|]|e] eqn:Hb;
      cbn [bind fst snd].
    + split; [|discriminate]. split; [discriminate|].
      intros [_ H]. apply Hiff in H. discriminate.
    + split; [|discriminate]. split; [discriminate|].
      intros [_ H]. apply Hiff in H. discriminate.
    + pose proof (box_values_raises _ _ _ _ _ _ Hb) as ->.
      split; [|reflexivity]. split; [|reflexivity].
      intros _. split; [discriminate|]. now apply Hiff.
  - unfold write, box_text.
    destruct (box_values lv red tiny s nobox) as [[vs|]|e] eqn:Hb;
      cbn [bind fst snd].
    + split; [|discriminate]. split; [discriminate|].
      intros [_ H]. apply Hiff in H. discriminate.
    + split; [|discriminate]. split; [discriminate|].
      intros [_ H]. apply Hiff in H. discriminate.
    + pose proof (box_values_raises _ _ _ _ _ _ Hb) as ->.
      split; [|reflexivity]. split; [|reflexivity].
      intros _. split; [discriminate|]. now apply Hiff.
  - cbn [write fst snd]. split; [|discriminate].
    split; [discriminate|]. intros [H _]. now elim H.
Qed.

(** On the sample structure of one atom. *)
Lemma write_IndexError_iff_witness :
  write any_vectors any_reduction 0 lone (Path (py "out.gro")) 3 false =
    (Raise IndexError,
     L "GROningen MAchine for Chemical Simulation" ++ L "    1" ++
     L "    1SOL     OW    1   1.000   2.000   3.000  0.1000  0.2000  0.3000").
Proof.
  destruct (write_IndexError_iff any_vectors any_reduction 0%float lone
              (Path (py "out.gro")) 3 false) as [[_ H1] H2].
  assert (H : fst (write any_vectors any_reduction 0 lone
                     (Path (py "out.gro")) 3 false) = Raise IndexError).
  { apply H1. repeat split. discriminate. }
  specialize (H2 H).
  destruct (write any_vectors any_reduction 0 lone (Path (py "out.gro")) 3
              false) as [r t].
  cbn [fst snd] in H, H2. subst r t. vm_compute. reflexivity.
Defined.

(** *** The length of an atom line *)

Lemma length_ljust_max (w : nat) (s : str) :
  length (ljust w s) = Nat.max w (length s).
Proof. unfold ljust. rewrite length_app, length_spaces. lia. Qed.

Lemma has_velocity_all (ats : list SAtom) (a : SAtom) :
  forallb has_velocity ats = true -> In a ats -> exists v, avel a = Some v.
Proof.
  intros H Hin. rewrite forallb_forall in H. specialize (H a Hin).
  unfold has_velocity in H. destruct (avel a); [eauto|discriminate].
Qed.

(** The line written for an atom of [struct.atoms]: the four
    identification fields take five columns each, or as many as the value
    needs when that is more (nothing is cut); each coordinate takes
    exactly [5 + precision] columns; three velocity fields of the same
    width follow on every line when all atoms have velocities, and on no
    line otherwise; then the line feed. *)
Theorem atom_line_length :
  forall precision ats a,
    In a ats ->
    let has_vels := forallb has_velocity ats in
    length (atom_text precision has_vels a) =
      (Nat.max 5 (length (str_of_int (res_idx (residue a) + 1))) +
       Nat.max 5 (length (res_name (residue a))) +
       Nat.max 5 (length (aname a)) +
       Nat.max 5 (length (str_of_int (idx a + 1))) +
       3 * (5 + precision) +
       (if has_vels then 3 * (5 + precision) else 0) + 1)%nat.
Proof.
  intros precision ats a Hin has_vels.
  unfold atom_text, atom_writes, ident_text, coordinate_writes, fmt_d.
  cbn [concat app]. rewrite concat_app.
  rewrite !length_app, !length_rjust, length_ljust_max, !length_column.
  cbn [concat length app].
  assert (Hv : length (concat (velocity_writes precision has_vels a)) =
               if has_vels then (3 * (5 + precision))%nat else 0%nat).
  { unfold velocity_writes. destruct has_vels eqn:Hhv; [|reflexivity].
    destruct (has_velocity_all ats a Hhv Hin) as [[[vx vy] vz] ->].
    cbn [concat]. rewrite !length_app, !length_column. simpl. lia. }
  rewrite Hv. lia.
Qed.

(** On the second atom of the sample pair, whose name has three
    characters: 44 columns and the line feed. *)
Lemma atom_line_length_witness :
  length (atom_text 3 false (mkSAtom sol (py "HW1") 1 10 0 0 None)) = 45%nat.
Proof.
  apply (atom_line_length 3 (atoms pair)
           (mkSAtom sol (py "HW1") 1 10 0 0 None)).
  right. left. reflexivity.
Defined.

(** *** The fields of an atom line, read by [float] *)

Lemma digits_firstn (n : nat) (s : str) : all_digits s -> all_digits (firstn n s).
Proof.
  intros H. revert n. induction H as [|c s Hc _ IH]; intros [|n];
    cbn [firstn]; constructor; auto.
Qed.

Lemma numeral_tail_firstn (n : nat) (t : str) :
  numeral_tail t -> numeral_tail (firstn n t).
Proof.
  intros [->|[fp [-> Hfp]]].
  - left. now destruct n.
  - destruct n as [|n]; [now left|].
    right. exists (firstn n fp). split; [reflexivity|].
    now apply digits_firstn.
Qed.

(** [float] reads a sign, digits, and a point with digits if there is
    one. *)
Lemma pyfloat_numeral (sg : bool) (c : ascii) (ip t : str) :
  all_digits (c :: ip) -> numeral_tail t ->
  exists y, pyfloat (sign_chars sg ++ (c :: ip) ++ t) = Ok y.
Proof.
  intros Hd Ht.
  assert (Hc : isdigit c = true) by now inversion Hd.
  assert (Hsolid : solid (sign_chars sg ++ (c :: ip) ++ t)).
  { apply sign_solid. apply Forall_app. split; [now apply digits_solid|].
    destruct Ht as [->|[fp [-> Hfp]]]; [constructor|].
    constructor; [reflexivity|now apply digits_solid]. }
  assert (Hplain : no_char "_"%char (sign_chars sg ++ (c :: ip) ++ t)).
  { apply Forall_app. split; [destruct sg; repeat constructor|].
    apply Forall_app. split; [now apply digits_plain|].
    destruct Ht as [->|[fp [-> Hfp]]]; [constructor|].
    constructor; [reflexivity|now apply digits_plain]. }
  unfold pyfloat.
  rewrite strip_c_solid, ungroup_plain by trivial.
  unfold float_of_text.
  assert (Hsplit : split_sign (sign_chars sg ++ (c :: ip) ++ t) =
                   (sg, (c :: ip) ++ t)).
  { destruct sg; cbn [sign_chars app split_sign]; trivial.
    now apply split_sign_digit. }
  rewrite Hsplit.
  destruct (digit_not_letter c Hc) as [Hi Hn].
  cbv zeta.
  replace (str_eqb (map lower ((c :: ip) ++ t)) (py "inf")) with false
    by (cbn [app map py list_ascii_of_string str_eqb]; now rewrite Hi).
  replace (str_eqb (map lower ((c :: ip) ++ t)) (py "infinity")) with false
    by (cbn [app map py list_ascii_of_string str_eqb]; now rewrite Hi).
  replace (str_eqb (map lower ((c :: ip) ++ t)) (py "nan")) with false
    by (cbn [app map py list_ascii_of_string str_eqb]; now rewrite Hn).
  cbn [orb]. unfold float_of_numeral.
  destruct Ht as [->|[fp [-> Hfp]]].
  - rewrite app_nil_r, span_digits_all by trivial. rewrite app_nil_r.
    destruct (digits_value_digits (c :: ip) Hd) as [m ->]; [discriminate|].
    eauto.
  - rewrite span_digits_point by trivial.
    rewrite span_digits_all by trivial.
    destruct (digits_value_digits ((c :: ip) ++ fp)) as [m ->].
    + now apply Forall_app.
    + discriminate.
    + eauto.
Qed.

(** The first [w] characters of a numeral, for [w] of two or more: a
    numeral again. *)
Lemma firstn_numeral (w : nat) (sg : bool) (c : ascii) (ip t : str) :
  (2 <= w)%nat -> all_digits (c :: ip) -> numeral_tail t ->
  exists ip' t',
    firstn w (sign_chars sg ++ (c :: ip) ++ t) =
      sign_chars sg ++ (c :: ip') ++ t' /\
    all_digits (c :: ip') /\ numeral_tail t'.
Proof.
  intros Hw Hd Ht.
  assert (Hc : isdigit c = true) by now inversion Hd.
  assert (Hip : all_digits ip) by now inversion Hd.
  destruct w as [|[|w]]; try lia.
  destruct sg; cbn [sign_chars app].
  - rewrite !firstn_cons.
    exists (firstn w ip), (firstn (w - length ip) t).
    rewrite firstn_app. repeat split.
    + constructor; [trivial|now apply digits_firstn].
    + now apply numeral_tail_firstn.
  - rewrite firstn_cons.
    exists (firstn (S w) ip), (firstn (S w - length ip) t).
    rewrite firstn_app. repeat split.
    + constructor; [trivial|now apply digits_firstn].
    + now apply numeral_tail_firstn.
Qed.

Lemma fixed_numeral (p : nat) (n : Z) :
  exists c ip t,
    fixed p n = (c :: ip) ++ t /\ all_digits (c :: ip) /\ numeral_tail t.
Proof.
  destruct (fixed_cases p n) as [c [ip [Hd [[_ ->]|[fp [-> [Hf _]]]]]]].
  - exists c, ip, []. rewrite app_nil_r. repeat split; trivial. now left.
  - exists c, ip, ("."%char :: fp). repeat split; trivial.
    right. eauto.
Qed.

(** [float] reads every field of four columns or more that [write]
    cuts out of a rendering. *)
Lemma pyfloat_column (w d : nat) (x : float) :
  (4 <= w)%nat -> exists y, pyfloat (column w d x) = Ok y.
Proof.
  intros Hw. rewrite column_cases.
  destruct (Nat.leb_spec (length (str_f d x)) w) as [Hfit|Hcut].
  - unfold rjust.
    destruct (pyfloat_str_f (spaces (w - length (str_f d x))) [] d x)
      as [y Hy]; [apply cblank_spaces|constructor|].
    rewrite app_nil_r in Hy. eauto.
  - assert (Hnum : forall sg n,
               exists y, pyfloat (firstn w (sign_chars sg ++ fixed d n)) = Ok y).
    { intros sg n. destruct (fixed_numeral d n) as [c [ip [t [-> [Hd Ht]]]]].
      destruct (firstn_numeral w sg c ip t) as [ip' [t' [-> [Hd' Ht']]]];
        trivial; [lia|].
      now apply pyfloat_numeral. }
    unfold str_f in *. destruct (Prim2SF x) as [sg|sg| |sg m e].
    + apply Hnum.
    + destruct sg; simpl in Hcut; lia.
    + simpl in Hcut; lia.
    + apply Hnum.
Qed.

(** Every coordinate field and every velocity field of an atom line is a
    string [float] reads, also when the rendering was cut to the width of
    the field. *)
Theorem written_fields_readable :
  forall precision has_vels a,
    Forall (fun c => is_ok (pyfloat c) = true)
           (coordinate_writes precision a ++
            velocity_writes precision has_vels a).
Proof.
  intros precision has_vels a.
  assert (Hcol : forall d x,
             is_ok (pyfloat (column (5 + precision) d x)) = true).
  { intros d x. destruct (pyfloat_column (5 + precision) d x) as [y ->];
      [lia|reflexivity]. }
  apply Forall_app. split.
  - unfold coordinate_writes. repeat constructor; apply Hcol.
  - unfold velocity_writes. destruct has_vels; [|constructor].
    destruct (avel a) as [[[vx vy] vz]|]; [|constructor].
    repeat constructor; apply Hcol.
Qed.

(** ** Writing, then reading *)

(** *** The atom lines *)

(** A fitting column of a finite number: four characters, the point, the
    decimals. *)
Lemma column_shape (p : nat) (x : float) :
  p <> O -> is_finite x = true ->
  (length (str_f p x) <= 5 + p)%nat ->
  exists lead frac,
    column (5 + p) p x = lead ++ "."%char :: frac /\
    length lead = 4%nat /\ length frac = p /\
    no_char "."%char lead /\ no_char "."%char frac.
Proof.
  intros Hp Hfin Hfit.
  rewrite column_cases.
  destruct (Nat.leb_spec (length (str_f p x)) (5 + p)) as [_|]; [|lia].
  assert (Hshape : exists sg c ip fp,
             str_f p x = sign_chars sg ++ (c :: ip) ++ "."%char :: fp /\
             all_digits (c :: ip) /\ all_digits fp /\ length fp = p).
  { unfold str_f.
    destruct (finite_cases x Hfin) as [[sg ->]|[sg [m [e ->]]]].
    - destruct (fixed_cases p 0) as [c [ip [Hd [[H0 _]|[fp [-> [Hf [Hl _]]]]]]]];
        [contradiction|]. now exists sg, c, ip, fp.
    - destruct (fixed_cases p (scaled p m e))
        as [c [ip [Hd [[H0 _]|[fp [-> [Hf [Hl _]]]]]]]];
        [contradiction|]. now exists sg, c, ip, fp. }
  destruct Hshape as [sg [c [ip [fp [Hs [Hd [Hf Hl]]]]]]].
  unfold rjust. rewrite Hs in *.
  exists (spaces (5 + p - length (sign_chars sg ++ (c :: ip) ++ "."%char :: fp))
            ++ sign_chars sg ++ c :: ip), fp.
  repeat split.
  - now rewrite <- !app_assoc.
  - rewrite !length_app, length_spaces in *. simpl length in *. lia.
  - trivial.
  - apply Forall_app. split; [apply no_char_spaces|].
    apply Forall_app. split; [destruct sg; repeat constructor|].
    now apply digits_no_point.
  - now apply digits_no_point.
Qed.

(** The seven fields at the head of an atom line, by their columns. *)
Lemma line_fields (f1 f2 f3 f4 c1 c2 c3 tail : str) :
  length f1 = 5%nat -> length f2 = 5%nat -> length f3 = 5%nat ->
  length f4 = 5%nat -> length c1 = 8%nat -> length c2 = 8%nat ->
  length c3 = 8%nat ->
  let line := f1 ++ f2 ++ f3 ++ f4 ++ c1 ++ c2 ++ c3 ++ tail in
  slice line 0 5 = f1 /\ slice line 5 10 = f2 /\ slice line 10 15 = f3 /\
  slice line 15 20 = f4 /\ slice line 20 28 = c1 /\ slice line 28 36 = c2 /\
  slice line 36 44 = c3.
Proof.
  intros H1 H2 H3 H4 H5 H6 H7 line. subst line.
  repeat split.
  - apply (slice_mid [] f1); unfold len; simpl; lia.
  - apply (slice_mid f1 f2); unfold len; lia.
  - replace (f1 ++ f2 ++ f3 ++ f4 ++ c1 ++ c2 ++ c3 ++ tail)
      with ((f1 ++ f2) ++ f3 ++ f4 ++ c1 ++ c2 ++ c3 ++ tail)
      by now rewrite <- !app_assoc.
    apply slice_mid; unfold len; rewrite ?length_app; lia.
  - replace (f1 ++ f2 ++ f3 ++ f4 ++ c1 ++ c2 ++ c3 ++ tail)
      with ((f1 ++ f2 ++ f3) ++ f4 ++ c1 ++ c2 ++ c3 ++ tail)
      by now rewrite <- !app_assoc.
    apply slice_mid; unfold len; rewrite ?length_app; lia.
  - replace (f1 ++ f2 ++ f3 ++ f4 ++ c1 ++ c2 ++ c3 ++ tail)
      with ((f1 ++ f2 ++ f3 ++ f4) ++ c1 ++ c2 ++ c3 ++ tail)
      by now rewrite <- !app_assoc.
    apply slice_mid; unfold len; rewrite ?length_app; lia.
  - replace (f1 ++ f2 ++ f3 ++ f4 ++ c1 ++ c2 ++ c3 ++ tail)
      with ((f1 ++ f2 ++ f3 ++ f4 ++ c1) ++ c2 ++ c3 ++ tail)
      by now rewrite <- !app_assoc.
    apply slice_mid; unfold len; rewrite ?length_app; lia.
  - replace (f1 ++ f2 ++ f3 ++ f4 ++ c1 ++ c2 ++ c3 ++ tail)
      with ((f1 ++ f2 ++ f3 ++ f4 ++ c1 ++ c2) ++ c3 ++ tail)
      by now rewrite <- !app_assoc.
    apply slice_mid; unfold len; rewrite ?length_app; lia.
Qed.

(** The two decimal points [parse] looks for, in columns 24 and 32. *)
Lemma line_layout (head lead1 frac1 lead2 rest : str) :
  length head = 20%nat -> length lead1 = 4%nat -> length frac1 = 3%nat ->
  length lead2 = 4%nat ->
  no_char "."%char lead1 -> no_char "."%char frac1 ->
  no_char "."%char lead2 ->
  find_layout
    (head ++ lead1 ++ "."%char :: frac1 ++ lead2 ++ "."%char :: rest) =
    Ok (mkLayout 24 32).
Proof.
  intros Hh H1 Hf H2 N1 Nf N2. unfold find_layout.
  replace 20 with (len head) at 1 by (unfold len; lia).
  rewrite index_from.
  rewrite find_from_app by trivial.
  replace (len head + len lead1) with 24 by (unfold len; lia).
  cbn [bind].
  replace (head ++ lead1 ++ "."%char :: frac1 ++ lead2 ++ "."%char :: rest)
    with ((head ++ lead1 ++ ["."%char]) ++
          (frac1 ++ lead2) ++ "."%char :: rest)
    by (rewrite <- !app_assoc; reflexivity).
  replace (24 + 1) with (len (head ++ lead1 ++ ["."%char]))
    by (unfold len; rewrite !length_app; simpl length; lia).
  rewrite index_from.
  rewrite find_from_app by (apply Forall_app; now split).
  cbn [bind]. do 2 f_equal.
  unfold len. rewrite !length_app. simpl length. lia.
Qed.

Lemma decode_fields (f1 f2 f3 f4 c1 c2 c3 tail : str)
    (rnum atnum : Z) (x y z : float) (lay : option Layout) :
  length f1 = 5%nat -> length f2 = 5%nat -> length f3 = 5%nat ->
  length f4 = 5%nat -> length c1 = 8%nat -> length c2 = 8%nat ->
  length c3 = 8%nat -> (length tail <= 87)%nat ->
  let line := f1 ++ f2 ++ f3 ++ f4 ++ c1 ++ c2 ++ c3 ++ tail in
  pyint f1 = Ok rnum -> pyint f4 = Ok atnum ->
  match lay with
  | None => find_layout line = Ok (mkLayout 24 32)
  | Some l => l = mkLayout 24 32
  end ->
  times10 c1 = Ok x -> times10 c2 = Ok y -> times10 c3 = Ok z ->
  decode_atom lay line =
    Ok (mkAdded (mkAtom (strip f3) atnum x y z None) (strip f2) rnum,
        mkLayout 24 32).
Proof.
  intros H1 H2 H3 H4 H5 H6 H7 Ht line Hr Ha Hlay Hx Hy Hz.
  destruct (line_fields f1 f2 f3 f4 c1 c2 c3 tail H1 H2 H3 H4 H5 H6 H7)
    as [S1 [S2 [S3 [S4 [S5 [S6 S7]]]]]].
  fold line in S1, S2, S3, S4, S5, S6, S7.
  assert (Hl : match lay with
               | Some l => Ok l
               | None => find_layout line
               end = Ok (mkLayout 24 32)).
  { destruct lay as [l|]; [now subst l|exact Hlay]. }
  assert (Hp : velocity_probe line (mkLayout 24 32) = []).
  { unfold velocity_probe. cbn [pdeci ndeci].
    apply slice_beyond; [|lia].
    unfold line, len. rewrite !length_app. lia. }
  unfold decode_atom.
  rewrite S1, Hr. cbn [bind]. rewrite S2, S3, S4, Ha. cbn [bind].
  rewrite Hl. cbn [bind].
  unfold coord_field, digits. cbn [pdeci ndeci].
  change (20 + 0 * (32 - 24)) with 20.
  change (20 + (0 + 1) * (32 - 24)) with 28.
  change (20 + 1 * (32 - 24)) with 28.
  change (20 + (1 + 1) * (32 - 24)) with 36.
  change (20 + 2 * (32 - 24)) with 36.
  change (20 + (2 + 1) * (32 - 24)) with 44.
  rewrite S5, S6, S7, Hx, Hy, Hz. cbn [bind].
  rewrite Hp. reflexivity.
Qed.

Lemma short_index_inv (i : Z) : short_index i = true -> 0 <= i < 99999.
Proof. unfold short_index. intros H. apply andb_prop in H. lia. Qed.

Lemma short_name_inv (s : str) :
  short_name s = true -> (length s <= 5)%nat /\ solid s.
Proof.
  unfold short_name. intros H. apply andb_prop in H. destruct H as [Hl Hs].
  split; [now apply Nat.leb_le|].
  rewrite forallb_forall in Hs. apply Forall_forall. intros c Hc.
  specialize (Hs c Hc). now destruct (isspace c).
Qed.

Lemma short_coordinate_inv (p : nat) (x : float) :
  short_coordinate p x = true ->
  is_finite (x / ten) = true /\
  (length (str_f p (x / ten)) <= 5 + p)%nat.
Proof.
  unfold short_coordinate. intros H. apply andb_prop in H.
  destruct H as [Hf Hl]. split; [trivial|now apply Nat.leb_le].
Qed.

(** *** Rounding to binary64

    What the rounding of the format does to a magnitude, from the
    definitions of [SpecFloat]: the result is a neighbour of the exact
    number on the grid of the format. *)

(** The number of binary digits of a mantissa. *)
Lemma digits2_pos_spec (p : positive) :
  2 ^ (Z.pos (digits2_pos p) - 1) <= Z.pos p < 2 ^ Z.pos (digits2_pos p).
Proof.
  induction p as [p IH|p IH|]; cbn [digits2_pos].
  - rewrite Pos2Z.inj_succ.
    replace (Z.succ (Z.pos (digits2_pos p)) - 1)
      with (Z.succ (Z.pos (digits2_pos p) - 1)) by lia.
    rewrite !Z.pow_succ_r by lia. lia.
  - rewrite Pos2Z.inj_succ.
    replace (Z.succ (Z.pos (digits2_pos p)) - 1)
      with (Z.succ (Z.pos (digits2_pos p) - 1)) by lia.
    rewrite !Z.pow_succ_r by lia. lia.
  - cbn. lia.
Qed.

Lemma Zdigits2_spec (m : Z) :
  0 < m -> 2 ^ (Zdigits2 m - 1) <= m < 2 ^ Zdigits2 m /\ 0 < Zdigits2 m.
Proof.
  destruct m as [|p|p]; try lia. intros _. cbn [Zdigits2].
  split; [apply digits2_pos_spec|lia].
Qed.

Lemma Zdigits2_unique (m d : Z) :
  2 ^ (d - 1) <= m < 2 ^ d -> 0 < d -> Zdigits2 m = d.
Proof.
  intros [Hlo Hhi] Hd.
  assert (Hm : 0 < m) by (pose proof (Z.pow_pos_nonneg 2 (d - 1)); lia).
  destruct (Zdigits2_spec m Hm) as [[Hlo' Hhi'] Hd'].
  destruct (Z.lt_trichotomy (Zdigits2 m) d) as [H|[H|H]]; trivial.
  - assert (2 ^ Zdigits2 m <= 2 ^ (d - 1)) by (apply Z.pow_le_mono_r; lia).
    lia.
  - assert (2 ^ d <= 2 ^ (Zdigits2 m - 1)) by (apply Z.pow_le_mono_r; lia).
    lia.
Qed.

Lemma Zdigits2_ge (m k : Z) : 0 <= k -> 2 ^ k <= m -> k + 1 <= Zdigits2 m.
Proof.
  intros Hk Hm.
  assert (Hpos : 0 < m) by (pose proof (Z.pow_pos_nonneg 2 k); lia).
  destruct (Zdigits2_spec m Hpos) as [[_ Hhi] Hd].
  destruct (Z.le_gt_cases (k + 1) (Zdigits2 m)) as [H|H]; trivial.
  assert (2 ^ Zdigits2 m <= 2 ^ k) by (apply Z.pow_le_mono_r; lia). lia.
Qed.

Lemma Zdigits2_le (m k : Z) : 0 <= k -> 0 <= m < 2 ^ k -> Zdigits2 m <= k.
Proof.
  intros Hk [Hm0 Hm].
  destruct (Z.eq_dec m 0) as [->|Hne]; [cbn; lia|].
  destruct (Zdigits2_spec m ltac:(lia)) as [[Hlo _] Hd].
  destruct (Z.le_gt_cases (Zdigits2 m) k) as [H|H]; trivial.
  assert (2 ^ k <= 2 ^ (Zdigits2 m - 1)) by (apply Z.pow_le_mono_r; lia). lia.
Qed.

(** Shifting a mantissa to the right. *)
Lemma shr_1_m (mrs : shr_record) :
  0 <= shr_m mrs -> shr_m (shr_1 mrs) = shr_m mrs / 2.
Proof.
  destruct mrs as [m r s]. cbn [shr_m shr_1]. intros Hm.
  destruct m as [|[p|p|]|p]; cbn [shr_m]; try lia; try reflexivity.
  - apply Z.div_unique with 1; lia.
  - apply Z.div_unique with 0; lia.
Qed.

Lemma iter_pos_shr (p : positive) :
  forall mrs, 0 <= shr_m mrs ->
    shr_m (SpecFloat.iter_pos shr_1 p mrs) = shr_m mrs / 2 ^ Z.pos p.
Proof.
  induction p as [p IH|p IH|]; intros mrs Hm; cbn [SpecFloat.iter_pos].
  - assert (H1 : 0 <= shr_m (shr_1 mrs)).
    { rewrite shr_1_m by trivial. apply Z.div_pos; lia. }
    assert (H2 : 0 <= shr_m (SpecFloat.iter_pos shr_1 p (shr_1 mrs))).
    { rewrite IH by trivial. apply Z.div_pos; [trivial|].
      apply Z.pow_pos_nonneg; lia. }
    rewrite IH, IH, shr_1_m by trivial.
    rewrite !Z.div_div by (try apply Z.pow_pos_nonneg; lia).
    f_equal.
    assert (Hp : Z.pos p~1 = 1 + Z.pos p + Z.pos p) by lia.
    rewrite Hp, !Z.pow_add_r by lia. lia.
  - assert (H2 : 0 <= shr_m (SpecFloat.iter_pos shr_1 p mrs)).
    { rewrite IH by trivial. apply Z.div_pos; [trivial|].
      apply Z.pow_pos_nonneg; lia. }
    rewrite IH, IH by trivial.
    rewrite !Z.div_div by (try apply Z.pow_pos_nonneg; lia).
    f_equal.
    assert (Hp : Z.pos p~0 = Z.pos p + Z.pos p) by lia.
    rewrite Hp, Z.pow_add_r by lia. lia.
  - now rewrite shr_1_m.
Qed.

Lemma shr_record_of_loc_m (m : Z) (l : location) :
  shr_m (shr_record_of_loc m l) = m.
Proof. destruct l as [|[]]; reflexivity. Qed.

Lemma shr_fexp_m (m e : Z) (l : location) :
  0 <= m ->
  let n := Z.max 0 (fexp prec emax (Zdigits2 m + e) - e) in
  shr_m (fst (shr_fexp prec emax m e l)) = m / 2 ^ n /\
  snd (shr_fexp prec emax m e l) = e + n.
Proof.
  intros Hm n. unfold shr_fexp, shr. subst n.
  destruct (fexp prec emax (Zdigits2 m + e) - e) as [|p|p] eqn:Hn;
    cbn [fst snd].
  - rewrite shr_record_of_loc_m. cbn. rewrite Z.div_1_r. lia.
  - rewrite iter_pos_shr by (rewrite shr_record_of_loc_m; lia).
    rewrite shr_record_of_loc_m.
    replace (Z.max 0 (Z.pos p)) with (Z.pos p) by lia. now split.
  - rewrite shr_record_of_loc_m.
    replace (Z.max 0 (Z.neg p)) with 0 by lia. cbn. rewrite Z.div_1_r. lia.
Qed.

Lemma round_nearest_even_cases (m : Z) (l : location) :
  round_nearest_even m l = m \/ round_nearest_even m l = m + 1.
Proof.
  destruct l as [|[]]; cbn; auto. destruct (Z.even m); auto.
Qed.

Lemma fexp_eq (k : Z) : fexp prec emax k = Z.max (k - 53) (-1074).
Proof. reflexivity. Qed.

(** The rounding of [mx * 2^ex] (and what lies above it, short of
    [(mx + 1) * 2 ^ ex]) to the format. *)
Lemma binary_round_aux_spec (sx : bool) (mx ex : Z) (lx : location) :
  0 <= mx ->
  let E := fexp prec emax (Zdigits2 mx + ex) in
  ex <= E -> E < 971 ->
  let mf := mx / 2 ^ (E - ex) in
  exists m',
    (m' = mf \/ m' = mf + 1) /\
    (E = -1074 \/ 2 ^ 52 <= mf) /\
    ((m' = 0 /\ binary_round_aux prec emax sx mx ex lx = S754_zero sx) \/
     (exists m e,
        binary_round_aux prec emax sx mx ex lx = S754_finite sx m e /\
        valid_binary (S754_finite sx m e) = true /\
        E <= e /\ m' = Z.pos m * 2 ^ (e - E))).
Proof.
  intros Hmx E HE Hmax mf.
  assert (HEmin : -1074 <= E) by (unfold E; rewrite fexp_eq; lia).
  assert (Hmf0 : 0 <= mf) by (apply Z.div_pos; [lia|apply Z.pow_pos_nonneg; lia]).
  assert (Hmf53 : mf < 2 ^ 53).
  { apply Z.div_lt_upper_bound; [apply Z.pow_pos_nonneg; lia|].
    rewrite <- Z.pow_add_r by lia.
    destruct (Z.eq_dec mx 0) as [->|Hne];
      [apply Z.pow_pos_nonneg; lia|].
    destruct (Zdigits2_spec mx ltac:(lia)) as [[_ Hhi] Hd].
    apply Z.lt_le_trans with (1 := Hhi).
    apply Z.pow_le_mono_r; [lia|]. unfold E. rewrite fexp_eq. lia. }
  assert (Hnorm : E = -1074 \/ 2 ^ 52 <= mf).
  { destruct (Z.eq_dec E (-1074)) as [|Hne]; [now left|right].
    assert (Hd : E = Zdigits2 mx + ex - 53)
      by (unfold E in *; rewrite fexp_eq in *; lia).
    destruct (Z.eq_dec mx 0) as [->|Hne0].
    { cbn [Zdigits2] in *. lia. }
    destruct (Zdigits2_spec mx ltac:(lia)) as [[Hlo _] Hdp].
    apply Z.div_le_lower_bound; [apply Z.pow_pos_nonneg; lia|].
    rewrite <- Z.pow_add_r by lia.
    replace (E - ex + 52) with (Zdigits2 mx - 1) by lia. exact Hlo. }
  destruct (shr_fexp_m mx ex lx Hmx) as [Hm1 He1].
  fold E in Hm1, He1.
  replace (Z.max 0 (E - ex)) with (E - ex) in Hm1, He1 by lia.
  replace (ex + (E - ex)) with E in He1 by lia.
  fold mf in Hm1.
  unfold binary_round_aux.
  destruct (shr_fexp prec emax mx ex lx) as [mrs' e'].
  cbn [fst snd] in Hm1, He1. subst e'.
  set (m' := round_nearest_even (shr_m mrs') (loc_of_shr_record mrs')).
  assert (Hm' : m' = mf \/ m' = mf + 1).
  { unfold m'. rewrite <- Hm1. apply round_nearest_even_cases. }
  exists m'. split; [exact Hm'|]. split; [exact Hnorm|].
  assert (Hm'0 : 0 <= m') by lia.
  destruct (shr_fexp_m m' E loc_Exact Hm'0) as [Hm2 He2].
  destruct (shr_fexp prec emax m' E loc_Exact) as [mrs'' e''].
  cbn [fst snd] in Hm2, He2.
  destruct (Z.eq_dec m' 0) as [Hz|Hnz].
  - left. split; [trivial|]. rewrite Hm2, Hz. rewrite Z.div_0_l; [reflexivity|].
    apply Z.pow_nonzero; lia.
  - right.
    destruct (Z.eq_dec m' (2 ^ 53)) as [Htop|Hntop].
    + (* the mantissa overflowed by one: one more shift *)
      assert (Hd' : Zdigits2 m' = 54).
      { rewrite Htop. reflexivity. }
      rewrite Hd', fexp_eq in Hm2, He2.
      replace (Z.max 0 (Z.max (54 + E - 53) (-1074) - E)) with 1 in Hm2, He2
        by lia.
      rewrite Htop in Hm2. change (2 ^ 53 / 2 ^ 1) with (2 ^ 52) in Hm2.
      rewrite Hm2. change (2 ^ 52) with (Z.pos (2 ^ 52)%positive).
      exists (2 ^ 52)%positive, e''. subst e''.
      replace (E + 1 <=? emax - prec) with true
        by (symmetry; apply Z.leb_le; change (emax - prec) with 971; lia).
      repeat split.
      * cbn [valid_binary]. unfold bounded, canonical_mantissa.
        apply andb_true_intro. split.
        -- apply Z.eqb_eq. rewrite fexp_eq.
           change (Z.pos (digits2_pos (2 ^ 52))) with 53. lia.
        -- apply Z.leb_le. change (emax - prec) with 971. lia.
      * lia.
      * rewrite Htop. replace (E + 1 - E) with 1 by lia. reflexivity.
    + assert (Hlt : m' < 2 ^ 53) by lia.
      assert (Hd'le : Zdigits2 m' <= 53) by (apply Zdigits2_le; lia).
      assert (Hd'pos : 0 < Zdigits2 m')
        by (apply (Zdigits2_spec m'); lia).
      assert (Hcanon : fexp prec emax (Zdigits2 m' + E) = E).
      { rewrite fexp_eq.
        destruct Hnorm as [Hmin|Hbig]; [lia|].
        assert (53 <= Zdigits2 m').
        { apply (Zdigits2_ge m' 52); lia. }
        lia. }
      rewrite Hcanon in Hm2, He2.
      replace (Z.max 0 (E - E)) with 0 in Hm2, He2 by lia.
      change (2 ^ 0) with 1 in Hm2. rewrite Z.div_1_r in Hm2.
      replace (E + 0) with E in He2 by lia. subst e''.
      rewrite Hm2.
      destruct m' as [|p|p]; try lia.
      exists p, E.
      replace (E <=? emax - prec) with true
        by (symmetry; apply Z.leb_le; change (emax - prec) with 971; lia).
      repeat split.
      * cbn [valid_binary]. unfold bounded, canonical_mantissa.
        apply andb_true_intro. split.
        -- apply Z.eqb_eq. exact Hcanon.
        -- apply Z.leb_le. change (emax - prec) with 971. lia.
      * lia.
      * rewrite Z.sub_diag. cbn. lia.
Qed.

(** *** Magnitudes as rational numbers *)

Lemma pow2_pos (e : Z) : (0 < pow2 e)%Q.
Proof. apply Qpower_0_lt. reflexivity. Qed.

Lemma pow2_add (a b : Z) : (pow2 (a + b) == pow2 a * pow2 b)%Q.
Proof. apply Qpower_plus. discriminate. Qed.

Lemma pow2_le (a b : Z) : a <= b -> (pow2 a <= pow2 b)%Q.
Proof. intros H. apply Qpower_le_compat_l; [trivial|discriminate]. Qed.

Lemma pow2_lt_inv (a b : Z) : (pow2 a < pow2 b)%Q -> a < b.
Proof. intros H. apply (Qpower_lt_compat_l_inv 2); [trivial|reflexivity]. Qed.

Lemma pow2_Z (k : Z) : 0 <= k -> (inject_Z (2 ^ k) == pow2 k)%Q.
Proof. intros H. now rewrite Zpower_Qpower. Qed.

(** Values between two neighbours of a grid stay there on a coarser
    grid. *)
Lemma coarser (m e n : Z) (R : Q) :
  0 <= m -> 0 <= n ->
  (inject_Z m * pow2 e <= R)%Q -> (R < inject_Z (m + 1) * pow2 e)%Q ->
  (inject_Z (m / 2 ^ n) * pow2 (e + n) <= R)%Q /\
  (R < inject_Z (m / 2 ^ n + 1) * pow2 (e + n))%Q.
Proof.
  intros Hm Hn Hlo Hhi.
  assert (Hp : 0 < 2 ^ n) by (apply Z.pow_pos_nonneg; lia).
  pose proof (Z.div_mod m (2 ^ n) ltac:(lia)) as Hdm.
  pose proof (Z.mod_pos_bound m (2 ^ n) Hp) as Hmod.
  set (q := m / 2 ^ n) in *.
  assert (H1 : q * 2 ^ n <= m) by lia.
  assert (H2 : m + 1 <= (q + 1) * 2 ^ n) by lia.
  rewrite Zle_Qle in H1, H2. rewrite !inject_Z_mult in H1, H2.
  pose proof (pow2_pos e) as He.
  rewrite pow2_add, <- (pow2_Z n) by trivial.
  assert (H1' : (inject_Z q * inject_Z (2 ^ n) * pow2 e <=
                 inject_Z m * pow2 e)%Q)
    by (apply Qmult_le_compat_r; [trivial|lra]).
  assert (H2' : (inject_Z (m + 1) * pow2 e <=
                 inject_Z (q + 1) * inject_Z (2 ^ n) * pow2 e)%Q)
    by (apply Qmult_le_compat_r; [trivial|lra]).
  split; lra.
Qed.

(** [binary_round_aux] on a value [R] that lies at [mx * 2^ex] or above
    it, short of [(mx + 1) * 2^ex]: the result is a number of the format,
    at most [2^E] away from [R], where [E] is the exponent of the format
    for numbers of this size. *)
Lemma round_mag (sx : bool) (mx ex : Z) (lx : location) (R : Q) :
  0 <= mx ->
  let E := fexp prec emax (Zdigits2 mx + ex) in
  ex <= E -> E < 971 ->
  (inject_Z mx * pow2 ex <= R)%Q -> (R < inject_Z (mx + 1) * pow2 ex)%Q ->
  let res := binary_round_aux prec emax sx mx ex lx in
  valid_binary res = true /\
  (res = S754_zero sx \/ exists m e, res = S754_finite sx m e) /\
  (R - pow2 E <= SFmag res)%Q /\ (SFmag res <= R + pow2 E)%Q /\
  (E = -1074 \/ (pow2 (E + 52) <= R)%Q /\ (pow2 (E + 52) <= SFmag res)%Q).
Proof.
  intros Hmx E HE Hmax Hlo Hhi res.
  destruct (binary_round_aux_spec sx mx ex lx Hmx HE Hmax)
    as [m' [Hm' [Hnorm Hres]]].
  fold E in Hm', Hnorm, Hres. fold res in Hres.
  set (mf := mx / 2 ^ (E - ex)) in *.
  destruct (coarser mx ex (E - ex) R Hmx ltac:(lia) Hlo Hhi) as [Hlo' Hhi'].
  fold mf in Hlo', Hhi'.
  replace (ex + (E - ex)) with E in Hlo', Hhi' by lia.
  assert (Hmf0 : 0 <= mf)
    by (apply Z.div_pos; [lia|apply Z.pow_pos_nonneg; lia]).
  assert (Hmag : (SFmag res == inject_Z m' * pow2 E)%Q /\
                 valid_binary res = true /\
                 (res = S754_zero sx \/ exists m e, res = S754_finite sx m e)).
  { destruct Hres as [[Hz ->]|[m [e [-> [Hv [He Hm]]]]]].
    - rewrite Hz. cbn [SFmag]. split; [ring|]. split; [reflexivity|now left].
    - split; [|split; [exact Hv|right; eauto]].
      cbn [SFmag]. rewrite Hm, inject_Z_mult.
      rewrite (pow2_Z (e - E)) by lia.
      replace e with ((e - E) + E) at 1 by lia.
      rewrite pow2_add. ring. }
  destruct Hmag as [Hmag [Hv Hform]].
  split; [exact Hv|]. split; [exact Hform|].
  pose proof (pow2_pos E) as HP.
  assert (Hone : (inject_Z (mf + 1) == inject_Z mf + 1)%Q)
    by (rewrite inject_Z_plus; reflexivity).
  assert (Hm'Q : (inject_Z m' == inject_Z mf)%Q \/
                 (inject_Z m' == inject_Z mf + 1)%Q).
  { destruct Hm' as [->| ->]; [left; reflexivity|right; exact Hone]. }
  assert (Hnorm' : E = -1074 \/ (pow2 52 <= inject_Z mf)%Q).
  { destruct Hnorm as [|H]; [now left|right].
    rewrite Zle_Qle in H. now rewrite (pow2_Z 52) in H by lia. }
  pose proof (pow2_add E 52) as Hadd.
  pose proof (pow2_pos 52) as H52.
  set (P := pow2 E) in *. set (a := inject_Z mf) in *.
  set (a1 := inject_Z (mf + 1)) in *. set (b := inject_Z m') in *.
  set (M := SFmag res) in *. set (P52 := pow2 52) in *.
  set (PE52 := pow2 (E + 52)) in *.
  assert (Ha0 : (0 <= a)%Q).
  { unfold a. change 0%Q with (inject_Z 0). now rewrite <- Zle_Qle. }
  split; [destruct Hm'Q; nra|]. split; [destruct Hm'Q; nra|].
  destruct Hnorm' as [|Hbig]; [now left|right].
  split; destruct Hm'Q; nra.
Qed.

(** *** Quotients and products of the format *)

Lemma valid_finite (s : bool) (m : positive) (e : Z) :
  valid_binary (S754_finite s m e) = true ->
  fexp prec emax (Zdigits2 (Z.pos m) + e) = e /\ e <= 971.
Proof.
  cbn [valid_binary]. unfold bounded, canonical_mantissa. intros H.
  apply andb_prop in H. destruct H as [H1 H2].
  apply Z.eqb_eq in H1. apply Z.leb_le in H2. now split.
Qed.

(** The quotient of two finite numbers. *)
Lemma SFdiv_spec (sx sy : bool) (mx my : positive) (ex ey : Z) :
  Zdigits2 (Z.pos mx) + ex - (Zdigits2 (Z.pos my) + ey) < 1023 ->
  let res := SFdiv prec emax (S754_finite sx mx ex) (S754_finite sy my ey) in
  let R := ((inject_Z (Z.pos mx) * pow2 ex) /
            (inject_Z (Z.pos my) * pow2 ey))%Q in
  exists E,
    valid_binary res = true /\
    (res = S754_zero (xorb sx sy) \/
     exists m e, res = S754_finite (xorb sx sy) m e) /\
    (R - pow2 E <= SFmag res)%Q /\ (SFmag res <= R + pow2 E)%Q /\
    (E = -1074 \/ (pow2 (E + 52) <= R)%Q /\ (pow2 (E + 52) <= SFmag res)%Q).
Proof.
  intros Hov res R. subst res. unfold SFdiv, SFdiv_core_binary.
  set (d1 := Zdigits2 (Z.pos mx)) in *. set (d2 := Zdigits2 (Z.pos my)) in *.
  set (e' := Z.min (fexp prec emax (d1 + ex - (d2 + ey))) (ex - ey)).
  set (s := ex - ey - e').
  assert (Hs : 0 <= s) by (unfold s, e'; lia).
  set (m' := match s with
             | 0 => Z.pos mx
             | Z.pos _ => Z.shiftl (Z.pos mx) s
             | Z.neg _ => 0
             end).
  assert (Hm' : m' = Z.pos mx * 2 ^ s).
  { unfold m'. destruct s as [|p|p] eqn:Es; [cbn; lia| |lia].
    apply Z.shiftl_mul_pow2. lia. }
  assert (Hq : Z.div_eucl m' (Z.pos my) = (m' / Z.pos my, m' mod Z.pos my)).
  { unfold Z.div, Z.modulo. now destruct (Z.div_eucl m' (Z.pos my)). }
  rewrite Hq. set (q := m' / Z.pos my).
  pose proof (Z.pow_pos_nonneg 2 s ltac:(lia) Hs) as H2s.
  assert (Hm'pos : 0 < m') by (rewrite Hm'; lia).
  assert (Hq0 : 0 <= q) by (apply Z.div_pos; lia).
  assert (Hqlo : Z.pos my * q <= m') by (apply Z.mul_div_le; lia).
  assert (Hqhi : m' < Z.pos my * (q + 1)).
  { pose proof (Z.mul_succ_div_gt m' (Z.pos my) ltac:(lia)). lia. }
  destruct (Zdigits2_spec (Z.pos mx) ltac:(lia)) as [[H1lo H1hi] Hd1].
  destruct (Zdigits2_spec (Z.pos my) ltac:(lia)) as [[H2lo H2hi] Hd2].
  fold d1 in H1lo, H1hi, Hd1. fold d2 in H2lo, H2hi, Hd2.
  (* the number of digits of the quotient *)
  assert (Hdq_lo : d1 + s - d2 <= Zdigits2 q).
  { destruct (Z.le_gt_cases (d1 + s - d2) 0) as [Hle|Hgt].
    - destruct q as [|p|p]; cbn [Zdigits2]; lia.
    - assert (Hk : 2 ^ (d1 + s - d2 - 1) <= q).
      { apply Z.div_le_lower_bound; [lia|].
        rewrite Hm'.
        assert (Hpow : 2 ^ (d1 + s - d2 - 1) * 2 ^ d2 =
                       2 ^ (d1 - 1) * 2 ^ s).
        { rewrite <- !Z.pow_add_r by lia. f_equal. lia. }
        pose proof (Z.pow_pos_nonneg 2 (d1 + s - d2 - 1) ltac:(lia)
                      ltac:(lia)).
        nia. }
      pose proof (Zdigits2_ge q (d1 + s - d2 - 1) ltac:(lia) Hk). lia. }
  assert (Hdq_hi : Zdigits2 q <= Z.max 0 (d1 + s - d2 + 1)).
  { destruct (Z.le_gt_cases 0 (d1 + s - d2 + 1)) as [Hle|Hgt].
    - replace (Z.max 0 (d1 + s - d2 + 1)) with (d1 + s - d2 + 1) by lia.
      apply Zdigits2_le; [lia|]. split; [lia|].
      assert (Hpow : 2 ^ (d1 + s - d2 + 1) * 2 ^ (d2 - 1) = 2 ^ d1 * 2 ^ s).
      { rewrite <- !Z.pow_add_r by lia. f_equal. lia. }
      pose proof (Z.pow_pos_nonneg 2 (d2 - 1) ltac:(lia) ltac:(lia)).
      nia.
    - replace (Z.max 0 (d1 + s - d2 + 1)) with 0 by lia.
      assert (Hq0' : q = 0).
      { assert (Hlt : m' < Z.pos my).
        { rewrite Hm'.
          assert (2 ^ d1 * 2 ^ s <= 2 ^ (d2 - 1)).
          { rewrite <- Z.pow_add_r by lia. apply Z.pow_le_mono_r; lia. }
          nia. }
        apply Z.div_small. lia. }
      rewrite Hq0'. cbn. lia. }
  assert (HeF : e' <= fexp prec emax (d1 + ex - (d2 + ey)))
    by (unfold e'; lia).
  assert (Hb : e' <= fexp prec emax (Zdigits2 q + e')).
  { rewrite fexp_eq in *. unfold s in *. lia. }
  assert (Hc : fexp prec emax (Zdigits2 q + e') < 971).
  { rewrite fexp_eq in *. unfold s in *. lia. }
  exists (fexp prec emax (Zdigits2 q + e')).
  apply round_mag; trivial.
  - (* the quotient lies at q * 2^e' or above *)
    subst R.
    assert (Hden : (0 < inject_Z (Z.pos my) * pow2 ey)%Q).
    { apply Qmult_lt_0_compat; [reflexivity|apply pow2_pos]. }
    apply Qle_shift_div_l; [exact Hden|].
    rewrite Hm' in Hqlo. rewrite Zle_Qle, !inject_Z_mult in Hqlo.
    rewrite (pow2_Z s) in Hqlo by lia.
    replace ex with (s + e' + ey) at 1 by (unfold s; lia).
    rewrite !pow2_add.
    pose proof (pow2_pos e'). pose proof (pow2_pos ey).
    set (P := pow2 e') in *. set (Py := pow2 ey) in *.
    set (Ps := pow2 s) in *.
    assert (Hpp : (0 < P * Py)%Q) by (apply Qmult_lt_0_compat; trivial).
    assert ((inject_Z (Z.pos my) * inject_Z q * (P * Py) <=
             inject_Z (Z.pos mx) * Ps * (P * Py))%Q)
      by (apply Qmult_le_compat_r; [trivial|lra]).
    lra.
  - subst R.
    assert (Hden : (0 < inject_Z (Z.pos my) * pow2 ey)%Q).
    { apply Qmult_lt_0_compat; [reflexivity|apply pow2_pos]. }
    apply Qlt_shift_div_r; [exact Hden|].
    rewrite Hm' in Hqhi. rewrite Zlt_Qlt, !inject_Z_mult in Hqhi.
    rewrite (pow2_Z s) in Hqhi by lia.
    replace ex with (s + e' + ey) at 1 by (unfold s; lia).
    rewrite !pow2_add.
    pose proof (pow2_pos e'). pose proof (pow2_pos ey).
    set (P := pow2 e') in *. set (Py := pow2 ey) in *.
    set (Ps := pow2 s) in *.
    assert (Hpp : (0 < P * Py)%Q) by (apply Qmult_lt_0_compat; trivial).
    assert ((inject_Z (Z.pos mx) * Ps * (P * Py) <
             inject_Z (Z.pos my) * inject_Z (q + 1) * (P * Py))%Q)
      by (apply Qmult_lt_compat_r; trivial).
    lra.
Qed.

(** The product of two finite numbers of the format. *)
Lemma SFmul_spec (sx sy : bool) (mx my : positive) (ex ey : Z) :
  valid_binary (S754_finite sx mx ex) = true ->
  valid_binary (S754_finite sy my ey) = true ->
  Zdigits2 (Z.pos mx) + ex + (Zdigits2 (Z.pos my) + ey) < 1024 ->
  let res := SFmul prec emax (S754_finite sx mx ex) (S754_finite sy my ey) in
  let R := ((inject_Z (Z.pos mx) * pow2 ex) *
            (inject_Z (Z.pos my) * pow2 ey))%Q in
  exists E,
    valid_binary res = true /\
    (res = S754_zero (xorb sx sy) \/
     exists m e, res = S754_finite (xorb sx sy) m e) /\
    (R - pow2 E <= SFmag res)%Q /\ (SFmag res <= R + pow2 E)%Q /\
    (E = -1074 \/ (pow2 (E + 52) <= R)%Q /\ (pow2 (E + 52) <= SFmag res)%Q).
Proof.
  intros Hvx Hvy Hov res R. subst res. unfold SFmul.
  apply valid_finite in Hvx, Hvy.
  destruct Hvx as [Hcx _]. destruct Hvy as [Hcy _].
  destruct (Zdigits2_spec (Z.pos mx) ltac:(lia)) as [[H1lo H1hi] Hd1].
  destruct (Zdigits2_spec (Z.pos my) ltac:(lia)) as [[H2lo H2hi] Hd2].
  set (d1 := Zdigits2 (Z.pos mx)) in *. set (d2 := Zdigits2 (Z.pos my)) in *.
  set (d := Zdigits2 (Z.pos (mx * my))).
  assert (Hd_lo : d1 + d2 - 1 <= d).
  { assert (Hk : 2 ^ (d1 + d2 - 2) <= Z.pos (mx * my)).
    { rewrite Pos2Z.inj_mul.
      replace (d1 + d2 - 2) with ((d1 - 1) + (d2 - 1)) by lia.
      rewrite Z.pow_add_r by lia.
      pose proof (Z.pow_pos_nonneg 2 (d1 - 1) ltac:(lia) ltac:(lia)).
      pose proof (Z.pow_pos_nonneg 2 (d2 - 1) ltac:(lia) ltac:(lia)).
      nia. }
    pose proof (Zdigits2_ge _ (d1 + d2 - 2) ltac:(lia) Hk).
    unfold d. lia. }
  assert (Hd_hi : d <= d1 + d2).
  { unfold d. apply Zdigits2_le; [lia|]. split; [lia|].
    rewrite Pos2Z.inj_mul, Z.pow_add_r by lia. nia. }
  assert (Hb : ex + ey <= fexp prec emax (d + (ex + ey))).
  { rewrite fexp_eq in *. lia. }
  assert (Hc : fexp prec emax (d + (ex + ey)) < 971).
  { rewrite fexp_eq in *. lia. }
  exists (fexp prec emax (d + (ex + ey))).
  apply round_mag; trivial; try lia.
  - subst R. rewrite Pos2Z.inj_mul, inject_Z_mult, pow2_add.
    apply Qle_lteq. right. ring.
  - subst R. rewrite Pos2Z.inj_mul, inject_Z_plus, inject_Z_mult, pow2_add.
    pose proof (pow2_pos ex). pose proof (pow2_pos ey).
    assert ((0 < pow2 ex * pow2 ey)%Q) by (apply Qmult_lt_0_compat; trivial).
    set (a := inject_Z (Z.pos mx)) in *. set (b := inject_Z (Z.pos my)) in *.
    set (P := pow2 ex) in *. set (Py := pow2 ey) in *.
    change (inject_Z 1) with 1%Q. lra.
Qed.


(** *** The number a rendering holds *)

Lemma uint_chars_app (u v : uint) :
  uint_chars (Decimal.app u v) = uint_chars u ++ uint_chars v.
Proof.
  assert (H : forall w, uint_chars w = uint_chars (of_list (to_list w)))
    by (intros w; now rewrite of_list_to_list).
  rewrite (H (Decimal.app u v)), app_spec.
  rewrite <- (of_list_to_list u) at 2. rewrite <- (of_list_to_list v) at 2.
  induction (to_list u) as [|d l IH]; [reflexivity|].
  destruct d; cbn [of_list Datatypes.app uint_chars app]; now rewrite IH.
Qed.

Lemma uint_chars_zeros (k : nat) (v : uint) :
  repeat "0"%char k ++ uint_chars v = uint_chars (Nat.iter k D0 v).
Proof. induction k as [|k IH]; [reflexivity|]. cbn. now rewrite IH. Qed.

Lemma usize_nb_digits (u : uint) :
  DecimalPos.Unsigned.usize u = N.of_nat (nb_digits u).
Proof.
  induction u; cbn [DecimalPos.Unsigned.usize nb_digits]; trivial;
    rewrite IHu; lia.
Qed.

Lemma of_uint_app (u v : uint) :
  (N.of_uint (Decimal.app u v) =
   N.of_uint v + N.of_uint u * 10 ^ N.of_nat (nb_digits v))%N.
Proof.
  unfold N.of_uint. rewrite !DecimalPos.Unsigned.of_uint_alt.
  assert (H : Decimal.rev (Decimal.app u v) =
              Decimal.revapp v (Decimal.rev u)).
  { apply to_list_inj.
    rewrite rev_spec, app_spec, revapp_spec, rev_spec.
    now rewrite rev_app_distr, rev_append_rev. }
  rewrite H, DecimalPos.Unsigned.of_lu_revapp.
  now rewrite usize_nb_digits.
Qed.

Lemma of_lu_lt (d : uint) :
  (DecimalPos.Unsigned.of_lu d < 10 ^ DecimalPos.Unsigned.usize d)%N.
Proof.
  induction d; cbn [DecimalPos.Unsigned.of_lu DecimalPos.Unsigned.usize];
    try rewrite N.pow_succ_r'; lia.
Qed.

Lemma of_uint_lt (u : uint) : (N.of_uint u < 10 ^ N.of_nat (nb_digits u))%N.
Proof.
  unfold N.of_uint. rewrite DecimalPos.Unsigned.of_uint_alt.
  rewrite <- (nb_digits_rev u), <- usize_nb_digits. apply of_lu_lt.
Qed.

(** A number of at most [k] digits is below [10^k]. *)
Lemma nat_chars_small (q : Z) (k : nat) :
  0 <= q -> (length (nat_chars q) <= k)%nat -> q < 10 ^ Z.of_nat k.
Proof.
  intros Hq Hl. unfold nat_chars in Hl. rewrite length_uint_chars in Hl.
  pose proof (of_uint_lt (N.to_uint (Z.to_N q))) as H.
  rewrite DecimalN.Unsigned.of_to in H.
  assert (H' : (Z.to_N q < 10 ^ N.of_nat k)%N).
  { eapply N.lt_le_trans; [exact H|]. apply N.pow_le_mono_r; lia. }
  apply N2Z.inj_lt in H'. rewrite Z2N.id in H' by trivial.
  rewrite N2Z.inj_pow in H'. now rewrite nat_N_Z in H'.
Qed.

(** The digits of [fixed p n], read as one number, are [n]. *)
Lemma digits_value_fixed (p : nat) (n : Z) :
  0 <= n -> p <> O ->
  digits_value
    (nat_chars (n / 10 ^ Z.of_nat p) ++
     zfill p (nat_chars (n mod 10 ^ Z.of_nat p))) = Some n.
Proof.
  intros Hn Hp0.
  assert (Hp : 0 < 10 ^ Z.of_nat p) by (apply Z.pow_pos_nonneg; lia).
  set (q := n / 10 ^ Z.of_nat p). set (r := n mod 10 ^ Z.of_nat p).
  assert (Hq : 0 <= q) by (apply Z.div_pos; lia).
  assert (Hr : 0 <= r < 10 ^ Z.of_nat p) by (apply Z.mod_pos_bound; lia).
  assert (Hlen : (length (nat_chars r) <= p)%nat).
  { apply length_nat_chars; lia. }
  unfold zfill, nat_chars.
  rewrite length_uint_chars in *.
  fold (nat_chars r) in Hlen. unfold nat_chars in Hlen.
  rewrite length_uint_chars in Hlen.
  rewrite uint_chars_zeros, <- uint_chars_app.
  pose proof (nat_chars_nonempty q) as Hne. unfold nat_chars in Hne.
  unfold digits_value.
  destruct (uint_chars (Decimal.app (N.to_uint (Z.to_N q)) _)) as [|c s]
    eqn:Hs.
  { rewrite uint_chars_app in Hs. apply app_eq_nil in Hs. now elim Hne. }
  rewrite <- Hs, chars_uint_chars. f_equal.
  rewrite of_uint_app, nb_digits_iter_D0.
  replace (p - nb_digits (N.to_uint (Z.to_N r)) +
           nb_digits (N.to_uint (Z.to_N r)))%nat with p by lia.
  assert (Hz : N.of_uint (Nat.iter (p - nb_digits (N.to_uint (Z.to_N r))) D0
                            (N.to_uint (Z.to_N r))) = Z.to_N r).
  { rewrite <- DecimalN.Unsigned.of_uint_norm, unorm_iter_D0.
    now rewrite DecimalN.Unsigned.of_uint_norm, DecimalN.Unsigned.of_to. }
  rewrite Hz, DecimalN.Unsigned.of_to.
  rewrite N2Z.inj_add, N2Z.inj_mul, N2Z.inj_pow, !Z2N.id by lia.
  rewrite nat_N_Z. change (Z.of_N 10) with 10.
  pose proof (Z.div_mod n (10 ^ Z.of_nat p) ltac:(lia)). unfold q, r. lia.
Qed.

(** [float] reads the fixed-point rendering of [n / 10^p] as the
    binary64 number nearest to [n / 10^p]. *)
Lemma float_of_numeral_exact (neg : bool) (p : nat) (n : Z) :
  0 <= n -> p <> O ->
  float_of_numeral neg (fixed p n) =
    Ok (float_of_decimal neg n (- Z.of_nat p)).
Proof.
  intros Hn Hp. unfold fixed.
  destruct p as [|p]; [now elim Hp|].
  set (ip := nat_chars (n / 10 ^ Z.of_nat (S p))).
  set (fp := zfill (S p) (nat_chars (n mod 10 ^ Z.of_nat (S p)))).
  assert (Hip : all_digits ip) by apply nat_chars_digits.
  assert (Hfp : all_digits fp) by apply zfill_digits, nat_chars_digits.
  assert (Hl : length fp = S p).
  { apply length_zfill, length_nat_chars; [lia|].
    apply Z.mod_pos_bound, Z.pow_pos_nonneg; lia. }
  unfold float_of_numeral.
  rewrite span_digits_point by trivial.
  rewrite span_digits_all by trivial.
  unfold ip, fp. rewrite digits_value_fixed by (trivial; discriminate).
  fold fp. unfold len. now rewrite Hl.
Qed.

(** *** Dividing and multiplying by ten *)

Lemma ten_SF : Prim2SF ten = S754_finite false 5629499534213120 (-49).
Proof. reflexivity. Qed.

Lemma ten_mag : (inject_Z (Z.pos 5629499534213120) * pow2 (-49) == 10)%Q.
Proof. reflexivity. Qed.

Lemma SFcompare_refl (s : bool) (m : positive) (e : Z) :
  SFcompare (S754_finite s m e) (S754_finite s m e) = Some Eq.
Proof.
  cbn [SFcompare]. rewrite Z.compare_refl.
  assert (H : Pos.compare_cont Eq m m = Eq) by apply Pos.compare_cont_refl.
  rewrite H. now destruct s.
Qed.

(** A number whose specification is a zero or a finite number is
    finite. *)
Lemma is_finite_SF (x : float) :
  (exists s, Prim2SF x = S754_zero s) \/
  (exists s m e, Prim2SF x = S754_finite s m e) ->
  is_finite x = true.
Proof.
  intros H. unfold is_finite, is_nan, is_infinity.
  rewrite !FloatAxioms.eqb_spec, abs_spec.
  destruct H as [[s ->]|[s [m [e ->]]]].
  - reflexivity.
  - unfold SFeqb. rewrite SFcompare_refl. reflexivity.
Qed.

(** How far rounding goes, for a result below [2^b]. *)
Lemma spec_bound (R M : Q) (E b : Z) :
  (R - pow2 E <= M)%Q -> (M <= R + pow2 E)%Q ->
  E = -1074 \/ (pow2 (E + 52) <= R)%Q /\ (pow2 (E + 52) <= M)%Q ->
  -1021 <= b -> (R < pow2 b)%Q \/ (M < pow2 b)%Q ->
  (R - pow2 (b - 53) <= M)%Q /\ (M <= R + pow2 (b - 53))%Q.
Proof.
  intros Hlo Hhi Hnorm Hb Hsmall.
  assert (HE : (pow2 E <= pow2 (b - 53))%Q).
  { apply pow2_le. destruct Hnorm as [->|[H1 H2]]; [lia|].
    assert (Hlt : (pow2 (E + 52) < pow2 b)%Q) by (destruct Hsmall; lra).
    apply pow2_lt_inv in Hlt. lia. }
  split; lra.
Qed.

(** [x / 10] for a finite [x]. *)
Lemma div_ten_spec (x : float) (sx : bool) (mx : positive) (ex : Z) :
  Prim2SF x = S754_finite sx mx ex ->
  let ry := Prim2SF (x / ten) in
  (ry = S754_zero sx \/ exists m e, ry = S754_finite sx m e) /\
  ((SFmag ry < pow2 14)%Q ->
   (SFmag (Prim2SF x) / 10 - pow2 (-39) <= SFmag ry)%Q /\
   (SFmag ry <= SFmag (Prim2SF x) / 10 + pow2 (-39))%Q).
Proof.
  intros Hx ry. subst ry.
  pose proof (Prim2SF_valid x) as Hv. rewrite Hx in Hv.
  destruct (valid_finite _ _ _ Hv) as [Hc He].
  rewrite div_spec, Hx, ten_SF. unfold SF64div.
  assert (Hd : Zdigits2 (Z.pos mx) <= 53) by (rewrite fexp_eq in Hc; lia).
  destruct (SFdiv_spec sx false mx 5629499534213120 ex (-49))
    as [E [_ [Hform [Hlo [Hhi Hnorm]]]]].
  { change (Zdigits2 (Z.pos 5629499534213120)) with 53. lia. }
  rewrite xorb_false_r in Hform.
  split; [exact Hform|]. intros Hsmall.
  cbn [SFmag].
  assert (HR : ((inject_Z (Z.pos mx) * pow2 ex) /
                (inject_Z (Z.pos 5629499534213120) * pow2 (-49)) ==
                inject_Z (Z.pos mx) * pow2 ex / 10)%Q)
    by now rewrite ten_mag.
  rewrite HR in Hlo, Hhi, Hnorm.
  apply (spec_bound _ _ E 14); trivial; [lia|now right].
Qed.

(** The number [float] makes of a decimal with three decimals. *)
Lemma float_of_decimal_spec (sg : bool) (n : Z) :
  0 <= n < 10 ^ 7 ->
  let rv := Prim2SF (float_of_decimal sg n (-3)) in
  (rv = S754_zero sg \/ exists m e, rv = S754_finite sg m e) /\
  (inject_Z n / 1000 - pow2 (-39) <= SFmag rv)%Q /\
  (SFmag rv <= inject_Z n / 1000 + pow2 (-39))%Q.
Proof.
  intros Hn rv. subst rv. unfold float_of_decimal.
  pose proof (pow2_pos (-39)) as Hp.
  destruct n as [|p|p]; try lia.
  - rewrite Prim2SF_SF2Prim by reflexivity. cbn [SFmag].
    change (inject_Z 0) with 0%Q.
    split; [now left|]. split; unfold Qdiv; rewrite Qmult_0_l; lra.
  - change (0 <=? -3) with false. cbv iota.
    change (Z.to_pos (10 ^ (- (-3)))) with 1000%positive.
    destruct (SFdiv_spec sg false p 1000 0 0)
      as [E [Hv [Hform [Hlo [Hhi Hnorm]]]]].
    { assert (Zdigits2 (Z.pos p) <= 24)
        by (apply Zdigits2_le; [lia|]; change (2 ^ 24) with 16777216; lia).
      change (Zdigits2 1000) with 10. lia. }
    rewrite xorb_false_r in Hform.
    rewrite Prim2SF_SF2Prim by exact Hv.
    split; [exact Hform|].
    assert (HR : (inject_Z (Z.pos p) * pow2 0 / (inject_Z 1000 * pow2 0) ==
                  inject_Z (Z.pos p) / 1000)%Q).
    { change (pow2 0) with 1%Q. change (inject_Z 1000) with 1000%Q.
      field. }
    rewrite HR in Hlo, Hhi, Hnorm.
    apply (spec_bound _ _ E 14); trivial; [lia|left].
    assert (Hq : (inject_Z (Z.pos p) < inject_Z (10 ^ 7))%Q)
      by (rewrite <- Zlt_Qlt; lia).
    change (inject_Z (10 ^ 7)) with 10000000%Q in Hq.
    change (pow2 14) with 16384%Q.
    apply Qlt_shift_div_r; [reflexivity|]. lra.
Qed.

(** [v * 10] for a [v] below [2^14]. *)
Lemma mul_ten_spec (v : float) (sg : bool) :
  (Prim2SF v = S754_zero sg \/ exists m e, Prim2SF v = S754_finite sg m e) ->
  (SFmag (Prim2SF v) < pow2 14)%Q ->
  let rx := Prim2SF (v * ten) in
  (rx = S754_zero sg \/ exists m e, rx = S754_finite sg m e) /\
  (SFmag (Prim2SF v) * 10 - pow2 (-35) <= SFmag rx)%Q /\
  (SFmag rx <= SFmag (Prim2SF v) * 10 + pow2 (-35))%Q.
Proof.
  intros Hform Hsmall rx. subst rx.
  pose proof (pow2_pos (-35)) as Hp.
  pose proof (Prim2SF_valid v) as Hv.
  rewrite mul_spec, ten_SF. unfold SF64mul.
  destruct Hform as [Hz|[m [e Hf]]].
  - rewrite Hz. cbn [SFmul SFmag]. rewrite xorb_false_r.
    split; [now left|]. split; lra.
  - rewrite Hf in *. cbn [SFmag] in *.
    destruct (Zdigits2_spec (Z.pos m) ltac:(lia)) as [[Hlo _] Hd].
    assert (Hde : Zdigits2 (Z.pos m) + e <= 14).
    { assert (Hlt : (pow2 (Zdigits2 (Z.pos m) - 1 + e) < pow2 14)%Q).
      { eapply Qle_lt_trans; [|exact Hsmall].
        rewrite pow2_add, <- (pow2_Z (Zdigits2 (Z.pos m) - 1)) by lia.
        apply Qmult_le_compat_r; [|apply Qlt_le_weak, pow2_pos].
        now rewrite <- Zle_Qle. }
      apply pow2_lt_inv in Hlt. lia. }
    destruct (SFmul_spec sg false m 5629499534213120 e (-49) Hv)
      as [E [_ [Hform [Hlo' [Hhi' Hnorm]]]]].
    { reflexivity. }
    { change (Zdigits2 (Z.pos 5629499534213120)) with 53. lia. }
    rewrite xorb_false_r in Hform.
    split; [exact Hform|].
    assert (HR : (inject_Z (Z.pos m) * pow2 e *
                  (inject_Z (Z.pos 5629499534213120) * pow2 (-49)) ==
                  inject_Z (Z.pos m) * pow2 e * 10)%Q)
      by now rewrite ten_mag.
    rewrite HR in Hlo', Hhi', Hnorm.
    apply (spec_bound _ _ E 18); trivial; [lia|left].
    change (pow2 14) with 16384%Q in Hsmall.
    change (pow2 18) with 262144%Q. lra.
Qed.

(** The integer written for [m * 2^e] with three decimals is within one
    half of a thousand times it. *)
Lemma scaled_near (m : positive) (e : Z) :
  0 <= scaled 3 m e /\
  (inject_Z (scaled 3 m e) - (1 # 2) <=
   1000 * (inject_Z (Z.pos m) * pow2 e))%Q /\
  (1000 * (inject_Z (Z.pos m) * pow2 e) <=
   inject_Z (scaled 3 m e) + (1 # 2))%Q.
Proof.
  unfold scaled. change (10 ^ Z.of_nat 3) with 1000.
  destruct (Z.leb_spec 0 e) as [He|He].
  - pose proof (Z.pow_pos_nonneg 2 e ltac:(lia) He).
    split; [lia|].
    rewrite !inject_Z_mult, (pow2_Z e) by trivial.
    change (inject_Z 1000) with 1000%Q. split; lra.
  - assert (Hden : 0 < 2 ^ (- e)) by (apply Z.pow_pos_nonneg; lia).
    pose proof (round_half_even_nearest (Z.pos m * 1000) (2 ^ (- e)) Hden)
      as Hnear.
    set (n := round_half_even (Z.pos m * 1000) (2 ^ (- e))) in *.
    assert (Hn0 : 0 <= n).
    { unfold n, round_half_even.
      assert (0 <= Z.pos m * 1000 / 2 ^ (- e)) by (apply Z.div_pos; lia).
      destruct (2 * ((Z.pos m * 1000) mod 2 ^ (- e)) ?= 2 ^ (- e));
        try destruct (Z.even _); lia. }
    split; [exact Hn0|].
    assert (H1 : n * 2 ^ (- e) * 2 - 2 ^ (- e) <= Z.pos m * 1000 * 2) by lia.
    assert (H2 : Z.pos m * 1000 * 2 <= n * 2 ^ (- e) * 2 + 2 ^ (- e)) by lia.
    rewrite Zle_Qle in H1, H2.
    unfold Z.sub in H1.
    rewrite !inject_Z_plus, !inject_Z_mult, inject_Z_opp in H1.
    rewrite !inject_Z_plus, !inject_Z_mult in H2.
    rewrite (pow2_Z (- e)) in H1, H2 by lia.
    change (inject_Z 1000) with 1000%Q in *.
    change (inject_Z 2) with 2%Q in *.
    pose proof (pow2_pos e) as Hpe.
    assert (Hinv : (pow2 (- e) * pow2 e == 1)%Q).
    { rewrite <- pow2_add. replace (- e + e) with 0 by lia. reflexivity. }
    set (D := pow2 (- e)) in *. set (P := pow2 e) in *.
    set (a := inject_Z n) in *. set (b := inject_Z (Z.pos m)) in *.
    assert (H1' : ((a * D * 2 + - D) * P <= b * 1000 * 2 * P)%Q)
      by (apply Qmult_le_compat_r; [trivial|lra]).
    assert (H2' : (b * 1000 * 2 * P <= (a * D * 2 + D) * P)%Q)
      by (apply Qmult_le_compat_r; [trivial|lra]).
    assert (Ha : (a * (D * P) == a)%Q) by (rewrite Hinv; ring).
    split; lra.
Qed.

(** *** A coordinate, written and read back *)

Lemma float_of_text_fixed (neg : bool) (p : nat) (n : Z) :
  float_of_text (sign_chars neg ++ fixed p n) =
    float_of_numeral neg (fixed p n).
Proof.
  unfold float_of_text.
  assert (Hsplit : split_sign (sign_chars neg ++ fixed p n) = (neg, fixed p n)).
  { destruct (fixed_cases p n) as [c [ip [Hd [[_ ->]|[fp [-> _]]]]]];
      inversion Hd; subst; destruct neg; cbn [sign_chars app split_sign];
      trivial; now apply split_sign_digit. }
  rewrite Hsplit.
  assert (Hhead : exists c r, fixed p n = c :: r /\ isdigit c = true).
  { destruct (fixed_cases p n) as [c [ip [Hd [[_ ->]|[fp [-> _]]]]]];
      inversion Hd; subst; simpl; eauto. }
  destruct Hhead as [c [r [Hfix Hc]]].
  destruct (digit_not_letter c Hc) as [Hi Hn].
  cbv zeta.
  replace (str_eqb (map lower (fixed p n)) (py "inf")) with false
    by (rewrite Hfix; cbn [map py list_ascii_of_string str_eqb];
        now rewrite Hi).
  replace (str_eqb (map lower (fixed p n)) (py "infinity")) with false
    by (rewrite Hfix; cbn [map py list_ascii_of_string str_eqb];
        now rewrite Hi).
  replace (str_eqb (map lower (fixed p n)) (py "nan")) with false
    by (rewrite Hfix; cbn [map py list_ascii_of_string str_eqb];
        now rewrite Hn).
  reflexivity.
Qed.

(** [float] reads the rendering of [(-1)^sg * n / 10^p], blanks around
    it or not, as the binary64 number nearest to it. *)
Lemma pyfloat_fixed (ws1 ws2 : str) (sg : bool) (p : nat) (n : Z) :
  cblank ws1 -> cblank ws2 -> 0 <= n -> p <> O ->
  pyfloat (ws1 ++ (sign_chars sg ++ fixed p n) ++ ws2) =
    Ok (float_of_decimal sg n (- Z.of_nat p)).
Proof.
  intros H1 H2 Hn Hp. unfold pyfloat.
  rewrite strip_c_core by (trivial; apply sign_solid, fixed_solid).
  rewrite ungroup_plain.
  - rewrite float_of_text_fixed. now apply float_of_numeral_exact.
  - pose proof (fixed_plain p n). destruct sg; cbn [sign_chars app]; trivial.
    now constructor.
  - reflexivity.
Qed.

(** A number that is finite once divided by ten is finite. *)
Lemma div_ten_finite (x : float) :
  is_finite (x / ten) = true ->
  exists sx, zero_or_finite sx (Prim2SF x).
Proof.
  intros H. apply finite_cases in H. rewrite div_spec, ten_SF in H.
  unfold zero_or_finite.
  destruct (Prim2SF x) as [s|s| |s m e]; eauto.
  - destruct H as [[s' H]|[s' [m [e H]]]]; discriminate.
  - destruct H as [[s' H]|[s' [m [e H]]]]; discriminate.
Qed.

(** [x / 10] for a zero or a finite [x]. *)
Lemma div_ten_near (x : float) (sx : bool) :
  zero_or_finite sx (Prim2SF x) ->
  zero_or_finite sx (Prim2SF (x / ten)) /\
  ((SFmag (Prim2SF (x / ten)) < pow2 14)%Q ->
   (SFmag (Prim2SF x) / 10 - pow2 (-39) <= SFmag (Prim2SF (x / ten)))%Q /\
   (SFmag (Prim2SF (x / ten)) <= SFmag (Prim2SF x) / 10 + pow2 (-39))%Q).
Proof.
  intros [Hz|[m [e Hf]]].
  - rewrite div_spec, ten_SF, Hz. cbn [SF64div SFdiv SFmag].
    rewrite xorb_false_r. split; [now left|]. intros _.
    pose proof (pow2_pos (-39)). unfold Qdiv. rewrite Qmult_0_l. split; lra.
  - exact (div_ten_spec x sx m e Hf).
Qed.

Lemma str_f_thousandths (y : float) (sg : bool) :
  zero_or_finite sg (Prim2SF y) ->
  str_f 3 y = sign_chars sg ++ fixed 3 (thousandths (Prim2SF y)) /\
  0 <= thousandths (Prim2SF y) /\
  (inject_Z (thousandths (Prim2SF y)) - (1 # 2) <=
   1000 * SFmag (Prim2SF y))%Q /\
  (1000 * SFmag (Prim2SF y) <=
   inject_Z (thousandths (Prim2SF y)) + (1 # 2))%Q.
Proof.
  unfold str_f. intros [->|[m [e ->]]]; cbn [thousandths SFmag].
  - split; [reflexivity|]. split; [lia|].
    change (inject_Z 0) with 0%Q. split; lra.
  - split; [reflexivity|]. apply scaled_near.
Qed.

(** A rendering of at most eight characters shows fewer than [10^7]
    thousandths. *)
Lemma fixed_short (sg : bool) (n : Z) :
  0 <= n -> (length (sign_chars sg ++ fixed 3 n) <= 8)%nat -> n < 10 ^ 7.
Proof.
  intros Hn Hl. unfold fixed in Hl.
  rewrite !length_app in Hl. cbn [length] in Hl.
  rewrite length_zfill in Hl
    by (apply length_nat_chars; [lia|];
        apply Z.mod_pos_bound; reflexivity).
  assert (Hq : n / 10 ^ Z.of_nat 3 < 10 ^ Z.of_nat 4).
  { apply nat_chars_small; [apply Z.div_pos; [trivial|reflexivity]|lia]. }
  change (10 ^ Z.of_nat 3) with 1000 in Hq.
  change (10 ^ Z.of_nat 4) with 10000 in Hq.
  change (10 ^ 7) with 10000000.
  pose proof (Z.div_mod n 1000 ltac:(lia)).
  pose proof (Z.mod_pos_bound n 1000 ltac:(lia)). lia.
Qed.

Lemma value_signed (r : spec_float) (sg : bool) :
  zero_or_finite sg r ->
  (SFvalue r == if sg then - SFmag r else SFmag r)%Q.
Proof.
  unfold SFvalue.
  intros [->|[m [e ->]]]; cbn [SFsign SFmag]; destruct sg; reflexivity.
Qed.

(** A coordinate that fits its eight columns comes back finite and
    within the tolerance. *)
Lemma coordinate_near (x : float) :
  short_coordinate 3 x = true ->
  exists x', times10 (column 8 3 (x / ten)) = Ok x' /\ near x' x.
Proof.
  intros Hs. apply short_coordinate_inv in Hs. destruct Hs as [Hfin Hfit].
  destruct (div_ten_finite x Hfin) as [sx Hx].
  destruct (div_ten_near x sx Hx) as [Hy Hdiv].
  destruct (str_f_thousandths (x / ten) sx Hy) as [Hstr [Hn0 [Hnlo Hnhi]]].
  set (n := thousandths (Prim2SF (x / ten))) in *.
  rewrite Hstr in Hfit.
  change (5 + 3)%nat with 8%nat in Hfit.
  pose proof (fixed_short sx n Hn0 Hfit) as Hn.
  destruct (float_of_decimal_spec sx n (conj Hn0 Hn)) as [Hv [Hvlo Hvhi]].
  set (v := float_of_decimal sx n (-3)) in *.
  change (inject_Z n / 1000)%Q with (inject_Z n * (1 # 1000))%Q in Hvlo, Hvhi.
  assert (HnQ : (inject_Z n <= 9999999)%Q).
  { change 9999999%Q with (inject_Z 9999999). rewrite <- Zle_Qle.
    change (10 ^ 7) with 10000000 in Hn. lia. }
  assert (H39 : (pow2 (-39) == 1 # 549755813888)%Q) by reflexivity.
  assert (H35 : (pow2 (-35) == 1 # 34359738368)%Q) by reflexivity.
  assert (H14 : (pow2 14 == 16384)%Q) by reflexivity.
  assert (Hvs : (SFmag (Prim2SF v) < pow2 14)%Q).
  { rewrite H14. rewrite H39 in Hvhi. lra. }
  destruct (mul_ten_spec v sx Hv Hvs) as [Hr [Hrlo Hrhi]].
  assert (Hys : (SFmag (Prim2SF (x / ten)) < pow2 14)%Q)
    by (rewrite H14; lra).
  destruct (Hdiv Hys) as [Hdlo Hdhi].
  change (SFmag (Prim2SF x) / 10)%Q
    with (SFmag (Prim2SF x) * (1 # 10))%Q in Hdlo, Hdhi.
  exists (v * ten)%float. split; [|split].
  - unfold times10. rewrite column_cases, Hstr.
    destruct (Nat.leb_spec (length (sign_chars sx ++ fixed 3 n)) 8); [|lia].
    unfold rjust.
    rewrite <- (app_nil_r (sign_chars sx ++ fixed 3 n)) at 2.
    rewrite pyfloat_fixed;
      [reflexivity|apply cblank_spaces|constructor|trivial|discriminate].
  - apply is_finite_SF. destruct Hr as [Hr|Hr]; eauto.
  - unfold value.
    rewrite (value_signed _ sx Hr), (value_signed _ sx Hx).
    unfold tolerance. rewrite H39 in *. rewrite H35 in *.
    apply Qabs_Qle_condition.
    destruct sx; split; lra.
Qed.

Lemma length_velocity_text (hv : bool) (a : SAtom) :
  (length (concat (velocity_writes 3 hv a)) <= 24)%nat.
Proof.
  unfold velocity_writes.
  destruct hv; [|simpl; lia].
  destruct (avel a) as [[[vx vy] vz]|]; [|simpl; lia].
  cbn [concat]. rewrite !length_app, !length_column. simpl. lia.
Qed.

Lemma atom_text_fields (hv : bool) (a : SAtom) :
  atom_text 3 hv a =
    fmt_d 5 (res_idx (residue a) + 1) ++ ljust 5 (res_name (residue a)) ++
    rjust 5 (aname a) ++ fmt_d 5 (idx a + 1) ++
    column 8 3 (axx a / ten) ++ column 8 3 (axy a / ten) ++
    column 8 3 (axz a / ten) ++ (concat (velocity_writes 3 hv a) ++ [nl]).
Proof.
  unfold atom_text, atom_writes, ident_text, coordinate_writes.
  cbn [app concat Nat.add]. rewrite concat_app. cbn [concat].
  rewrite app_nil_r. now rewrite <- !app_assoc.
Qed.

(** [parse] decodes the line [write] produced for a writable atom, on the
    first line (no layout yet) as on the later ones. *)
Lemma decode_written (hv : bool) (a : SAtom) (lay : option Layout) :
  writable_atom 3 a = true ->
  lay = None \/ lay = Some (mkLayout 24 32) ->
  exists r,
    decode_atom lay (atom_text 3 hv a) = Ok (r, mkLayout 24 32) /\
    read_back a r.
Proof.
  unfold writable_atom. intros Hw Hlay.
  do 6 (apply andb_prop in Hw; destruct Hw as [Hw ?]).
  apply short_index_inv in Hw.
  destruct (coordinate_near (axx a)) as [x [Hx Hnx]]; trivial.
  destruct (coordinate_near (axy a)) as [y [Hy Hny]]; trivial.
  destruct (coordinate_near (axz a)) as [z [Hz Hnz]]; trivial.
  repeat match goal with
  | H : short_index _ = true |- _ => apply short_index_inv in H
  | H : short_name _ = true |- _ => apply short_name_inv in H; destruct H
  | H : short_coordinate _ _ = true |- _ =>
      apply short_coordinate_inv in H; destruct H
  end.
  exists (mkAdded (mkAtom (aname a) (idx a + 1) x y z None)
            (res_name (residue a)) (res_idx (residue a) + 1)).
  split;
    [|unfold read_back; cbn [name atom resname number resnum xx xy xz];
      auto 10].
  rewrite atom_text_fields.
  rewrite <- (strip_rjust 5 (aname a)) at 2 by trivial.
  rewrite <- (strip_ljust 5 (res_name (residue a))) at 2 by trivial.
  apply decode_fields;
    try apply length_column; try apply pyint_fmt_d; trivial.
  - apply length_fmt_d5; lia.
  - now apply length_ljust.
  - now apply length_rjust_fits.
  - apply length_fmt_d5; lia.
  - rewrite length_app. pose proof (length_velocity_text hv a).
    simpl length. lia.
  - destruct Hlay as [->| ->]; [|reflexivity].
    destruct (column_shape 3 (axx a / ten)) as [l1 [r1 [E1 [L1 [R1 [N1 M1]]]]]];
      trivial; [discriminate|].
    destruct (column_shape 3 (axy a / ten)) as [l2 [r2 [E2 [L2 [R2 [N2 M2]]]]]];
      trivial; [discriminate|].
    change (5 + 3)%nat with 8%nat in E1, E2. rewrite E1, E2.
    match goal with
    | |- find_layout (?f1 ++ ?f2 ++ ?f3 ++ ?f4 ++ _) = _ =>
        replace (f1 ++ f2 ++ f3 ++ f4 ++
                 (l1 ++ "."%char :: r1) ++ (l2 ++ "."%char :: r2) ++
                 column 8 3 (axz a / ten) ++
                 concat (velocity_writes 3 hv a) ++ [nl])
          with ((f1 ++ f2 ++ f3 ++ f4) ++ l1 ++ "."%char :: r1 ++ l2 ++
                "."%char :: (r2 ++ column 8 3 (axz a / ten) ++
                             concat (velocity_writes 3 hv a) ++ [nl]))
          by (rewrite <- !app_assoc; cbn [app]; reflexivity)
    end.
    apply line_layout; trivial.
    rewrite !length_app, !length_fmt_d5, length_ljust, length_rjust_fits;
      trivial; lia.
Qed.

Lemma decode_lines_written (hv : bool) (ats : list SAtom) :
  forallb (writable_atom 3) ats = true ->
  forall lay,
    lay = None \/ lay = Some (mkLayout 24 32) ->
    exists adds,
      decode_lines lay (map (atom_text 3 hv) ats) = Ok adds /\
      Forall2 read_back ats adds.
Proof.
  induction ats as [|a ats IH]; intros Hw lay Hlay.
  - exists []. split; [reflexivity|constructor].
  - cbn [forallb] in Hw. apply andb_prop in Hw. destruct Hw as [Ha Hw].
    destruct (decode_written hv a lay Ha Hlay) as [r [Hr Hback]].
    destruct (IH Hw (Some (mkLayout 24 32))) as [adds [Hadds Hall]];
      [now right|].
    exists (r :: adds). split; [|now constructor].
    cbn [map decode_lines]. rewrite Hr. cbn [as_GromacsError].
    rewrite Hadds. reflexivity.
Qed.

(** *** The lines of the file *)

Lemma lines_from_line (body : str) :
  no_char nl body ->
  forall cur rest,
    lines_from cur (body ++ nl :: rest) =
      (List.rev cur ++ body ++ [nl]) :: lines_from [] rest.
Proof.
  induction 1 as [|c body Hc _ IH]; intros cur rest.
  - cbn [app lines_from]. rewrite Ascii.eqb_refl. reflexivity.
  - cbn [app lines_from]. rewrite Hc, IH. cbn [List.rev].
    now rewrite <- app_assoc.
Qed.

Lemma lines_line (body rest : str) :
  no_char nl body ->
  lines ((body ++ [nl]) ++ rest) = (body ++ [nl]) :: lines rest.
Proof.
  intros H. unfold lines. rewrite <- app_assoc. cbn [app].
  now rewrite lines_from_line.
Qed.

Lemma velocity_text_no_nl (p : nat) (hv : bool) (a : SAtom) :
  no_char nl (concat (velocity_writes p hv a)).
Proof.
  unfold velocity_writes.
  destruct hv; [|constructor].
  destruct (avel a) as [[[vx vy] vz]|]; [|constructor].
  cbn [concat]. unfold no_char.
  repeat match goal with
  | |- Forall _ (_ ++ _) => apply Forall_app; split
  end; try apply column_no_nl.
  constructor.
Qed.

(** A written atom is one line of the file. *)
Lemma atom_text_line (hv : bool) (a : SAtom) :
  writable_atom 3 a = true ->
  exists body, atom_text 3 hv a = body ++ [nl] /\ no_char nl body.
Proof.
  unfold writable_atom. intros Hw.
  do 6 (apply andb_prop in Hw; destruct Hw as [Hw ?]).
  repeat match goal with
  | H : short_name _ = true |- _ => apply short_name_inv in H; destruct H
  end.
  rewrite atom_text_fields.
  exists (fmt_d 5 (res_idx (residue a) + 1) ++ ljust 5 (res_name (residue a)) ++
          rjust 5 (aname a) ++ fmt_d 5 (idx a + 1) ++
          column 8 3 (axx a / ten) ++ column 8 3 (axy a / ten) ++
          column 8 3 (axz a / ten) ++ concat (velocity_writes 3 hv a)).
  split; [now rewrite <- !app_assoc|].
  unfold no_char.
  repeat match goal with
  | |- Forall _ (_ ++ _) => apply Forall_app; split
  end;
    try apply fmt_d_no_nl; try apply column_no_nl;
    try apply velocity_text_no_nl.
  - unfold ljust. apply Forall_app. split;
      [now apply solid_no_nl|apply spaces_no_nl].
  - unfold rjust. apply Forall_app. split;
      [apply spaces_no_nl|now apply solid_no_nl].
Qed.

Lemma lines_atoms (hv : bool) (ats : list SAtom) (rest : str) :
  forallb (writable_atom 3) ats = true ->
  lines (concat (map (atom_text 3 hv) ats) ++ rest) =
    map (atom_text 3 hv) ats ++ lines rest.
Proof.
  induction ats as [|a ats IH]; intros Hw; [reflexivity|].
  cbn [forallb] in Hw. apply andb_prop in Hw. destruct Hw as [Ha Hw].
  destruct (atom_text_line hv a Ha) as [body [Hbody Hnl]].
  cbn [map concat app]. rewrite <- app_assoc, Hbody.
  rewrite lines_line by trivial. now rewrite IH.
Qed.

Lemma box_fields_no_nl (vs : list float) : no_char nl (box_fields vs).
Proof.
  unfold box_fields. induction vs as [|v vs IH]; [constructor|].
  cbn [map concat]. apply Forall_app. split; [apply fmt_f_no_nl|exact IH].
Qed.

Lemma title_no_nl :
  no_char nl (py "GROningen MAchine for Chemical Simulation").
Proof. unfold py. cbn [list_ascii_of_string]. repeat constructor. Qed.

(** The lines of a written file: the title, the count, one line for each
    atom, the box line. *)
Lemma lines_written (s : Structure) (hv : bool) (values : list float) :
  forallb (writable_atom 3) (atoms s) = true ->
  lines ((header_text s ++ concat (map (atom_text 3 hv) (atoms s))) ++
         box_fields values ++ [nl]) =
    (py "GROningen MAchine for Chemical Simulation" ++ [nl]) ::
    (fmt_d 5 (Z.of_nat (length (atoms s))) ++ [nl]) ::
    map (atom_text 3 hv) (atoms s) ++ [box_fields values ++ [nl]].
Proof.
  intros Hw. unfold header_text.
  replace ((py "GROningen MAchine for Chemical Simulation" ++ [nl] ++
            fmt_d 5 (Z.of_nat (length (atoms s))) ++ [nl]) ++
           concat (map (atom_text 3 hv) (atoms s)))
    with ((py "GROningen MAchine for Chemical Simulation" ++ [nl]) ++
          (fmt_d 5 (Z.of_nat (length (atoms s))) ++ [nl]) ++
          concat (map (atom_text 3 hv) (atoms s)))
    by (now rewrite <- !app_assoc).
  rewrite <- !app_assoc.
  rewrite (app_assoc (py _) [nl]).
  rewrite lines_line by apply title_no_nl.
  rewrite (app_assoc (fmt_d _ _) [nl]).
  rewrite lines_line by apply fmt_d_no_nl.
  rewrite lines_atoms by trivial.
  rewrite <- (app_nil_r (box_fields values ++ [nl])) at 1.
  rewrite lines_line by apply box_fields_no_nl.
  reflexivity.
Qed.

Lemma count_line_read (n : Z) (w : nat) :
  pyint (strip (fmt_d w n ++ [nl])) = Ok n.
Proof.
  unfold fmt_d, rjust. rewrite <- app_assoc.
  rewrite strip_core;
    [|apply blank_spaces|apply str_of_int_solid|now repeat constructor].
  pose proof (pyint_str_of_int [] [] n) as H.
  cbn [app] in H. rewrite app_nil_r in H. apply H; constructor.
Qed.

(** *** The box line *)

(** A box field of at most nine characters starts with a blank. *)
Lemma fmt_f_narrow (v : float) :
  (length (str_f 5 v) <=? 9)%nat = true ->
  exists k, fmt_f 10 5 v = " "%char :: spaces k ++ str_f 5 v.
Proof.
  intros H. apply Nat.leb_le in H. unfold fmt_f, rjust.
  destruct (10 - length (str_f 5 v))%nat as [|k] eqn:Hk; [lia|].
  exists k. reflexivity.
Qed.

Lemma box_rest_head (vs : list float) :
  narrow vs = true ->
  exists c r,
    concat (map (fmt_f 10 5) vs) ++ [nl] = c :: r /\ isspace c = true.
Proof.
  destruct vs as [|v vs]; intros H.
  - exists nl, []. split; reflexivity.
  - cbn [narrow forallb] in H. apply andb_prop in H. destruct H as [Hv _].
    destruct (fmt_f_narrow v Hv) as [k Hk].
    cbn [map concat]. rewrite Hk. cbn [app]. eexists _, _.
    split; reflexivity.
Qed.

Lemma split_narrow (vs : list float) :
  narrow vs = true ->
  split_run [] (concat (map (fmt_f 10 5) vs) ++ [nl]) = map (str_f 5) vs.
Proof.
  induction vs as [|v vs IH]; intros H; [reflexivity|].
  cbn [narrow forallb] in H. apply andb_prop in H. destruct H as [Hv Hvs].
  destruct (box_rest_head vs Hvs) as [c [r [Hrest Hc]]].
  cbn [map concat]. rewrite <- app_assoc, Hrest.
  unfold fmt_f at 1. unfold rjust. rewrite <- app_assoc.
  rewrite split_token; trivial.
  - rewrite <- Hrest. now rewrite IH.
  - apply blank_spaces.
  - apply str_f_solid.
  - apply str_f_nonempty.
Qed.

Lemma split_box (vs : list float) :
  separated vs = true ->
  split (box_fields vs ++ [nl]) = map (str_f 5) vs.
Proof.
  unfold separated, split, box_fields.
  destruct vs as [|v vs]; intros H; [reflexivity|].
  cbn [tl] in H.
  destruct (box_rest_head vs H) as [c [r [Hrest Hc]]].
  cbn [map concat]. rewrite <- app_assoc, Hrest.
  unfold fmt_f at 1. unfold rjust. rewrite <- app_assoc.
  rewrite split_token; trivial.
  - rewrite <- Hrest. now rewrite split_narrow.
  - apply blank_spaces.
  - apply str_f_solid.
  - apply str_f_nonempty.
Qed.



(** *** The round trip *)




(** *** The sniffer on files that [write] produces *)

Lemma str_of_int_no_point (n : Z) : no_char "."%char (str_of_int n).
Proof.
  destruct (str_of_int_cases n)
    as [[c [r [-> [Hc [Hr _]]]]]|[c [r [-> [Hd _]]]]].
  - apply digits_no_point. now constructor.
  - constructor; [reflexivity|now apply digits_no_point].
Qed.

Lemma fmt_d_no_point (w : nat) (n : Z) : no_char "."%char (fmt_d w n).
Proof.
  unfold fmt_d, rjust. apply Forall_app. split.
  - apply no_char_spaces.
  - apply str_of_int_no_point.
Qed.

Lemma plain_name_inv (s : str) :
  plain_name s = true -> s <> [] /\ no_char "."%char s.
Proof.
  unfold plain_name. intros H. apply andb_prop in H. destruct H as [Hl Hs].
  split.
  - intros ->. discriminate.
  - rewrite forallb_forall in Hs. apply Forall_forall. intros c Hc.
    specialize (Hs c Hc). now destruct (Ascii.eqb c "."%char).
Qed.

(** A slice past a prefix is a slice of what follows the prefix. *)
Lemma slice_skip (pre t : str) (a b : Z) :
  0 <= a -> 0 <= b ->
  slice (pre ++ t) (len pre + a) (len pre + b) = slice t a b.
Proof.
  intros Ha Hb. unfold slice.
  pose proof (len_nonneg pre). pose proof (len_nonneg t).
  rewrite len_app, !clamp_nonneg by lia.
  replace (Z.to_nat (Z.min (len pre + a) (len pre + len t)))
    with (length pre + Z.to_nat (Z.min a (len t)))%nat by (unfold len in *; lia).
  rewrite skipn_app, skipn_all2 by lia.
  replace (length pre + Z.to_nat (Z.min a (len t)) - length pre)%nat
    with (Z.to_nat (Z.min a (len t))) by lia.
  cbn [app]. f_equal. lia.
Qed.

(** The sniffer on a line laid out in fields of 5, 5, 5, 5, 8, 8 and 8
    columns, with the decimal points of the first two coordinates in
    columns 24 and 32. *)
Lemma probe_fields (f1 f2 f3 f4 lead1 frac1 lead2 frac2 c3 tail : str) :
  length f1 = 5%nat -> length f2 = 5%nat -> length f3 = 5%nat ->
  length f4 = 5%nat -> length lead1 = 4%nat -> length frac1 = 3%nat ->
  length lead2 = 4%nat -> length frac2 = 3%nat -> length c3 = 8%nat ->
  no_char "."%char f1 -> no_char "."%char f2 -> no_char "."%char f3 ->
  no_char "."%char f4 -> no_char "."%char lead1 -> no_char "."%char frac1 ->
  no_char "."%char lead2 ->
  is_ok (pyint f1) = true -> strip f2 <> [] -> strip f3 <> [] ->
  is_ok (pyint f4) = true ->
  is_ok (pyfloat (lead1 ++ "."%char :: frac1)) = true ->
  is_ok (pyfloat (lead2 ++ "."%char :: frac2)) = true ->
  is_ok (pyfloat c3) = true ->
  (strip (slice tail 0 8) = [] \/
   is_ok (pyfloat (slice tail 0 8)) = true /\
   is_ok (pyfloat (slice tail 8 16)) = true /\
   is_ok (pyfloat (slice tail 16 24)) = true) ->
  probe_line (f1 ++ f2 ++ f3 ++ f4 ++ (lead1 ++ "."%char :: frac1) ++
              (lead2 ++ "."%char :: frac2) ++ c3 ++ tail) = Ok true.
Proof.
  intros L1 L2 L3 L4 Ll1 Lf1 Ll2 Lf2 L7 N1 N2 N3 N4 Nl1 Nf1 Nl2
         H1 H2 H3 H4 Hx Hy Hz Htail.
  set (c1 := lead1 ++ "."%char :: frac1) in *.
  set (c2 := lead2 ++ "."%char :: frac2) in *.
  assert (L5 : length c1 = 8%nat)
    by (unfold c1; rewrite length_app; simpl length; lia).
  assert (L6 : length c2 = 8%nat)
    by (unfold c2; rewrite length_app; simpl length; lia).
  destruct (line_fields f1 f2 f3 f4 c1 c2 c3 tail L1 L2 L3 L4 L5 L6 L7)
    as [S1 [S2 [S3 [S4 [S5 [S6 S7]]]]]].
  set (line := f1 ++ f2 ++ f3 ++ f4 ++ c1 ++ c2 ++ c3 ++ tail) in *.
  assert (Htl : forall a b, 0 <= a -> 0 <= b ->
                  slice line (44 + a) (44 + b) = slice tail a b).
  { intros a b Ha Hb. unfold line.
    replace (f1 ++ f2 ++ f3 ++ f4 ++ c1 ++ c2 ++ c3 ++ tail)
      with ((f1 ++ f2 ++ f3 ++ f4 ++ c1 ++ c2 ++ c3) ++ tail)
      by (now rewrite <- !app_assoc).
    replace 44 with (len (f1 ++ f2 ++ f3 ++ f4 ++ c1 ++ c2 ++ c3))
      by (unfold len; rewrite !length_app; lia).
    now apply slice_skip. }
  assert (Hpos : exists more, positions "."%char line 0 = 24 :: 32 :: more).
  { unfold line, c1, c2.
    replace (f1 ++ f2 ++ f3 ++ f4 ++ (lead1 ++ "."%char :: frac1) ++
             (lead2 ++ "."%char :: frac2) ++ c3 ++ tail)
      with ((f1 ++ f2 ++ f3 ++ f4 ++ lead1) ++ "."%char ::
            (frac1 ++ lead2) ++ "."%char :: (frac2 ++ c3 ++ tail))
      by (rewrite <- !app_assoc; cbn [app]; reflexivity).
    rewrite positions_app
      by (unfold no_char;
          repeat match goal with
                 | |- Forall _ (_ ++ _) => apply Forall_app; split
                 end; trivial).
    rewrite positions_app by (apply Forall_app; now split).
    eexists. f_equal; [|f_equal];
      unfold len; rewrite !length_app; lia. }
  destruct Hpos as [more Hpos].
  unfold probe_line.
  rewrite S1. destruct (is_ok_inv _ H1) as [rnum ->]. cbn [bind].
  rewrite S2. destruct (strip f2) as [|r2 rs2]; [now elim H2|].
  rewrite S3. destruct (strip f3) as [|r3 rs3]; [now elim H3|].
  rewrite S4. destruct (is_ok_inv _ H4) as [atnum ->]. cbn [bind].
  rewrite Hpos. cbn [getitem nth_error bind].
  change (probe_field line 24 (32 - 24 - 5) 1) with (slice line 20 28).
  change (probe_field line 24 (32 - 24 - 5) 2) with (slice line 28 36).
  change (probe_field line 24 (32 - 24 - 5) 3) with (slice line 36 44).
  change (probe_field line 24 (32 - 24 - 5) 4)
    with (slice line (44 + 0) (44 + 8)).
  change (probe_field line 24 (32 - 24 - 5) 5)
    with (slice line (44 + 8) (44 + 16)).
  change (probe_field line 24 (32 - 24 - 5) 6)
    with (slice line (44 + 16) (44 + 24)).
  rewrite S5, S6, S7, !Htl by lia.
  destruct (is_ok_inv _ Hx) as [x ->].
  destruct (is_ok_inv _ Hy) as [y ->].
  destruct (is_ok_inv _ Hz) as [z ->]. cbn [bind].
  destruct Htail as [->|[Hv1 [Hv2 Hv3]]]; [reflexivity|].
  destruct (strip (slice tail 0 8)); [reflexivity|].
  destruct (is_ok_inv _ Hv1) as [v1 ->].
  destruct (is_ok_inv _ Hv2) as [v2 ->].
  destruct (is_ok_inv _ Hv3) as [v3 ->]. reflexivity.
Qed.

Lemma column_read (w d : nat) (x : float) :
  (4 <= w)%nat -> is_ok (pyfloat (column w d x)) = true.
Proof.
  intros Hw. now destruct (pyfloat_column w d x Hw) as [y ->].
Qed.

(** What follows the coordinates on a written line: the line feed alone,
    or three fields [float] reads. *)
Lemma velocity_tail (hv : bool) (a : SAtom) :
  let tail := concat (velocity_writes 3 hv a) ++ [nl] in
  strip (slice tail 0 8) = [] \/
  is_ok (pyfloat (slice tail 0 8)) = true /\
  is_ok (pyfloat (slice tail 8 16)) = true /\
  is_ok (pyfloat (slice tail 16 24)) = true.
Proof.
  unfold velocity_writes.
  destruct hv; [|left; reflexivity].
  destruct (avel a) as [[[vx vy] vz]|]; [|left; reflexivity].
  right. cbn [concat Nat.add]. cbv zeta.
  set (c1 := column 8 4 (vx / ten)).
  set (c2 := column 8 4 (vy / ten)).
  set (c3 := column 8 4 (vz / ten)).
  assert (L1 : length c1 = 8%nat) by apply length_column.
  assert (L2 : length c2 = 8%nat) by apply length_column.
  assert (L3 : length c3 = 8%nat) by apply length_column.
  rewrite app_nil_r.
  assert (S1 : slice ((c1 ++ c2 ++ c3) ++ [nl]) 0 8 = c1).
  { rewrite <- !app_assoc. apply (slice_mid [] c1); unfold len; simpl; lia. }
  assert (S2 : slice ((c1 ++ c2 ++ c3) ++ [nl]) 8 16 = c2).
  { rewrite <- !app_assoc. apply (slice_mid c1 c2); unfold len; lia. }
  assert (S3 : slice ((c1 ++ c2 ++ c3) ++ [nl]) 16 24 = c3).
  { replace ((c1 ++ c2 ++ c3) ++ [nl]) with ((c1 ++ c2) ++ c3 ++ [nl])
      by (now rewrite <- !app_assoc).
    apply slice_mid; unfold len; rewrite ?length_app; lia. }
  rewrite S1, S2, S3. repeat split; apply column_read; lia.
Qed.

(** The sniffer accepts the line [write] produces for a writable atom
    with plain names. *)
Lemma probe_written (hv : bool) (a : SAtom) :
  writable_atom 3 a = true ->
  plain_name (res_name (residue a)) = true ->
  plain_name (aname a) = true ->
  probe_line (atom_text 3 hv a) = Ok true.
Proof.
  unfold writable_atom. intros Hw Pr Pa.
  do 6 (apply andb_prop in Hw; destruct Hw as [Hw ?]).
  apply short_index_inv in Hw.
  repeat match goal with
  | H : short_index _ = true |- _ => apply short_index_inv in H
  | H : short_name _ = true |- _ => apply short_name_inv in H; destruct H
  | H : short_coordinate _ _ = true |- _ =>
      apply short_coordinate_inv in H; destruct H
  end.
  apply plain_name_inv in Pr, Pa.
  destruct Pr as [Pr Nr]. destruct Pa as [Pa Na].
  destruct (column_shape 3 (axx a / ten)) as [l1 [r1 [E1 [L1 [R1 [N1 M1]]]]]];
    trivial; [discriminate|].
  destruct (column_shape 3 (axy a / ten)) as [l2 [r2 [E2 [L2 [R2 [N2 M2]]]]]];
    trivial; [discriminate|].
  change (5 + 3)%nat with 8%nat in E1, E2.
  pose proof (column_read 8 3 (axx a / ten)) as Hx.
  pose proof (column_read 8 3 (axy a / ten)) as Hy.
  rewrite atom_text_fields, E1, E2. rewrite E1 in Hx. rewrite E2 in Hy.
  apply probe_fields; trivial;
    try apply fmt_d_no_point; try apply length_column;
    try (rewrite pyint_fmt_d; reflexivity).
  - apply length_fmt_d5; lia.
  - now apply length_ljust.
  - now apply length_rjust_fits.
  - apply length_fmt_d5; lia.
  - unfold ljust. apply Forall_app. split; [trivial|apply no_char_spaces].
  - unfold rjust. apply Forall_app. split; [apply no_char_spaces|trivial].
  - now rewrite strip_ljust.
  - now rewrite strip_rjust.
  - apply Hx. lia.
  - apply Hy. lia.
  - apply column_read. lia.
  - apply velocity_tail.
Qed.

(** What [write] has written when it ends, for a destination it can
    write to: the header, the atom lines, and the box line if it got
    there. *)
Lemma write_text lv red tiny (s : Structure) (dest : Dest) (precision : nat)
    (nobox : bool) :
  dest <> NotWritable ->
  exists bt,
    snd (write lv red tiny s dest precision nobox) =
      (header_text s ++
       concat (map (atom_text precision (forallb has_velocity (atoms s)))
                   (atoms s))) ++ bt.
Proof.
  intros Hd. unfold write.
  destruct dest; [| |now elim Hd];
    (destruct (box_text lv red tiny s nobox) as [bt|e];
     [exists bt; reflexivity|exists []; now rewrite app_nil_r]).
Qed.

(** [id_format] returns [True] on the text [write] produces with
    [precision = 3] for a structure whose first atom has indices below
    99999, residue and atom names of one to five characters without
    blank or decimal point, and finite coordinates that fit their eight
    columns: whatever the other atoms, the velocities and the box. *)
Theorem id_format_accepts_written :
  forall lv red tiny s dest nobox a ats,
    dest <> NotWritable ->
    atoms s = a :: ats ->
    writable_atom 3 a = true ->
    plain_name (res_name (residue a)) = true ->
    plain_name (aname a) = true ->
    id_format (lines (snd (write lv red tiny s dest 3 nobox))) = Ok true.
Proof.
  intros lv red tiny s dest nobox a ats Hd Hats Hw Pr Pa.
  destruct (write_text lv red tiny s dest 3 nobox Hd) as [bt ->].
  set (hv := forallb has_velocity (atoms s)).
  destruct (atom_text_line hv a Hw) as [body [Hbody Hnl]].
  pose proof (probe_written hv a Hw Pr Pa) as Hprobe.
  unfold header_text. rewrite Hats. cbn [map concat].
  rewrite Hbody in *.
  replace ((((py "GROningen MAchine for Chemical Simulation" ++ [nl] ++
              fmt_d 5 (Z.of_nat (length (a :: ats))) ++ [nl]) ++
             (body ++ [nl]) ++ concat (map (atom_text 3 hv) ats)) ++ bt))
    with ((py "GROningen MAchine for Chemical Simulation" ++ [nl]) ++
          (fmt_d 5 (Z.of_nat (length (a :: ats))) ++ [nl]) ++
          (body ++ [nl]) ++ concat (map (atom_text 3 hv) ats) ++ bt)
    by (now rewrite <- !app_assoc).
  rewrite lines_line by apply title_no_nl.
  rewrite lines_line by apply fmt_d_no_nl.
  rewrite lines_line by trivial.
  unfold id_format. cbn [readline].
  rewrite count_line_read. now rewrite Hprobe.
Qed.

(** On the sample pair. *)
Lemma id_format_accepts_written_witness :
  id_format
    (lines (snd (write any_vectors any_reduction 0 pair
                   (Path (py "out.gro")) 3 false))) = Ok true.
Proof.
  apply (id_format_accepts_written any_vectors any_reduction 0%float pair
           (Path (py "out.gro")) false
           (mkSAtom sol (py "OW") 0 0 0 0 None)
           [mkSAtom sol (py "HW1") 1 10 0 0 None]).
  - discriminate.
  - reflexivity.
  - vm_compute. reflexivity.
  - vm_compute. reflexivity.
  - vm_compute. reflexivity.
Defined.

(** *** The decoder on lines that the sniffer accepts *)

Lemma positions_find (c : ascii) (s : str) :
  forall i j more,
    positions c s i = j :: more -> find_from c s i = Some j.
Proof.
  induction s as [|x s IH]; intros i j more H; cbn [positions find_from] in *.
  - discriminate.
  - destruct (Ascii.eqb x c).
    + now injection H as -> _.
    + now apply IH in H.
Qed.

(** What a return of [True] from the inner block of the sniffer tells. *)
Lemma probe_line_true (line : str) :
  probe_line line = Ok true ->
  exists p0 p1 more,
    is_ok (pyint (slice line 0 5)) = true /\
    is_ok (pyint (slice line 15 20)) = true /\
    positions "."%char line 0 = p0 :: p1 :: more /\
    is_ok (pyfloat (probe_field line p0 (p1 - p0 - 5) 1)) = true /\
    is_ok (pyfloat (probe_field line p0 (p1 - p0 - 5) 2)) = true /\
    is_ok (pyfloat (probe_field line p0 (p1 - p0 - 5) 3)) = true.
Proof.
  unfold probe_line. intros H.
  destruct (pyint (slice line 0 5)) as [rnum|]; [|discriminate].
  cbn [bind] in H.
  destruct (strip (slice line 5 10)); [discriminate|].
  destruct (strip (slice line 10 15)); [discriminate|].
  destruct (pyint (slice line 15 20)) as [atnum|]; [|discriminate].
  cbn [bind] in H. unfold getitem in H.
  destruct (positions "."%char line 0) as [|p0 [|p1 more]];
    cbn [nth_error bind] in H; try discriminate.
  destruct (pyfloat (probe_field line p0 (p1 - p0 - 5) 1)) eqn:E1;
    [|discriminate].
  destruct (pyfloat (probe_field line p0 (p1 - p0 - 5) 2)) eqn:E2;
    [|discriminate].
  destruct (pyfloat (probe_field line p0 (p1 - p0 - 5) 3)) eqn:E3;
    [|discriminate].
  exists p0, p1, more. rewrite E1, E2, E3. repeat split.
Qed.

(** When [id_format] returns [True] on a file whose first atom line has
    its first decimal point in column 24 and at most 110 characters,
    [parse] decodes that line: it finds the first decimal point in column
    24 too, reads the coordinates from the fields the sniffer tested, and
    sets no velocity. *)
Theorem sniffed_line_decodes :
  forall title count line rest,
    id_format (title :: count :: line :: rest) = Ok true ->
    find_from "."%char line 0 = Some 24 ->
    len line <= 110 ->
    exists a l,
      decode_atom None line = Ok (a, l) /\
      pdeci l = 24 /\ velocity (atom a) = None.
Proof.
  intros title count line rest Hid Hpoint Hlen.
  unfold id_format in Hid. cbn [readline] in Hid.
  destruct (pyint (strip count)) as [natom|[]]; try discriminate.
  assert (Hprobe : probe_line line = Ok true).
  { destruct (probe_line line) as [b|[]]; cbn in Hid; congruence. }
  clear Hid.
  destruct (probe_line_true line Hprobe)
    as [p0 [p1 [more [Hr [Ha [Hpos [Hx [Hy Hz]]]]]]]].
  destruct (find_from_split _ _ _ _ Hpoint) as [pre [post [Hline [Hpre H24]]]].
  assert (Hlp : len pre = 24) by lia.
  rewrite Hline, positions_app in Hpos by trivial.
  replace (0 + len pre) with 24 in Hpos by lia.
  injection Hpos as <- Hpos.
  apply positions_find in Hpos.
  destruct (find_from_split _ _ _ _ Hpos) as [pre' [post' [_ [_ Hp1]]]].
  pose proof (len_nonneg pre').
  assert (Hlay : find_layout line = Ok (mkLayout 24 p1)).
  { unfold find_layout. rewrite Hline.
    rewrite (index_app _ pre post 20 Hpre) by lia.
    cbn [bind]. rewrite Hlp.
    replace (pre ++ "."%char :: post) with ((pre ++ ["."%char]) ++ post)
      by (now rewrite <- app_assoc).
    replace (24 + 1) with (len (pre ++ ["."%char]))
      by (rewrite len_app; unfold len at 2; simpl; lia).
    rewrite index_from.
    replace (len (pre ++ ["."%char])) with 25
      by (rewrite len_app; unfold len at 2; simpl; lia).
    change (24 + 1) with 25 in Hpos. now rewrite Hpos. }
  change (probe_field line 24 (p1 - 24 - 5) 1)
    with (probe_field line 24 (p1 - 24 - 5) (0 + 1)) in Hx.
  change (probe_field line 24 (p1 - 24 - 5) 2)
    with (probe_field line 24 (p1 - 24 - 5) (1 + 1)) in Hy.
  change (probe_field line 24 (p1 - 24 - 5) 3)
    with (probe_field line 24 (p1 - 24 - 5) (2 + 1)) in Hz.
  rewrite probe_field_coord in Hx, Hy, Hz.
  assert (Hv : velocity_probe line (mkLayout 24 p1) = []).
  { unfold velocity_probe. cbn [pdeci ndeci]. apply slice_beyond; lia. }
  destruct (is_ok_inv _ Hr) as [rnum Er].
  destruct (is_ok_inv _ Ha) as [atnum Ea].
  destruct (is_ok_inv _ Hx) as [x Ex].
  destruct (is_ok_inv _ Hy) as [y Ey].
  destruct (is_ok_inv _ Hz) as [z Ez].
  exists (mkAdded (mkAtom (strip (slice line 10 15)) atnum
                     (x * ten) (y * ten) (z * ten) None)
            (strip (slice line 5 10)) rnum), (mkLayout 24 p1).
  split; [|split; reflexivity].
  unfold decode_atom. rewrite Er, Ea. cbn [bind]. rewrite Hlay. cbn [bind].
  unfold times10. rewrite Ex, Ey, Ez. cbn [bind]. rewrite Hv. reflexivity.
Qed.

(** On the sample file of two water atoms. *)
Lemma sniffed_line_decodes_witness :
  exists a l,
    decode_atom None (L "    1SOL     OW    1   1.000   2.000   3.000") =
      Ok (a, l) /\
    pdeci l = 24 /\ velocity (atom a) = None.
Proof.
  apply (sniffed_line_decodes (L "Test") (L "    2")
           (L "    1SOL     OW    1   1.000   2.000   3.000")
           [L "    1SOL    HW1    2   1.100   2.000   3.000";
            L "   3.00000   3.00000   3.00000"]).
  - vm_compute. reflexivity.
  - vm_compute. reflexivity.
  - vm_compute. discriminate.
Defined.

(** *** The box line, written and read *)

Lemma float_three (v0 v1 v2 : float) :
  exists x0 x1 x2,
    pyfloat (str_f 5 v0) = Ok x0 /\ pyfloat (str_f 5 v1) = Ok x1 /\
    pyfloat (str_f 5 v2) = Ok x2 /\
    float_all (map (str_f 5) [v0; v1; v2]) = Ok [x0; x1; x2].
Proof.
  assert (H : forall v, exists x, pyfloat (str_f 5 v) = Ok x).
  { intros v. destruct (pyfloat_str_f [] [] 5 v) as [x Hx]; try constructor.
    cbn [app] in Hx. rewrite app_nil_r in Hx. eauto. }
  destruct (H v0) as [x0 H0]. destruct (H v1) as [x1 H1].
  destruct (H v2) as [x2 H2].
  exists x0, x1, x2. repeat split; trivial.
  cbn [map float_all]. now rewrite H0, H1, H2.
Qed.

(** A box line of three numbers that [write] produced, the second and
    the third of at most nine characters, is read back by [parse] as an
    orthorhombic box: each length is ten times the number [float] reads
    from the five-decimal rendering, the angles are 90; the atoms are
    decoded on the way and [parse] leaves nothing of the file unread. *)
Theorem written_box_read_back :
  forall la np lv red tiny s filename nobox v0 v1 v2,
    forallb (writable_atom 3) (atoms s) = true ->
    box_values lv red tiny s nobox = Ok (Some [v0; v1; v2]) ->
    separated [v0; v1; v2] = true ->
    exists adds x0 x1 x2,
      pyfloat (str_f 5 v0) = Ok x0 /\
      pyfloat (str_f 5 v1) = Ok x1 /\
      pyfloat (str_f 5 v2) = Ok x2 /\
      parse la np
            (lines (snd (write lv red tiny s (Path filename) 3 nobox))) =
        (Ok (mkParsed adds
               (let b := mkBox (x0 * ten) (x1 * ten) (x2 * ten)
                               ninety ninety ninety in
                if np then BoxArray (Some b) else BoxList b)), []).
Proof.
  intros la np lv red tiny s filename nobox v0 v1 v2 Hw Hbox Hsep.
  set (hv := forallb has_velocity (atoms s)).
  destruct (decode_lines_written hv (atoms s) Hw None) as [adds [Hadds _]];
    [now left|].
  destruct (float_three v0 v1 v2) as [x0 [x1 [x2 [H0 [H1 [H2 Hall]]]]]].
  exists adds, x0, x1, x2. repeat split; trivial.
  unfold write, box_text. rewrite Hbox. cbn [bind snd]. fold hv.
  rewrite lines_written by trivial.
  unfold parse. cbn [readline]. rewrite count_line_read.
  rewrite (atom_loop_block (map (atom_text 3 hv) (atoms s)) _ 0 None None []
             (box_fields [v0; v1; v2] ++ [nl]) [] adds);
    trivial; [|rewrite length_map; lia].
  cbn [app]. unfold box_of_line.
  pose proof (split_box [v0; v1; v2] Hsep) as Hsplit.
  destruct (strip (box_fields [v0; v1; v2] ++ [nl])) as [|c r] eqn:Hs.
  - apply strip_nil_blank, split_blank in Hs. rewrite Hs in Hsplit.
    discriminate.
  - rewrite Hsplit, Hall. cbn [box_of_values bind]. now destruct np.
Qed.

(** On the sample pair, whose derived box is 1.5, 0.5 and 0.5 nm. *)
Lemma written_box_read_back_witness :
  exists adds,
    parse any_lengths_and_angles false
          (lines (snd (write any_vectors any_reduction 0 pair
                         (Path (py "out.gro")) 3 false))) =
      (Ok (mkParsed adds (BoxList (mkBox 15 5 5 90 90 90))), []).
Proof.
  destruct (written_box_read_back any_lengths_and_angles false any_vectors
              any_reduction 0%float pair (py "out.gro") false
              1.5%float 0.5%float 0.5%float)
    as [adds [x0 [x1 [x2 [H0 [H1 [H2 H]]]]]]].
  - vm_compute. reflexivity.
  - vm_compute. reflexivity.
  - vm_compute. reflexivity.
  - exists adds. rewrite H.
    vm_compute in H0, H1, H2.
    injection H0 as <-. injection H1 as <-. injection H2 as <-.
    vm_compute. reflexivity.
Defined.
